(** * QuantumShield ledger core

    A shallow embedding of [src/blockchain/block.py],
    [src/blockchain/blockchain.py], [src/blockchain/pqc_crypto.py] and
    [src/ai_security/anomaly_detector.py]: transactions, the Merkle
    commitment, proof-of-work mining, the chain with its pending pool,
    balance replay and chain validation, wallets and signatures, and the
    anomaly detector with its rules.

    Python values are modelled as follows.
    - [str] is [string]; [bytes] is [list byte].
    - [int] is [Z] (block index, block nonce, difficulty).
    - Amounts are Python numbers (the source annotates them [float] and also
      passes [int]s); they are kept abstract behind the [Number] interface,
      which assumes no arithmetic law at all.
    - Attribute assignments are functions returning the updated record. A
      block owns its transaction list: [mine_pending_transactions] rebinds
      [self.pending_transactions] to a fresh list right after the block that
      holds the old one is appended, so no list or transaction is shared
      between two blocks or between a block and the pool.
    - [hashlib.sha3_256], [json.dumps] and [datetime.now] are library calls:
      the first two are interfaces ([Hashlib], [JsonCodec]), the clock
      reading is an explicit argument of every operation that reads it.
    - [None] is [option]'s [None]; an attribute that may hold [None]
      ([Block.hash], [Transaction.signature]) has an [option] type.
    - A loop that may run forever (the one of [Block.mine_block]) takes
      fuel; a call whose fuel is exhausted is [OutOfFuel], still running.
    - ['0' * difficulty] raises [OverflowError] for a count outside the
      range of [sys.maxsize] and [MemoryError] when the string cannot be
      built; which strings can be built is the interface [Memory].
    - [print] calls change no state and are left out.
    - The detector's scores are Python [float]s, modelled as the kernel's
      binary64 floats. The fitted [IsolationForest] is the library's: what
      it answers for a transaction is an argument of [predict], and what
      the detector asks of an amount and of a timestamp are the interfaces
      [AmountRules] and [Datetime].

    The file has six parts: the model, the notions the specification is
    stated with, the facts about the model, the claims of the specification,
    further properties of the code, and runs of the model on the reference
    instances of the libraries. *)

From Stdlib Require Import ZArith NArith String Ascii List Bool Lia DecimalString.
From Stdlib Require Import Strings.Byte.
From stdpp Require Import base option gmap strings list.
From Equations Require Import Equations.
From Equations.Prop Require Import Logic.
From Stdlib Require Import Floats.

Set Warnings "-register-all".
Import ListNotations.

Set Default Proof Using "Type".

(** * Part I: the model *)

(** ** Python builtins used by the source *)

Module Py.

(** [c * n] on strings: the empty string when [n <= 0]. *)
Fixpoint str_repeat (c : string) (n : nat) : string :=
  match n with
  | O => EmptyString
  | S n' => c +:+ str_repeat c n'
  end.

Definition str_mul (c : string) (n : Z) : string :=
  str_repeat c (Z.to_nat n).

(** [s[:n]]: the first [n] characters (all of [s] when it is shorter); a
    negative [n] drops the last [-n] characters. *)
Definition slice_to (s : string) (n : Z) : string :=
  if (0 <=? n)%Z
  then String.substring 0 (Z.to_nat n) s
  else String.substring 0 (String.length s - Z.to_nat (- n)) s.

(** [s.startswith(p)]. *)
Definition startswith (s p : string) : bool := String.prefix p s.

(** [x or y] where [x] is an optional string: [None] and [''] are falsy. *)
Definition str_or (x : option string) (y : string) : string :=
  match x with
  | Some s => if String.eqb s EmptyString then y else s
  | None => y
  end.

(** Equality of two values that are each a [str] or [None]. *)
Definition opt_str_eqb (x y : option string) : bool :=
  match x, y with
  | Some a, Some b => String.eqb a b
  | None, None => true
  | _, _ => false
  end.

(** [bytes.hex()]: two lower-case hexadecimal digits per byte. *)
Definition hex_digit (n : N) : ascii :=
  match n with
  | 0%N => "0" | 1%N => "1" | 2%N => "2" | 3%N => "3"
  | 4%N => "4" | 5%N => "5" | 6%N => "6" | 7%N => "7"
  | 8%N => "8" | 9%N => "9" | 10%N => "a" | 11%N => "b"
  | 12%N => "c" | 13%N => "d" | 14%N => "e" | _ => "f"
  end%char.

Fixpoint hex (bs : list byte) : string :=
  match bs with
  | [] => EmptyString
  | b :: bs' =>
      String (hex_digit (Byte.to_N b / 16))
        (String (hex_digit (Byte.to_N b mod 16)) (hex bs'))
  end.

(** [s.encode()] on the byte strings the model works with. *)
Definition encode (s : string) : list byte := list_byte_of_string s.

(** [str(z)] and [repr(z)] for an [int]. *)
Definition str_of_int (z : Z) : string :=
  NilZero.string_of_int (Z.to_int z).

End Py.

(** ** Library interfaces *)

(** [hashlib.sha3_256(m).digest()]: 32 bytes for every message. *)
Class Hashlib := {
  sha3_256 : list byte -> list byte;
  sha3_256_length : forall m, List.length (sha3_256 m) = 32
}.

(** Python numbers as used for amounts and balances. [num_zero] is the
    literal [0], [num_reward] the literal [10.0]; [num_str] is the [str()]
    used by f-strings. No law is assumed. *)
Class Number (A : Type) := {
  num_zero : A;
  num_reward : A;
  num_add : A -> A -> A;
  num_sub : A -> A -> A;
  num_ltb : A -> A -> bool;
  num_str : A -> string
}.

(** The values handed to [json.dumps]. *)
Inductive json (A : Type) : Type :=
| JNull
| JInt (z : Z)
| JNum (a : A)
| JStr (s : string)
| JList (l : list (json A))
| JDict (kvs : list (string * json A)).

Arguments JNull {A}.
Arguments JInt {A} z.
Arguments JNum {A} a.
Arguments JStr {A} s.
Arguments JList {A} l.
Arguments JDict {A} kvs.

(** [json.dumps(v, sort_keys=True)]. *)
Class JsonCodec (A : Type) := {
  json_dumps : json A -> string
}.

(** ** Data model *)

Record Transaction (A : Type) := mkTransaction {
  sender : string;
  recipient : string;
  amount : A;
  timestamp : string;
  signature : option (list byte);
  nonce : string
}.

Arguments mkTransaction {A}.
Arguments sender {A}.
Arguments recipient {A}.
Arguments amount {A}.
Arguments timestamp {A}.
Arguments signature {A}.
Arguments nonce {A}.

Record Block (A : Type) := mkBlock {
  index : Z;
  transactions : list (Transaction A);
  previous_hash : option string;
  block_timestamp : string;
  block_nonce : Z;
  hash : option string;
  merkle_root : string
}.

Arguments mkBlock {A}.
Arguments index {A}.
Arguments transactions {A}.
Arguments previous_hash {A}.
Arguments block_timestamp {A}.
Arguments block_nonce {A}.
Arguments hash {A}.
Arguments merkle_root {A}.

(** [PQCKeyPair]: the two random byte strings and the bookkeeping fields. *)
Record PQCKeyPair := mkKeyPair {
  algorithm : string;
  created_at : string;
  public_key : list byte;
  private_key : list byte;
  is_quantum_safe : bool
}.

(** An entry of [Blockchain.wallets]. *)
Record Wallet := mkWallet {
  wallet_name : string;
  wallet_keypair : PQCKeyPair;
  wallet_balance : Z
}.

Record Blockchain (A : Type) := mkBlockchain {
  chain : list (Block A);
  pending_transactions : list (Transaction A);
  difficulty : Z;
  mining_reward : A;
  wallets : gmap string Wallet
}.

Arguments mkBlockchain {A}.
Arguments chain {A}.
Arguments pending_transactions {A}.
Arguments difficulty {A}.
Arguments mining_reward {A}.
Arguments wallets {A}.

(** ** How a call ends *)

(** It returns, raises, or is still running when the fuel given to the
    mining loop is used up. *)
Inductive result (T : Type) : Type :=
| Returned (x : T)
| Raised (e : string)
| OutOfFuel.

Arguments Returned {T} x.
Arguments Raised {T} e.
Arguments OutOfFuel {T}.

(** [sys.maxsize] of a 64-bit interpreter. *)
Definition sys_maxsize : Z := 2 ^ 63 - 1.

(** The memory of the machine: [allocates n] tells whether a [str] of [n]
    characters can be built; the interpreter raises [MemoryError] when it
    cannot. A string as long as a digest can always be built. *)
Class Memory := {
  allocates : Z -> bool;
  allocates_digest : forall n, (n <= 64)%Z -> allocates n = true
}.

(** ['0' * n] as the interpreter evaluates it: the count must fit a
    [Py_ssize_t], and the string must fit the memory. *)
Definition str_zeros `{MM : Memory} (n : Z) : result string :=
  if (sys_maxsize <? n)%Z || (n <? - sys_maxsize - 1)%Z
  then Raised "OverflowError"
  else if allocates n
       then Returned (Py.str_mul "0" n)
       else Raised "MemoryError".

(** ** Transactions, Merkle root, block hash, mining ([block.py]) *)

Section BlockModule.

Context `{HL : Hashlib} `{MM : Memory} {A : Type} `{NA : Number A}
  `{JC : JsonCodec A}.

(** [hashlib.sha3_256(s.encode()).hexdigest()]. *)
Definition hexdigest (s : string) : string :=
  Py.hex (sha3_256 (Py.encode s)).

(** [Transaction.__init__]; [now] is the value of
    [datetime.now().isoformat()] read by the constructor. *)
Definition Transaction_init (sender recipient : string) (amount : A)
    (signature : option (list byte)) (nonce : option string)
    (now : string) : Transaction A :=
  {| sender := sender;
     recipient := recipient;
     amount := amount;
     timestamp := now;
     signature := signature;
     nonce := Py.str_or nonce
                (hexdigest (sender +:+ recipient +:+ num_str amount +:+ now)) |}.

(** The attribute assignment [tx.signature = s]. *)
Definition set_signature (tx : Transaction A) (s : option (list byte))
  : Transaction A :=
  {| sender := sender tx;
     recipient := recipient tx;
     amount := amount tx;
     timestamp := timestamp tx;
     signature := s;
     nonce := nonce tx |}.

(** [Transaction.to_dict]; empty [bytes] are falsy, like [None]. *)
Definition Transaction_to_dict (tx : Transaction A) : json A :=
  JDict [ ("sender", JStr (sender tx));
          ("recipient", JStr (recipient tx));
          ("amount", JNum (amount tx));
          ("timestamp", JStr (timestamp tx));
          ("nonce", JStr (nonce tx));
          ("signature", match signature tx with
                        | Some (b :: bs) => JStr (Py.hex (b :: bs))
                        | Some [] | None => JNull
                        end) ]%string.

(** [Transaction.get_hash]. *)
Definition get_hash (tx : Transaction A) : string :=
  hexdigest (json_dumps (Transaction_to_dict tx)).

(** [count] indices from [start] in steps of two. *)
Fixpoint range_by_two (start count : nat) : list nat :=
  match count with
  | O => []
  | S count' => start :: range_by_two (S (S start)) count'
  end.

(** [range(0, n, 2)]. *)
Definition even_indices (n : nat) : list nat :=
  range_by_two 0 (Nat.div2 (S n)).

(** The body of the [while] loop of [_calculate_merkle_root]: pad an odd
    list with its last element, then hash [tx_hashes[i] + tx_hashes[i+1]]
    for [i] in [range(0, len(tx_hashes), 2)]. *)
Definition merkle_pad (tx_hashes : list string) : list string :=
  if Nat.eqb (Nat.modulo (List.length tx_hashes) 2) 0
  then tx_hashes
  else tx_hashes ++ [List.nth (List.length tx_hashes - 1) tx_hashes EmptyString].

Definition merkle_round (tx_hashes : list string) : list string :=
  let tx_hashes := merkle_pad tx_hashes in
  List.map
    (fun i =>
       let combined :=
         (List.nth i tx_hashes EmptyString
            +:+ List.nth (i + 1) tx_hashes EmptyString)%string in
       hexdigest combined)
    (even_indices (List.length tx_hashes)).

(** Each round of the loop shortens a list of more than one hash, which is
    why the loop ends. *)
Lemma length_range_by_two (start count : nat) :
  List.length (range_by_two start count) = count.
Proof.
  revert start. induction count as [|count IH]; intros start; simpl.
  - reflexivity.
  - now rewrite IH.
Qed.

Lemma length_merkle_pad (l : list string) :
  List.length (merkle_pad l) = List.length l + List.length l mod 2.
Proof.
  unfold merkle_pad.
  destruct (Nat.eqb_spec (List.length l mod 2) 0) as [E|E].
  - lia.
  - rewrite List.length_app. cbn [List.length].
    pose proof (Nat.mod_upper_bound (List.length l) 2 ltac:(lia)). lia.
Qed.

Lemma length_merkle_round (l : list string) :
  List.length (merkle_round l) = Nat.div2 (S (List.length l)).
Proof.
  unfold merkle_round, even_indices.
  rewrite List.length_map, length_range_by_two, length_merkle_pad.
  rewrite !Nat.div2_div.
  pose proof (Nat.div_mod_eq (List.length l) 2) as E.
  pose proof (Nat.mod_upper_bound (List.length l) 2 ltac:(lia)) as B.
  destruct (Nat.eq_dec (List.length l mod 2) 0) as [Z0|Z0].
  - rewrite Z0, Nat.add_0_r.
    replace (S (List.length l)) with (1 + (List.length l / 2) * 2) by lia.
    rewrite Nat.div_add by lia.
    replace (List.length l) with (0 + (List.length l / 2) * 2) at 1 by lia.
    rewrite Nat.div_add by lia. reflexivity.
  - assert (List.length l mod 2 = 1) as O1 by lia. rewrite O1.
    replace (S (List.length l + 1)) with (1 + (List.length l / 2 + 1) * 2) by lia.
    rewrite Nat.div_add by lia.
    replace (S (List.length l)) with (0 + (List.length l / 2 + 1) * 2) by lia.
    rewrite Nat.div_add by lia. reflexivity.
Qed.

Lemma merkle_round_shrinks (l : list string) :
  1 < List.length l -> List.length (merkle_round l) < List.length l.
Proof.
  intros Hl. rewrite length_merkle_round, Nat.div2_div.
  apply Nat.Div0.div_lt_upper_bound. lia.
Qed.

(** The [while len(tx_hashes) > 1] loop. *)
Equations? merkle_loop (tx_hashes : list string) : list string
  by wf (List.length tx_hashes) lt :=
  merkle_loop tx_hashes with inspect (1 <? List.length tx_hashes)%nat := {
    | exist _ true more => merkle_loop (merkle_round tx_hashes)
    | exist _ false _ => tx_hashes }.
Proof.
  apply merkle_round_shrinks. now apply Nat.ltb_lt.
Qed.

(** [Block._calculate_merkle_root], as a function of [self.transactions]. *)
Definition _calculate_merkle_root (transactions : list (Transaction A)) : string :=
  match transactions with
  | [] => Py.hex (sha3_256 [])
  | _ :: _ =>
      let tx_hashes := List.map get_hash transactions in
      List.nth 0 (merkle_loop tx_hashes) EmptyString
  end.

(** [Block.__init__]; [now] is the clock value the constructor falls back
    to when no (or an empty) [timestamp] is passed. *)
Definition Block_init (index : Z) (transactions : list (Transaction A))
    (previous_hash : option string) (timestamp : option string)
    (now : string) : Block A :=
  {| index := index;
     transactions := transactions;
     previous_hash := previous_hash;
     block_timestamp := Py.str_or timestamp now;
     block_nonce := 0;
     hash := None;
     merkle_root := _calculate_merkle_root transactions |}.

(** Attribute assignments [self.hash = h] and [self.nonce = n]. *)
Definition set_hash (b : Block A) (h : option string) : Block A :=
  {| index := index b;
     transactions := transactions b;
     previous_hash := previous_hash b;
     block_timestamp := block_timestamp b;
     block_nonce := block_nonce b;
     hash := h;
     merkle_root := merkle_root b |}.

Definition set_nonce (b : Block A) (n : Z) : Block A :=
  {| index := index b;
     transactions := transactions b;
     previous_hash := previous_hash b;
     block_timestamp := block_timestamp b;
     block_nonce := n;
     hash := hash b;
     merkle_root := merkle_root b |}.

(** The dictionary serialised by [Block.calculate_hash]. *)
Definition block_data (b : Block A) : json A :=
  JDict [ ("index", JInt (index b));
          ("timestamp", JStr (block_timestamp b));
          ("transactions", JList (List.map Transaction_to_dict (transactions b)));
          ("previous_hash", match previous_hash b with
                            | Some h => JStr h
                            | None => JNull
                            end);
          ("merkle_root", JStr (merkle_root b));
          ("nonce", JInt (block_nonce b)) ]%string.

(** [Block.calculate_hash]. *)
Definition calculate_hash (b : Block A) : string :=
  hexdigest (json_dumps (block_data b)).

(** The proof-of-work test [self.hash[:difficulty] == target]. *)
Definition meets_target (difficulty : Z) (h : string) : bool :=
  String.eqb (Py.slice_to h difficulty) (Py.str_mul "0" difficulty).

(** The [while True] loop of [Block.mine_block], entered with [target]
    built: each unit of fuel pays for one iteration; [None] means the loop
    has not exited yet. *)
Fixpoint mine_loop (fuel : nat) (difficulty : Z) (target : string) (b : Block A)
  : option (Block A) :=
  match fuel with
  | O => None
  | S fuel' =>
      let h := calculate_hash b in
      let b := set_hash b (Some h) in
      if String.eqb (Py.slice_to h difficulty) target
      then Some b
      else mine_loop fuel' difficulty target (set_nonce b (block_nonce b + 1))
  end.

(** [Block.mine_block]: [target = '0' * difficulty] is built before the
    loop is entered, so the method raises, with the block untouched, when
    the target cannot be built; [OutOfFuel] means the loop has not exited
    yet. *)
Definition mine_block (fuel : nat) (difficulty : Z) (b : Block A)
  : result (Block A) :=
  match str_zeros difficulty with
  | Returned target =>
      match mine_loop fuel difficulty target b with
      | Some b => Returned b
      | None => OutOfFuel
      end
  | Raised e => Raised e
  | OutOfFuel => OutOfFuel
  end.

End BlockModule.

(** ** The chain and its pending pool ([blockchain.py]) *)

(** The calls a client can make on a [Blockchain], each with the values it
    reads from its environment: the clock, and the random key bytes of
    [PQCKeyPair]. *)
Inductive call (A : Type) : Type :=
| CreateWallet (name : string) (public_key private_key : list byte) (now : string)
| AddTransaction (sender recipient : string) (amount : A) (now : string)
| MinePending (miner_address : string) (now_block now_reward : string).

Arguments CreateWallet {A}.
Arguments AddTransaction {A}.
Arguments MinePending {A}.

Section BlockchainModule.

Context `{HL : Hashlib} `{MM : Memory} {A : Type} `{NA : Number A}
  `{JC : JsonCodec A}.

(** [PQCSignature.sign] of [pqc_crypto.py]. *)
Definition PQCSignature_sign (message : string) (keypair : PQCKeyPair)
  : list byte :=
  sha3_256 (Py.encode message ++ private_key keypair).

(** [PQCKeyPair.get_address]. *)
Definition get_address (keypair : PQCKeyPair) : string :=
  Py.slice_to (Py.hex (sha3_256 (public_key keypair))) 40.

(** [Blockchain._create_genesis_block], run on the attributes set so far. *)
Definition _create_genesis_block (fuel : nat) (bc : Blockchain A)
    (now : string) : result (Blockchain A) :=
  let genesis_tx :=
    Transaction_init "System" "Genesis" num_zero None (Some "genesis"%string) now in
  let genesis_block :=
    Block_init 0 [genesis_tx] (Some (Py.str_mul "0" 64))
      (Some "2025-01-01T00:00:00"%string) now in
  match mine_block fuel (difficulty bc) genesis_block with
  | Returned genesis_block =>
      Returned {| chain := chain bc ++ [genesis_block];
                  pending_transactions := pending_transactions bc;
                  difficulty := difficulty bc;
                  mining_reward := mining_reward bc;
                  wallets := wallets bc |}
  | Raised e => Raised e
  | OutOfFuel => OutOfFuel
  end.

(** [Blockchain.__init__]. *)
Definition Blockchain_init (fuel : nat) (difficulty : Z) (now : string)
  : result (Blockchain A) :=
  _create_genesis_block fuel
    {| chain := [];
       pending_transactions := [];
       difficulty := difficulty;
       mining_reward := num_reward;
       wallets := ∅ |}
    now.

(** [Blockchain.get_latest_block]: [self.chain[-1]]. *)
Definition get_latest_block (bc : Blockchain A) : option (Block A) :=
  last (chain bc).

(** [Blockchain.create_wallet]. *)
Definition create_wallet (bc : Blockchain A) (name : string)
    (public_key private_key : list byte) (now : string)
  : Blockchain A * string :=
  let keypair :=
    {| algorithm := "Dilithium2";
       created_at := now;
       public_key := public_key;
       private_key := private_key;
       is_quantum_safe := false |} in
  let address := get_address keypair in
  ({| chain := chain bc;
      pending_transactions := pending_transactions bc;
      difficulty := difficulty bc;
      mining_reward := mining_reward bc;
      wallets := <[address := {| wallet_name := name;
                                 wallet_keypair := keypair;
                                 wallet_balance := 0 |}]> (wallets bc) |},
   address).

(** One step of the two loops of [get_balance]. *)
Definition balance_step (address : string) (balance : A) (tx : Transaction A) : A :=
  let balance :=
    if String.eqb (recipient tx) address
    then num_add balance (amount tx) else balance in
  if String.eqb (sender tx) address
  then num_sub balance (amount tx) else balance.

(** [Blockchain.get_balance]. *)
Definition get_balance (bc : Blockchain A) (address : string) : A :=
  let balance := num_zero in
  let balance :=
    List.fold_left
      (fun balance block =>
         List.fold_left (balance_step address) (transactions block) balance)
      (chain bc) balance in
  List.fold_left (balance_step address) (pending_transactions bc) balance.

(** [Blockchain.add_transaction]. *)
Definition add_transaction (bc : Blockchain A) (sender recipient : string)
    (amount : A) (now : string) : Blockchain A * bool :=
  if negb (String.eqb sender "System")
     && num_ltb (get_balance bc sender) amount
  then (bc, false)
  else
    let transaction := Transaction_init sender recipient amount None None now in
    let transaction :=
      match wallets bc !! sender with
      | Some w =>
          let keypair := wallet_keypair w in
          let message := (sender +:+ recipient +:+ num_str amount)%string in
          let signature := PQCSignature_sign message keypair in
          set_signature transaction (Some signature)
      | None => transaction
      end in
    ({| chain := chain bc;
        pending_transactions := pending_transactions bc ++ [transaction];
        difficulty := difficulty bc;
        mining_reward := mining_reward bc;
        wallets := wallets bc |},
     true).

(** [Blockchain.mine_pending_transactions]: [Returned (bc', None)] is the
    early [return None]; an empty chain makes [get_latest_block] raise; an
    exception of [mine_block] ends the call with the ledger as it was. *)
Definition mine_pending_transactions (fuel : nat) (bc : Blockchain A)
    (miner_address : string) (now_block now_reward : string)
  : result (Blockchain A * option (Block A)) :=
  match pending_transactions bc with
  | [] => Returned (bc, None)
  | _ :: _ =>
      match get_latest_block bc with
      | None => Raised "IndexError"
      | Some latest =>
          let block :=
            Block_init (Z.of_nat (List.length (chain bc)))
              (pending_transactions bc) (hash latest) None now_block in
          match mine_block fuel (difficulty bc) block with
          | Returned block =>
              Returned
                ({| chain := chain bc ++ [block];
                    pending_transactions :=
                      [Transaction_init "System" miner_address (mining_reward bc)
                         None (Some "reward"%string) now_reward];
                    difficulty := difficulty bc;
                    mining_reward := mining_reward bc;
                    wallets := wallets bc |},
                 Some block)
          | Raised e => Raised e
          | OutOfFuel => OutOfFuel
          end
      end
  end.

(** The three checks of [is_chain_valid] on one adjacent pair. *)
Definition hash_is_valid (current_block : Block A) : bool :=
  Py.opt_str_eqb (hash current_block) (Some (calculate_hash current_block)).

Definition previous_hash_matches (current_block previous_block : Block A) : bool :=
  Py.opt_str_eqb (previous_hash current_block) (hash previous_block).

Definition meets_difficulty (difficulty : Z) (current_block : Block A) : bool :=
  match hash current_block with
  | Some h => Py.startswith h (Py.str_mul "0" difficulty)
  | None => false
  end.

(** The [for i in range(1, len(self.chain))] loop with its early returns.
    A failed index would be an [IndexError]; the indices of the range are
    always in bounds. The [None] case of [meets_difficulty] is never
    reached, because [hash_is_valid] fails first. The prefix
    ['0' * self.difficulty] of the third check is taken as built, whatever
    the difficulty; with a difficulty for which the interpreter cannot
    build it, the source raises at the first block that reaches the third
    check. No ledger made by [Blockchain.__init__] has such a difficulty:
    its genesis block was mined with the same target. *)
Fixpoint is_chain_valid_loop (difficulty : Z) (chain : list (Block A))
    (indices : list nat) : bool :=
  match indices with
  | [] => true
  | i :: rest =>
      match chain !! i, chain !! (i - 1) with
      | Some current_block, Some previous_block =>
          if negb (hash_is_valid current_block) then false
          else if negb (previous_hash_matches current_block previous_block) then false
          else if negb (meets_difficulty difficulty current_block) then false
          else is_chain_valid_loop difficulty chain rest
      | _, _ => false
      end
  end.

(** [Blockchain.is_chain_valid]. *)
Definition is_chain_valid (bc : Blockchain A) : bool :=
  is_chain_valid_loop (difficulty bc) (chain bc)
    (List.seq 1 (List.length (chain bc) - 1)).

(** A client call and a sequence of them. *)
Definition do_call (fuel : nat) (bc : Blockchain A) (c : call A)
  : result (Blockchain A) :=
  match c with
  | CreateWallet name pub priv now =>
      Returned (fst (create_wallet bc name pub priv now))
  | AddTransaction sender recipient amount now =>
      Returned (fst (add_transaction bc sender recipient amount now))
  | MinePending miner now_block now_reward =>
      match mine_pending_transactions fuel bc miner now_block now_reward with
      | Returned (bc', _) => Returned bc'
      | Raised e => Raised e
      | OutOfFuel => OutOfFuel
      end
  end.

Fixpoint do_calls (fuel : nat) (bc : Blockchain A) (calls : list (call A))
  : result (Blockchain A) :=
  match calls with
  | [] => Returned bc
  | c :: calls' =>
      match do_call fuel bc c with
      | Returned bc' => do_calls fuel bc' calls'
      | Raised e => Raised e
      | OutOfFuel => OutOfFuel
      end
  end.

End BlockchainModule.

(** ** Interference from outside the methods

    What a caller can do to the objects behind the back of the methods:
    overwrite the amount of a transaction that sits in a mined block. *)

Section Interference.

Context `{HL : Hashlib} `{MM : Memory} {A : Type} `{NA : Number A}
  `{JC : JsonCodec A}.

(** The attribute assignment [tx.amount = a]. *)
Definition set_amount (tx : Transaction A) (a : A) : Transaction A :=
  {| sender := sender tx;
     recipient := recipient tx;
     amount := a;
     timestamp := timestamp tx;
     signature := signature tx;
     nonce := nonce tx |}.

(** The block after one of its transactions was changed in place: the
    Merkle root, the nonce and the stored hash stay as they were. *)
Definition set_transactions (b : Block A) (txs : list (Transaction A)) : Block A :=
  {| index := index b;
     transactions := txs;
     previous_hash := previous_hash b;
     block_timestamp := block_timestamp b;
     block_nonce := block_nonce b;
     hash := hash b;
     merkle_root := merkle_root b |}.


(** Attribute assignment [bc.chain = c], made by no method. *)
Definition set_chain (bc : Blockchain A) (c : list (Block A)) : Blockchain A :=
  {| chain := c;
     pending_transactions := pending_transactions bc;
     difficulty := difficulty bc;
     mining_reward := mining_reward bc;
     wallets := wallets bc |}.

(** [bc.chain[i].transactions[j].amount = a], done behind the back of the
    methods; an index out of range raises ([None]). *)
Definition tamper_amount (bc : Blockchain A) (i j : nat) (a : A)
  : option (Blockchain A) :=
  match chain bc !! i with
  | Some block =>
      match transactions block !! j with
      | Some tx =>
          let block' :=
            set_transactions block (<[j := set_amount tx a]> (transactions block)) in
          Some (set_chain bc (<[i := block']> (chain bc)))
      | None => None
      end
  | None => None
  end.

End Interference.

(** ** The rest of [pqc_crypto.py] and [blockchain.py] *)

(** The dictionary returned by [Blockchain.get_chain_info]. *)
Record ChainInfo := mkChainInfo {
  info_blocks : nat;
  info_total_transactions : nat;
  info_pending_transactions : nat;
  info_difficulty : Z;
  info_latest_hash : option string;
  info_is_valid : bool
}.

(** [a == b] on [bytes]. *)
Fixpoint bytes_eqb (a b : list byte) : bool :=
  match a, b with
  | [], [] => true
  | x :: a', y :: b' => Byte.eqb x y && bytes_eqb a' b'
  | _, _ => false
  end.

Section MoreOfTheCode.

Context `{HL : Hashlib} `{MM : Memory} {A : Type} `{NA : Number A}
  `{JC : JsonCodec A}.

(** [PQCSignature.verify]. *)
Definition PQCSignature_verify (message : string) (signature : list byte)
    (public_key : list byte) : bool :=
  bytes_eqb (sha3_256 (Py.encode message ++ public_key)) signature.

(** [QuantumRNG.generate_nonce]; the argument is the result of
    [generate_random_bytes(16)]. *)
Definition generate_nonce (random_bytes : list byte) : string :=
  Py.hex (sha3_256 random_bytes).

(** [Blockchain.get_chain_info]; [get_latest_block] raises on an empty
    chain, before [is_chain_valid] is called. *)
Definition get_chain_info (bc : Blockchain A) : result ChainInfo :=
  let total_transactions :=
    List.fold_left Nat.add
      (List.map (fun block => List.length (transactions block)) (chain bc)) 0 in
  match get_latest_block bc with
  | None => Raised "IndexError"
  | Some latest =>
      Returned
        {| info_blocks := List.length (chain bc);
           info_total_transactions := total_transactions;
           info_pending_transactions := List.length (pending_transactions bc);
           info_difficulty := difficulty bc;
           info_latest_hash := hash latest;
           info_is_valid := is_chain_valid bc |}
  end.

(** [bc.chain[i].hash = h], done behind the back of the methods; an index
    out of range raises ([None]). *)
Definition tamper_hash (bc : Blockchain A) (i : nat) (h : option string)
  : option (Blockchain A) :=
  match chain bc !! i with
  | Some block => Some (set_chain bc (<[i := set_hash block h]> (chain bc)))
  | None => None
  end.

(** [del bc.chain[n:]], done behind the back of the methods: the chain cut
    down to its first [n] blocks. *)
Definition truncate_chain (bc : Blockchain A) (n : nat) : Blockchain A :=
  set_chain bc (List.firstn n (chain bc)).

End MoreOfTheCode.

(** ** [ai_security/anomaly_detector.py] *)

Set Warnings "-inexact-float".

Module PyStr.

(** [len(s)] of a [str] held as its UTF-8 bytes: the bytes that start a
    code point. *)
Definition len (s : string) : nat :=
  List.length
    (List.filter (fun b => negb (N.land (Byte.to_N b) 192 =? 128)%N)
       (list_byte_of_string s)).

(** [sep.join(parts)]. *)
Fixpoint join (sep : string) (parts : list string) : string :=
  match parts with
  | [] => EmptyString
  | [part] => part
  | part :: rest => part +:+ sep +:+ join sep rest
  end.

End PyStr.

(** What the detector asks of an amount: [float(amount)], where [None] is
    the [OverflowError] of an [int] beyond the range of a float, and the
    three tests of the rules. *)
Class AmountRules (A : Type) := {
  amount_float : A -> option float;
  amount_gt_10000 : A -> bool;
  amount_mod_100_is_0 : A -> bool;
  amount_lt_0_01 : A -> bool
}.

(** [datetime.fromisoformat(s)], read for [.hour] and [.weekday()]; [None]
    is any exception. *)
Class Datetime := {
  fromisoformat : string -> option (Z * Z)
}.

(** The feature vector
    [[amount, hour, day_of_week, len(sender), len(recipient)]]. *)
Record Features := mkFeatures {
  feature_amount : float;
  feature_hour : Z;
  feature_day_of_week : Z;
  feature_sender_length : nat;
  feature_recipient_length : nat
}.

(** The [IsolationForest] object, known by what it was given: the
    contamination it was constructed with ([random_state] and
    [n_estimators] are constants) and the data passed to [fit]. *)
Record IsolationForest := mkIsolationForest {
  forest_contamination : float;
  forest_fitted_on : option (list Features)
}.

(** What the libraries answer for the transaction at hand, when asked:
    [model.predict(X)[0]], [model.score_samples(X)[0]] and [np.exp(score)]. *)
Record ModelAnswers := mkModelAnswers {
  answer_predict : Z;
  answer_score_samples : float;
  answer_exp : float
}.

(** An entry of [transaction_history]. *)
Record HistoryEntry (A : Type) := mkHistoryEntry {
  entry_transaction : Transaction A;
  entry_is_anomaly : bool;
  entry_confidence : float;
  entry_timestamp : string
}.

Arguments mkHistoryEntry {A}.
Arguments entry_transaction {A}.
Arguments entry_is_anomaly {A}.
Arguments entry_confidence {A}.
Arguments entry_timestamp {A}.

(** The attributes of an [AnomalyDetector]. *)
Record AnomalyDetector (A : Type) := mkAnomalyDetector {
  model : IsolationForest;
  is_trained : bool;
  sensitivity : float;
  transaction_history : list (HistoryEntry A);
  anomaly_scores : list float
}.

Arguments mkAnomalyDetector {A}.
Arguments model {A}.
Arguments is_trained {A}.
Arguments sensitivity {A}.
Arguments transaction_history {A}.
Arguments anomaly_scores {A}.

(** The dictionary returned by [get_statistics]; the key
    ['average_confidence'] is absent when nothing was analysed. *)
Record Statistics := mkStatistics {
  total_analyzed : nat;
  anomalies_detected : nat;
  anomaly_rate : float;
  average_confidence : option float
}.

(** [float(n)] for an [int]: rounded to the nearest float, ties to even. *)
Definition float_of_Z (n : Z) : float :=
  SF2Prim (SpecFloat.binary_normalize prec emax n 0 false).

Section AnomalyDetectorModule.

Context {A : Type} `{AR : AmountRules A} `{DT : Datetime}.

(** [TransactionFeatureExtractor.extract_features]; [None] is the
    exception of [float(transaction.amount)], the only one that is not
    caught. *)
Definition extract_features (transaction : Transaction A) : option Features :=
  match amount_float (amount transaction) with
  | None => None
  | Some amount =>
      let '(hour, day_of_week) :=
        match fromisoformat (timestamp transaction) with
        | Some (hour, day_of_week) => (hour, day_of_week)
        | None => (12, 0)%Z
        end in
      Some {| feature_amount := amount;
              feature_hour := hour;
              feature_day_of_week := day_of_week;
              feature_sender_length := PyStr.len (sender transaction);
              feature_recipient_length := PyStr.len (recipient transaction) |}
  end.

(** The defaults of [AnomalyDetector.__init__]. *)
Definition default_contamination : float := 0.1.
Definition default_sensitivity : float := 0.75.

(** [AnomalyDetector.__init__]. *)
Definition AnomalyDetector_init (contamination sensitivity : float)
  : AnomalyDetector A :=
  {| model := {| forest_contamination := contamination;
                 forest_fitted_on := None |};
     is_trained := false;
     sensitivity := sensitivity;
     transaction_history := [];
     anomaly_scores := [] |}.

(** The loop of [train] that extracts the features of every transaction;
    the first failure ends it. *)
Fixpoint extract_all (transactions : list (Transaction A))
  : option (list Features) :=
  match transactions with
  | [] => Some []
  | tx :: rest =>
      match extract_features tx with
      | None => None
      | Some feature_vector =>
          match extract_all rest with
          | None => None
          | Some features => Some (feature_vector :: features)
          end
      end
  end.

(** [AnomalyDetector.train]; [fit_returns] tells whether the library's
    [fit] returned or raised on the data. *)
Definition train (self : AnomalyDetector A) (transactions : list (Transaction A))
    (fit_returns : bool) : result (AnomalyDetector A * bool) :=
  if (List.length transactions <? 10)%nat
  then Returned (self, false)
  else
    match extract_all transactions with
    | None => Raised "OverflowError"
    | Some features =>
        if fit_returns
        then
          Returned
            ({| model := {| forest_contamination := forest_contamination (model self);
                            forest_fitted_on := Some features |};
                is_trained := true;
                sensitivity := sensitivity self;
                transaction_history := transaction_history self;
                anomaly_scores := anomaly_scores self |},
             true)
        else Raised "ValueError"
    end.

(** The running sum of [_rule_based_detection]. *)
Definition suspicious_score (transaction : Transaction A) : float :=
  let suspicious_score := 0%float in
  let suspicious_score :=
    if amount_gt_10000 (amount transaction)
    then PrimFloat.add suspicious_score 0.4 else suspicious_score in
  let suspicious_score :=
    if amount_mod_100_is_0 (amount transaction)
    then PrimFloat.add suspicious_score 0.1 else suspicious_score in
  let suspicious_score :=
    if amount_lt_0_01 (amount transaction)
    then PrimFloat.add suspicious_score 0.3 else suspicious_score in
  if String.eqb (sender transaction) (recipient transaction)
  then PrimFloat.add suspicious_score 0.5 else suspicious_score.

(** [AnomalyDetector._rule_based_detection]; [min(score, 1.0)] is [1.0]
    only when [1.0 < score]. *)
Definition _rule_based_detection (self : AnomalyDetector A)
    (transaction : Transaction A) : bool * float :=
  let score := suspicious_score transaction in
  let is_anomaly := PrimFloat.ltb (sensitivity self) score in
  (is_anomaly, if PrimFloat.ltb 1 score then 1%float else score).

(** The list [reasons] of [_generate_reason], before the fallback. *)
Definition reasons (transaction : Transaction A) (features : Features)
  : list string :=
  (if amount_gt_10000 (amount transaction)
   then ["Unusually high transaction amount"%string]
   else if amount_lt_0_01 (amount transaction)
        then ["Suspiciously low amount"%string]
        else [])
  ++ (if (feature_hour features <? 6)%Z || (22 <? feature_hour features)%Z
      then ["Transaction at unusual hour"%string] else [])
  ++ (if amount_mod_100_is_0 (amount transaction)
      then ["Round number amount (common in fraud)"%string] else [])
  ++ (if String.eqb (sender transaction) (recipient transaction)
      then ["Self-transfer detected"%string] else []).

(** [AnomalyDetector._generate_reason]. *)
Definition _generate_reason (transaction : Transaction A) (features : Features)
    (confidence : float) : string :=
  let reasons :=
    match reasons transaction features with
    | [] => ["Pattern differs from normal behavior"%string]
    | found => found
    end in
  PyStr.join " | " reasons.

(** [AnomalyDetector.predict]; [now] is the clock reading stored with the
    history entry. *)
Definition predict (self : AnomalyDetector A) (transaction : Transaction A)
    (answers : ModelAnswers) (now : string)
  : result (AnomalyDetector A * (bool * float * string)) :=
  match extract_features transaction with
  | None => Raised "OverflowError"
  | Some features =>
      let '(is_anomaly, confidence) :=
        if is_trained self
        then
          let prediction := answer_predict answers in
          let confidence :=
            PrimFloat.div 1 (PrimFloat.add 1 (answer_exp answers)) in
          ((prediction =? -1)%Z, confidence)
        else _rule_based_detection self transaction in
      let reason := _generate_reason transaction features confidence in
      Returned
        ({| model := model self;
            is_trained := is_trained self;
            sensitivity := sensitivity self;
            transaction_history :=
              transaction_history self
              ++ [ {| entry_transaction := transaction;
                      entry_is_anomaly := is_anomaly;
                      entry_confidence := confidence;
                      entry_timestamp := now |} ];
            anomaly_scores := anomaly_scores self |},
         (is_anomaly, confidence, reason))
  end.

(** [AnomalyDetector.get_statistics]; [np_mean] is the library's mean of
    the stored confidences. The quotient of the two counts is the float
    division of their conversions, as it is for counts below 2^53. *)
Definition get_statistics (self : AnomalyDetector A) (np_mean : float)
  : Statistics :=
  match transaction_history self with
  | [] =>
      {| total_analyzed := 0;
         anomalies_detected := 0;
         anomaly_rate := 0%float;
         average_confidence := None |}
  | _ :: _ =>
      let total := List.length (transaction_history self) in
      let anomalies :=
        List.length (List.filter entry_is_anomaly (transaction_history self)) in
      {| total_analyzed := total;
         anomalies_detected := anomalies;
         anomaly_rate :=
           if (0 <? total)%nat
           then PrimFloat.div (float_of_Z (Z.of_nat anomalies))
                  (float_of_Z (Z.of_nat total))
           else 0%float;
         average_confidence := Some np_mean |}
  end.

(** A sequence of [predict] calls, each with its clock reading and the
    libraries' answers; the results are collected in order. *)
Fixpoint predict_all (self : AnomalyDetector A)
    (calls : list (Transaction A * ModelAnswers * string))
  : result (AnomalyDetector A * list (bool * float * string)) :=
  match calls with
  | [] => Returned (self, [])
  | (transaction, answers, now) :: rest =>
      match predict self transaction answers now with
      | Returned (self', outcome) =>
          match predict_all self' rest with
          | Returned (self'', outcomes) => Returned (self'', outcome :: outcomes)
          | Raised e => Raised e
          | OutOfFuel => OutOfFuel
          end
      | Raised e => Raised e
      | OutOfFuel => OutOfFuel
      end
  end.

End AnomalyDetectorModule.

(** ** Reference instances of the library interfaces

    SHA3-256 (FIPS 202: Keccak-f[1600], rate 136 bytes, domain byte 0x06),
    Python numbers restricted to integers and integral floats, and
    [json.dumps] with sorted keys. They make the model executable on
    concrete inputs. *)

Module Keccak.
Local Open Scope N_scope.

(** The state is a list of 25 lanes of 64 bits, lane [(x, y)] at position
    [x + 5 y]. *)
Definition lane_mask : N := 0xFFFFFFFFFFFFFFFF.

(** Rotation of a lane to the left. *)
Definition rotl (a : N) (n : N) : N :=
  N.land (N.lor (N.shiftl a n) (N.shiftr a (64 - n))) lane_mask.

Definition lane (st : list N) (x y : nat) : N :=
  List.nth (x mod 5 + 5 * (y mod 5))%nat st 0.

Definition coords : list (nat * nat) :=
  List.flat_map (fun y => List.map (fun x => (x, y)) (List.seq 0 5)) (List.seq 0 5).

Definition rotation_offsets : list N :=
  [  0;  1; 62; 28; 27;
    36; 44;  6; 55; 20;
     3; 10; 43; 25; 39;
    41; 45; 15; 21;  8;
    18;  2; 61; 56; 14 ].

Definition round_constants : list N :=
  [ 0x0000000000000001; 0x0000000000008082; 0x800000000000808A;
    0x8000000080008000; 0x000000000000808B; 0x0000000080000001;
    0x8000000080008081; 0x8000000000008009; 0x000000000000008A;
    0x0000000000000088; 0x0000000080008009; 0x000000008000000A;
    0x000000008000808B; 0x800000000000008B; 0x8000000000008089;
    0x8000000000008003; 0x8000000000008002; 0x8000000000000080;
    0x000000000000800A; 0x800000008000000A; 0x8000000080008081;
    0x8000000000008080; 0x0000000080000001; 0x8000000080008008 ].

(** The five step mappings of a round. *)
Definition theta (st : list N) : list N :=
  let C := fun x =>
    N.lxor (lane st x 0) (N.lxor (lane st x 1) (N.lxor (lane st x 2)
      (N.lxor (lane st x 3) (lane st x 4)))) in
  let Cs := List.map C (List.seq 0 5) in
  let c := fun x => List.nth (x mod 5)%nat Cs 0 in
  let D := fun x => N.lxor (c (x + 4)%nat) (rotl (c (x + 1)%nat) 1) in
  let Ds := List.map D (List.seq 0 5) in
  List.map (fun '(x, y) => N.lxor (lane st x y) (List.nth x Ds 0)) coords.

(** Lane [(X, Y)] of the result is lane [(x, X)] of the input, rotated,
    where [x = X + 3 Y mod 5]. *)
Definition rho_pi (st : list N) : list N :=
  List.map
    (fun '(X, Y) =>
       let x := ((X + 3 * Y) mod 5)%nat in
       rotl (lane st x X) (List.nth (x + 5 * X)%nat rotation_offsets 0))
    coords.

Definition chi (st : list N) : list N :=
  List.map
    (fun '(x, y) =>
       N.lxor (lane st x y)
         (N.ldiff (lane st (x + 2) y) (lane st (x + 1) y)))
    coords.

Definition iota (rc : N) (st : list N) : list N :=
  match st with
  | a :: rest => N.lxor a rc :: rest
  | [] => []
  end.

Definition round (st : list N) (rc : N) : list N :=
  iota rc (chi (rho_pi (theta st))).

(** The permutation Keccak-f[1600]: 24 rounds. *)
Definition keccak_f (st : list N) : list N :=
  List.fold_left round round_constants st.

(** The rate of SHA3-256, in bytes. *)
Definition rate : nat := 136.

(** The padding [pad10*1] preceded by the SHA-3 domain bits, for a
    message of [len] bytes. *)
Definition pad (len : nat) : list N :=
  let q := (rate - len mod rate)%nat in
  match q with
  | 1%nat => [0x86]
  | _ => 0x06 :: List.repeat 0 (q - 2) ++ [0x80]
  end.

(** Eight bytes as a little-endian lane, and a block as its lanes. *)
Fixpoint le_lane (bs : list N) : N :=
  match bs with
  | [] => 0
  | b :: bs' => b + 256 * le_lane bs'
  end.

Fixpoint lanes_of (n : nat) (bs : list N) : list N :=
  match n with
  | O => []
  | S n' => le_lane (List.firstn 8 bs) :: lanes_of n' (List.skipn 8 bs)
  end.

Fixpoint xor_lanes (st blk : list N) : list N :=
  match st, blk with
  | a :: st', b :: blk' => N.lxor a b :: xor_lanes st' blk'
  | _, [] => st
  | [], _ => []
  end.

(** Absorbing the padded message, one block of [rate] bytes at a time. *)
Fixpoint absorb (blocks : nat) (data : list N) (st : list N) : list N :=
  match blocks with
  | O => st
  | S blocks' =>
      absorb blocks' (List.skipn rate data)
        (keccak_f (xor_lanes st (lanes_of 17 (List.firstn rate data))))
  end.

Definition byte_of_N (n : N) : byte :=
  match Byte.of_N n with
  | Some b => b
  | None => x00
  end.

Definition state_byte (st : list N) (i : nat) : byte :=
  byte_of_N (N.land (N.shiftr (List.nth (i / 8)%nat st 0) (8 * N.of_nat (i mod 8))) 0xFF).

(** The digest: the first 32 bytes of the state after absorbing. *)
Definition sha3_256 (m : list byte) : list byte :=
  let data := List.map Byte.to_N m ++ pad (List.length m) in
  let st := absorb (List.length data / rate) data (List.repeat 0 25) in
  List.map (state_byte st) (List.seq 0 32).
End Keccak.

Module PyNum.

(** A Python [int], or a [float] whose value is the integer [z] (printed
    [z.0]). Float arithmetic is exact on such values below [2^53], and
    their [repr] is the integer followed by [.0] below [10^16]; the
    instance is meant for runs within these bounds. *)
Inductive t : Type :=
| Int (z : Z)
| Float (z : Z).

Definition value (x : t) : Z :=
  match x with
  | Int z => z
  | Float z => z
  end.

(** [x + y] and [x - y]: an [int] only when both operands are. *)
Definition add (x y : t) : t :=
  match x, y with
  | Int a, Int b => Int (a + b)
  | _, _ => Float (value x + value y)
  end.

Definition sub (x y : t) : t :=
  match x, y with
  | Int a, Int b => Int (a - b)
  | _, _ => Float (value x - value y)
  end.

Definition ltb (x y : t) : bool := (value x <? value y)%Z.

(** [str(x)], which is also what [json.dumps] writes. *)
Definition str (x : t) : string :=
  match x with
  | Int z => Py.str_of_int z
  | Float z => Py.str_of_int z +:+ ".0"
  end.

End PyNum.

Module PyJson.

Definition quote : ascii := "034"%char.
Definition backslash : ascii := "092"%char.

Definition hex_nibble (n : nat) : ascii :=
  List.nth n (list_ascii_of_string "0123456789abcdef") "0"%char.

(** One character of a string literal, as [json.dumps] writes it with
    [ensure_ascii=True]. *)
Definition escape_char (c : ascii) : string :=
  let n := nat_of_ascii c in
  if Ascii.eqb c quote then String backslash (String quote EmptyString)
  else if Ascii.eqb c backslash then String backslash (String backslash EmptyString)
  else if Nat.eqb n 8 then String backslash "b"
  else if Nat.eqb n 12 then String backslash "f"
  else if Nat.eqb n 10 then String backslash "n"
  else if Nat.eqb n 13 then String backslash "r"
  else if Nat.eqb n 9 then String backslash "t"
  else if (n <? 32)%nat || Nat.eqb n 127
  then String backslash
         ("u00" +:+ String (hex_nibble (n / 16)) (String (hex_nibble (n mod 16)) EmptyString))
  else String c EmptyString.

Fixpoint escape (s : string) : string :=
  match s with
  | EmptyString => EmptyString
  | String c s' => escape_char c +:+ escape s'
  end.

Definition str_literal (s : string) : string :=
  String quote (escape s +:+ String quote EmptyString).

Fixpoint join (sep : string) (parts : list string) : string :=
  match parts with
  | [] => EmptyString
  | [p] => p
  | p :: parts' => p +:+ sep +:+ join sep parts'
  end.

(** [sorted(d.items())] on the rendered items, by key. *)
Fixpoint insert_item (kv : string * string) (sorted : list (string * string))
  : list (string * string) :=
  match sorted with
  | [] => [kv]
  | kv' :: rest =>
      if String.leb (fst kv) (fst kv')
      then kv :: sorted
      else kv' :: insert_item kv rest
  end.

Definition sort_items (items : list (string * string)) : list (string * string) :=
  List.fold_right insert_item [] items.

(** [json.dumps(v, sort_keys=True)]: separators [", "] and [": "], keys in
    code-point order, [ensure_ascii] escapes. Text is taken to be ASCII; a
    byte above 127 is written through as it is. *)
Fixpoint dumps (v : json PyNum.t) : string :=
  match v with
  | JNull => "null"
  | JInt z => Py.str_of_int z
  | JNum a => PyNum.str a
  | JStr s => str_literal s
  | JList l => "[" +:+ join ", " (List.map dumps l) +:+ "]"
  | JDict kvs =>
      let items := List.map (fun kv => match kv with (k, v) => (k, dumps v) end) kvs in
      "{" +:+ join ", "
                (List.map (fun kv => str_literal (fst kv) +:+ ": " +:+ snd kv)
                   (sort_items items))
          +:+ "}"
  end.
End PyJson.

(** The digest has 32 bytes whatever the message. *)
Lemma Keccak_sha3_256_length (m : list byte) :
  List.length (Keccak.sha3_256 m) = 32.
Proof.
  unfold Keccak.sha3_256. now rewrite List.length_map, List.length_seq.
Qed.

#[export] Instance reference_hashlib : Hashlib :=
  {| sha3_256 := Keccak.sha3_256;
     sha3_256_length := Keccak_sha3_256_length |}.

(** A machine that builds strings of up to 2^32 characters. *)
Definition reference_allocates (n : Z) : bool := (n <=? 2 ^ 32)%Z.

Lemma reference_allocates_digest (n : Z) :
  (n <= 64)%Z -> reference_allocates n = true.
Proof. intros Hn. apply Z.leb_le. lia. Qed.

#[export] Instance reference_memory : Memory :=
  {| allocates := reference_allocates;
     allocates_digest := reference_allocates_digest |}.

#[export] Instance reference_number : Number PyNum.t :=
  {| num_zero := PyNum.Int 0;
     num_reward := PyNum.Float 10;
     num_add := PyNum.add;
     num_sub := PyNum.sub;
     num_ltb := PyNum.ltb;
     num_str := PyNum.str |}.

#[export] Instance reference_json : JsonCodec PyNum.t :=
  {| json_dumps := PyJson.dumps |}.

(** ** A run of the reference instance

    A ledger at difficulty 1 driven through the scenario of the test block
    of [blockchain.py], with fixed clock readings and key bytes. *)

Definition result_get {T : Type} (fallback : T) (r : result T) : T :=
  match r with
  | Returned x => x
  | Raised _ | OutOfFuel => fallback
  end.

Module Demo.

Definition alice_public_key : list byte := [x01; x02; x03; x04].
Definition alice_private_key : list byte := [x0a; x0b; x0c; x0d].

Definition alice : string :=
  Eval vm_compute in
    get_address
      {| algorithm := "Dilithium2";
         created_at := "2025-06-01T12:00:01";
         public_key := alice_public_key;
         private_key := alice_private_key;
         is_quantum_safe := false |}.

Definition no_ledger : Blockchain PyNum.t :=
  {| chain := [];
     pending_transactions := [];
     difficulty := 1;
     mining_reward := PyNum.Float 10;
     wallets := ∅ |}.

(** The genesis block as constructed, before mining. *)
Definition genesis_candidate : Block PyNum.t :=
  Block_init 0
    [Transaction_init "System" "Genesis" (PyNum.Int 0) None (Some "genesis"%string)
       "2025-06-01T12:00:00.000001"]
    (Some (Py.str_mul "0" 64)) (Some "2025-01-01T00:00:00"%string)
    "2025-06-01T12:00:00.000001".

(** [Blockchain(difficulty=1)]. *)
Definition genesis : Blockchain PyNum.t :=
  Eval vm_compute in
    result_get no_ledger (Blockchain_init 100 1 "2025-06-01T12:00:00.000001").

Definition funding : list (call PyNum.t) :=
  [ CreateWallet "Alice" alice_public_key alice_private_key "2025-06-01T12:00:01";
    AddTransaction "System" alice (PyNum.Int 100) "2025-06-01T12:00:02" ].

Definition payment : list (call PyNum.t) :=
  [ AddTransaction alice "bob" (PyNum.Int 30) "2025-06-01T12:00:05" ].

Definition calls : list (call PyNum.t) :=
  funding
    ++ [MinePending alice "2025-06-01T12:00:03" "2025-06-01T12:00:04"]
    ++ payment
    ++ [MinePending "bob" "2025-06-01T12:00:06" "2025-06-01T12:00:07"].

(** The ledger after [funding], after the first mining call, after
    [payment], and at the end. *)
Definition funded : Blockchain PyNum.t :=
  Eval vm_compute in result_get no_ledger (do_calls 100 genesis funding).

Definition mined_once : Blockchain PyNum.t :=
  Eval vm_compute in
    result_get no_ledger
      (do_calls 100 funded
         [MinePending alice "2025-06-01T12:00:03" "2025-06-01T12:00:04"]).

(** The block mined by that first call. *)
Definition block_1 : Block PyNum.t :=
  Eval vm_compute in default genesis_candidate (chain mined_once !! 1).

Definition paid : Blockchain PyNum.t :=
  Eval vm_compute in result_get no_ledger (do_calls 100 mined_once payment).

Definition final : Blockchain PyNum.t :=
  Eval vm_compute in result_get no_ledger (do_calls 100 genesis calls).

(** The block mined by the second mining call. *)
Definition block_2 : Block PyNum.t :=
  Eval vm_compute in default genesis_candidate (chain final !! 2).

(** [final] with the amount of the genesis transaction, respectively of
    the funding transaction of block 1, overwritten. *)
Definition genesis_tampered : Blockchain PyNum.t :=
  Eval vm_compute in default no_ledger (tamper_amount final 0 0 (PyNum.Int 1000000)).

Definition funding_tampered : Blockchain PyNum.t :=
  Eval vm_compute in default no_ledger (tamper_amount final 1 0 (PyNum.Int 1000000)).

End Demo.

(** ** Values for the further properties *)

Module Intrusion.

(** A second key pair, whose address differs from Alice's. *)
Definition mallory_public_key : list byte := [x05; x06; x07; x08].
Definition mallory_private_key : list byte := [x0e; x0f].

(** The genesis block of the scenario, as mined. *)
Definition genesis_block : Block PyNum.t :=
  Eval vm_compute in default Demo.genesis_candidate (chain Demo.genesis !! 0).

(** A block put together by hand on top of [Demo.final]: a wrong index, an
    unsigned payment of money that ["bob"] does not have, a Merkle root that
    is no root, and the right previous hash. *)
Definition theft : Transaction PyNum.t :=
  {| sender := "bob";
     recipient := "mallory";
     amount := PyNum.Int 1000000;
     timestamp := "1999-12-31T23:59:59";
     signature := None;
     nonce := "none" |}.

Definition forged_candidate : Block PyNum.t :=
  {| index := 99;
     transactions := [theft];
     previous_hash := hash Demo.block_2;
     block_timestamp := "1999-12-31T23:59:59";
     block_nonce := 0;
     hash := None;
     merkle_root := "bogus" |}.

Definition forged : Block PyNum.t :=
  Eval vm_compute in
    result_get forged_candidate (mine_block 200 1 forged_candidate).

(** The funding transaction of block 1, sent by ["System"] and unsigned. *)
Definition funding_transaction : Transaction PyNum.t :=
  Eval vm_compute in default theft (transactions Demo.block_1 !! 0).

(** Alice's wallet entry in [Demo.final]. *)
Definition alice_wallet : Wallet :=
  {| wallet_name := "Alice";
     wallet_keypair :=
       {| algorithm := "Dilithium2";
          created_at := "2025-06-01T12:00:01";
          public_key := Demo.alice_public_key;
          private_key := Demo.alice_private_key;
          is_quantum_safe := false |};
     wallet_balance := 0 |}.

(** [Demo.final] with the stored hash of block 1 overwritten. *)
Definition hash_tampered : Blockchain PyNum.t :=
  Eval vm_compute in
    default Demo.no_ledger (tamper_hash Demo.final 1 (Some "00"%string)).

End Intrusion.

(** ** Reference instances for the detector *)

(** Amounts that are Python [int]s or integral [float]s: below [0.01]
    means at most [0]. *)
#[export] Instance reference_amount_rules : AmountRules PyNum.t :=
  {| amount_float x :=
       match x with
       | PyNum.Int n =>
           if PrimFloat.is_infinity (float_of_Z n) then None
           else Some (float_of_Z n)
       | PyNum.Float n => Some (float_of_Z n)
       end;
     amount_gt_10000 x := (10000 <? PyNum.value x)%Z;
     amount_mod_100_is_0 x := (PyNum.value x mod 100 =? 0)%Z;
     amount_lt_0_01 x := (PyNum.value x <=? 0)%Z |}.

Module IsoFormat.

(** [datetime.fromisoformat] on the strings [datetime.isoformat()]
    produces and their shorter forms,
    [YYYY-MM-DD[*HH[:MM[:SS[.fff[fff]]]]]]; strings with a UTC offset, and
    the further forms that later versions of Python accept, are outside
    this instance. *)
Definition digit (c : ascii) : option Z :=
  let n := N_of_ascii c in
  if ((48 <=? n) && (n <=? 57))%N then Some (Z.of_N n - 48)%Z else None.

Fixpoint number (s : string) (acc : Z) : option Z :=
  match s with
  | EmptyString => Some acc
  | String c s' =>
      match digit c with
      | Some d => number s' (10 * acc + d)
      | None => None
      end
  end.

(** The [len] digits at position [start]. *)
Definition field (s : string) (start len : nat) : option Z :=
  let part := String.substring start len s in
  if (String.length part =? len)%nat then number part 0 else None.

Definition char_is (s : string) (i : nat) (c : ascii) : bool :=
  match String.get i s with
  | Some c' => Ascii.eqb c c'
  | None => false
  end.

Definition is_leap (y : Z) : bool :=
  ((y mod 4 =? 0) && (negb (y mod 100 =? 0) || (y mod 400 =? 0)))%Z.

Definition days_in_month (y m : Z) : Z :=
  if (m =? 2)%Z then (if is_leap y then 29 else 28)
  else if ((m =? 4) || (m =? 6) || (m =? 9) || (m =? 11))%Z then 30 else 31.

(** Days since 1970-01-01, a Thursday. *)
Definition days_from_civil (y m d : Z) : Z :=
  let y := if (m <=? 2)%Z then (y - 1)%Z else y in
  let era := (y / 400)%Z in
  let yoe := (y - era * 400)%Z in
  let doy := ((153 * (if (2 <? m)%Z then m - 3 else m + 9) + 2) / 5 + d - 1)%Z in
  let doe := (yoe * 365 + yoe / 4 - yoe / 100 + doy)%Z in
  (era * 146097 + doe - 719468)%Z.

(** [date.weekday()]: Monday is 0. *)
Definition weekday (y m d : Z) : Z := ((days_from_civil y m d + 3) mod 7)%Z.

Definition date_ok (y m d : Z) : bool :=
  ((1 <=? y) && (1 <=? m) && (m <=? 12) && (1 <=? d) && (d <=? days_in_month y m))%Z.

Definition time_field (s : string) (present : bool) (separator : option (nat * ascii))
    (start : nat) (limit : Z) : option Z :=
  if present
  then
    if match separator with
       | Some (i, c) => char_is s i c
       | None => true
       end
    then match field s start 2 with
         | Some v => if (v <? limit)%Z then Some v else None
         | None => None
         end
    else None
  else Some 0%Z.

Definition parse (s : string) : option (Z * Z) :=
  let n := String.length s in
  if negb (List.existsb (Nat.eqb n) [10; 13; 16; 19; 23; 26]) then None
  else
    match field s 0 4, field s 5 2, field s 8 2 with
    | Some y, Some m, Some d =>
        if char_is s 4 "-" && char_is s 7 "-" && date_ok y m d
        then
          match time_field s (13 <=? n)%nat None 11 24,
                time_field s (16 <=? n)%nat (Some (13, ":"%char)) 14 60,
                time_field s (19 <=? n)%nat (Some (16, ":"%char)) 17 60 with
          | Some hour, Some _, Some _ =>
              if (23 <=? n)%nat
              then
                if char_is s 19 "."
                then match field s 20 (n - 20) with
                     | Some _ => Some (hour, weekday y m d)
                     | None => None
                     end
                else None
              else Some (hour, weekday y m d)
          | _, _, _ => None
          end
        else None
    | _, _, _ => None
    end.

End IsoFormat.

#[export] Instance reference_datetime : Datetime :=
  {| fromisoformat := IsoFormat.parse |}.

Module Watch.

(** The detector of the API, [AnomalyDetector(sensitivity=0.75)]. *)
Definition detector : AnomalyDetector PyNum.t :=
  AnomalyDetector_init default_contamination default_sensitivity.

(** Answers of the libraries, never consulted by an untrained detector. *)
Definition unasked : ModelAnswers :=
  {| answer_predict := 1; answer_score_samples := 0; answer_exp := 1 |}.

Definition transfer (sndr rcpt : string) (amt : PyNum.t) (now : string)
  : Transaction PyNum.t :=
  {| sender := sndr; recipient := rcpt; amount := amt; timestamp := now;
     signature := None; nonce := "n" |}.

(** A large payment to somebody else at night, and a large self-transfer. *)
Definition large_payment : Transaction PyNum.t :=
  transfer "alice" "bob" (PyNum.Int 50000) "2025-06-01T03:15:00.250000".

Definition large_self_transfer : Transaction PyNum.t :=
  transfer "bob" "bob" (PyNum.Int 50000) "2025-06-02T12:00:00".

Definition calls : list (Transaction PyNum.t * ModelAnswers * string) :=
  [ (large_payment, unasked, "2025-06-03T10:00:00");
    (large_self_transfer, unasked, "2025-06-03T10:00:01") ].

(** The detector after the two calls, and what they returned. *)
Definition watched : AnomalyDetector PyNum.t :=
  Eval vm_compute in
    fst (result_get (detector, []) (predict_all detector calls)).

Definition outcomes : list (bool * float * string) :=
  Eval vm_compute in
    snd (result_get (detector, []) (predict_all detector calls)).

End Watch.

(** * Part II: the notions of the specification *)

(** The first [n] characters of [h] are all ['0']. *)
Definition leading_zeros (n : nat) (h : string) : Prop :=
  forall k, k < n -> String.get k h = Some "0"%char.

Section Specification.

Context `{HL : Hashlib} `{MM : Memory} {A : Type} `{NA : Number A}
  `{JC : JsonCodec A}.

(** The hash the block would have with its nonce set to [n]. *)
Definition hash_at (b : Block A) (n : Z) : string :=
  calculate_hash (set_nonce b n).

(** The three checks on block [i]: (a) the stored hash is the recomputed
    one, (b) the previous-hash field is the stored hash of block [i - 1],
    (c) the stored hash starts with [d] characters ['0']. *)
Definition block_checks (d : Z) (chain : list (Block A)) (i : nat) : Prop :=
  exists current previous : Block A,
    chain !! i = Some current /\
    chain !! (i - 1) = Some previous /\
    hash current = Some (calculate_hash current) /\
    previous_hash current = hash previous /\
    exists h, hash current = Some h /\ leading_zeros (Z.to_nat d) h.

(** Every block from index 1 on passes them. *)
Definition chain_checks (d : Z) (chain : list (Block A)) : Prop :=
  forall i, 1 <= i < List.length chain -> block_checks d chain i.

(** The invariant behind chain validity: a non-empty chain whose blocks
    from index 1 on pass the three checks. *)
Definition ledger_ok (bc : Blockchain A) : Prop :=
  chain bc <> [] /\ chain_checks (difficulty bc) (chain bc).

(** Every transaction of the ledger, chain first, then the pool. *)
Definition all_transactions (bc : Blockchain A) : list (Transaction A) :=
  List.concat (List.map transactions (chain bc)) ++ pending_transactions bc.

(** The block [mine_pending_transactions] assembles before mining. *)
Definition assembled_block (bc : Blockchain A) (latest : Block A)
    (now_block : string) : Block A :=
  Block_init (Z.of_nat (List.length (chain bc))) (pending_transactions bc)
    (hash latest) None now_block.

(** The reward transaction it creates after mining. *)
Definition reward_transaction (bc : Blockchain A) (miner_address now_reward : string)
  : Transaction A :=
  Transaction_init "System" miner_address (mining_reward bc) None
    (Some "reward"%string) now_reward.

(** The state [mine_pending_transactions] leaves behind on success. *)
Definition after_mining (bc : Blockchain A) (mined : Block A)
    (reward : Transaction A) : Blockchain A :=
  {| chain := chain bc ++ [mined];
     pending_transactions := [reward];
     difficulty := difficulty bc;
     mining_reward := mining_reward bc;
     wallets := wallets bc |}.

(** The state [add_transaction] leaves behind on success. *)
Definition after_adding (bc : Blockchain A) (tx : Transaction A) : Blockchain A :=
  {| chain := chain bc;
     pending_transactions := pending_transactions bc ++ [tx];
     difficulty := difficulty bc;
     mining_reward := mining_reward bc;
     wallets := wallets bc |}.

(** The serialisation tells two values apart: it gives them the same text
    only if they are equal. *)
Definition dumps_tells_apart (x y : json A) : Prop :=
  json_dumps x = json_dumps y -> x = y.

(** The digest does not collide on two texts. *)
Definition digest_tells_apart (s t : string) : Prop :=
  hexdigest s = hexdigest t -> s = t.

(** *** Balance replay *)

(** The fold of the specification: add the amount when the address is the
    recipient, subtract it when the address is the sender. *)
Definition spec_credit (address : string) (tx : Transaction A) (balance : A) : A :=
  if String.eqb (recipient tx) address then num_add balance (amount tx) else balance.

Definition spec_debit (address : string) (tx : Transaction A) (balance : A) : A :=
  if String.eqb (sender tx) address then num_sub balance (amount tx) else balance.

Fixpoint spec_replay (address : string) (txs : list (Transaction A)) (balance : A) : A :=
  match txs with
  | [] => balance
  | tx :: rest =>
      spec_replay address rest (spec_debit address tx (spec_credit address tx balance))
  end.

Definition spec_getBalance (bc : Blockchain A) (address : string) : A :=
  spec_replay address (all_transactions bc) num_zero.

(** *** Merkle root *)

(** The reduction as the specification words it. "Pair adjacent hashes
    left-to-right; each pair is combined by concatenating their hex string
    forms and hashing the result." *)
Fixpoint spec_combine_pairs (hashes : list string) : list string :=
  match hashes with
  | a :: b :: rest => hexdigest (a +:+ b) :: spec_combine_pairs rest
  | _ => []
  end.

(** "If the count is odd, duplicate the last hash to make it even." *)
Definition spec_duplicate_last (hashes : list string) : list string :=
  if Nat.odd (List.length hashes)
  then hashes ++ [List.last hashes EmptyString]
  else hashes.

(** "While more than one hash remains ... repeat until one hash remains." *)
Inductive spec_reduces : list string -> string -> Prop :=
| spec_reduces_one (root : string) :
    spec_reduces [root] root
| spec_reduces_more (hashes : list string) (root : string) :
    1 < List.length hashes ->
    spec_reduces (spec_combine_pairs (spec_duplicate_last hashes)) root ->
    spec_reduces hashes root.

(** "Empty input -> hash of the empty byte string." *)
Definition spec_computeRoot (hashes : list string) (root : string) : Prop :=
  match hashes with
  | [] => root = Py.hex (sha3_256 [])
  | _ :: _ => spec_reduces hashes root
  end.

End Specification.

(** ** Notions for the further properties *)

(** A lower-case hexadecimal digit, and a string made of them. *)
Definition is_hex_digit (c : ascii) : bool :=
  match String.index 0 (String c EmptyString) "0123456789abcdef" with
  | Some _ => true
  | None => false
  end.

Fixpoint hex_only (s : string) : bool :=
  match s with
  | EmptyString => true
  | String c s' => is_hex_digit c && hex_only s'
  end.

Section MoreNotions.

Context `{HL : Hashlib} `{MM : Memory} {A : Type} `{NA : Number A}
  `{JC : JsonCodec A}.

(** A block as [Block.__init__] and [Block.mine_block] leave it at
    difficulty [d]. *)
Definition block_well_mined (d : Z) (b : Block A) : Prop :=
  hash b = Some (calculate_hash b) /\
  leading_zeros (Z.to_nat d) (calculate_hash b) /\
  merkle_root b = _calculate_merkle_root (transactions b) /\
  (0 <= block_nonce b)%Z.

(** The previous-hash field expected at position [i] of a chain. *)
Definition expected_previous_hash (c : list (Block A)) (i : nat) : option string :=
  match i with
  | O => Some (Py.str_mul "0" 64)
  | S j => c !! j ≫= hash
  end.

(** Every block of the chain, the first one included, sits at its index,
    is well mined, holds at least one transaction and points to the block
    before it. *)
Definition chain_well_formed (d : Z) (c : list (Block A)) : Prop :=
  forall (i : nat) (b : Block A),
    c !! i = Some b ->
    index b = Z.of_nat i /\
    block_well_mined d b /\
    transactions b <> [] /\
    previous_hash b = expected_previous_hash c i.

(** The pool starts with a reward transaction. *)
Definition reward_heads_pool (bc : Blockchain A) : Prop :=
  exists (reward : Transaction A) (rest : list (Transaction A)),
    pending_transactions bc = reward :: rest /\
    sender reward = "System"%string /\
    nonce reward = "reward"%string /\
    amount reward = mining_reward bc.

(** The address takes part in no transaction of the ledger. *)
Definition unused_address (bc : Blockchain A) (address : string) : Prop :=
  forall tx, List.In tx (all_transactions bc) ->
             sender tx <> address /\ recipient tx <> address.

(** What every run keeps true of wallets and signatures: a wallet is filed
    under the address of its key pair, with the stored balance 0 and a key
    pair that is not quantum safe; a signed transaction has a registered
    sender. *)
Definition wallets_and_signatures_ok (bc : Blockchain A) : Prop :=
  (forall a w, wallets bc !! a = Some w ->
               a = get_address (wallet_keypair w) /\
               wallet_balance w = 0%Z /\
               is_quantum_safe (wallet_keypair w) = false) /\
  (forall tx, List.In tx (all_transactions bc) ->
              signature tx <> None -> is_Some (wallets bc !! sender tx)).

End MoreNotions.

(** * Part III: facts about the model *)

(** ** The Python builtins *)

Lemma length_hex (bs : list byte) :
  String.length (Py.hex bs) = 2 * List.length bs.
Proof.
  induction bs as [|b bs IH]; simpl.
  - reflexivity.
  - rewrite IH. lia.
Qed.

Lemma zeros_S (n : nat) :
  Py.str_repeat "0" (S n) = String "0" (Py.str_repeat "0" n).
Proof. reflexivity. Qed.

Lemma length_zeros (n : nat) :
  String.length (Py.str_repeat "0" n) = n.
Proof.
  induction n as [|n IH]; [reflexivity |].
  rewrite zeros_S. simpl. now rewrite IH.
Qed.

Lemma length_substring_le (n : nat) (s : string) :
  String.length (String.substring 0 n s) <= String.length s.
Proof.
  revert s. induction n as [|n IH]; intros [|c s]; simpl; try lia.
  specialize (IH s). lia.
Qed.

Lemma prefix_substring (n : nat) (s : string) :
  String.prefix (String.substring 0 n s) s = true.
Proof.
  revert s.
  induction n as [|n IH]; intros [|c s];
    cbn [String.substring String.prefix]; try reflexivity.
  destruct (ascii_dec c c) as [_|Hc]; [apply IH | congruence].
Qed.

Lemma prefix_zeros_iff (n : nat) (h : string) :
  String.prefix (Py.str_repeat "0" n) h = true <-> leading_zeros n h.
Proof.
  revert h. induction n as [|n IH]; intros h.
  - split; [intros _ k Hk; lia | intros _; destruct h; reflexivity].
  - rewrite zeros_S. destruct h as [|c h]; cbn [String.prefix].
    + split; [discriminate |].
      intros Hz. specialize (Hz 0 ltac:(lia)). discriminate.
    + destruct (ascii_dec "0" c) as [<-|Hc].
      * rewrite IH. split.
        -- intros Hz [|k] Hk; simpl; [reflexivity | apply Hz; lia].
        -- intros Hz k Hk. apply (Hz (S k)). lia.
      * split; [discriminate |].
        intros Hz. specialize (Hz 0 ltac:(lia)). simpl in Hz. congruence.
Qed.

Lemma substring_zeros_iff (n : nat) (h : string) :
  String.substring 0 n h = Py.str_repeat "0" n <-> leading_zeros n h.
Proof.
  revert h. induction n as [|n IH]; intros h.
  - split; [intros _ k Hk; lia | intros _; destruct h; reflexivity].
  - rewrite zeros_S. destruct h as [|c h]; cbn [String.substring].
    + split; [discriminate |].
      intros Hz. specialize (Hz 0 ltac:(lia)). discriminate.
    + split.
      * intros [= -> Hs]. apply IH in Hs.
        intros [|k] Hk; simpl; [reflexivity | apply Hs; lia].
      * intros Hz. pose proof (Hz 0 ltac:(lia)) as H0. simpl in H0.
        injection H0 as ->. f_equal. apply IH.
        intros k Hk. apply (Hz (S k)). lia.
Qed.

Lemma startswith_zeros_iff (d : Z) (h : string) :
  Py.startswith h (Py.str_mul "0" d) = true <-> leading_zeros (Z.to_nat d) h.
Proof. apply prefix_zeros_iff. Qed.

Lemma opt_str_eqb_eq (x y : option string) :
  Py.opt_str_eqb x y = true <-> x = y.
Proof.
  destruct x as [a|], y as [b|]; simpl; try (split; congruence).
  rewrite String.eqb_eq. split; congruence.
Qed.

(** ** Mining ([Block.mine_block]) *)

Section MiningFacts.

Context `{HL : Hashlib} `{MM : Memory} {A : Type} `{NA : Number A}
  `{JC : JsonCodec A}.

Lemma length_hexdigest (s : string) : String.length (hexdigest s) = 64.
Proof. unfold hexdigest. now rewrite length_hex, sha3_256_length. Qed.

Lemma calculate_hash_hash_at (b : Block A) :
  calculate_hash b = hash_at b (block_nonce b).
Proof. reflexivity. Qed.

Lemma meets_target_startswith (d : Z) (h : string) :
  meets_target d h = true -> Py.startswith h (Py.str_mul "0" d) = true.
Proof.
  unfold meets_target, Py.startswith, Py.slice_to.
  rewrite String.eqb_eq. intros <-.
  destruct (0 <=? d)%Z; apply prefix_substring.
Qed.

(** For a non-negative difficulty the proof-of-work test says that the
    first [d] characters of the hash are ['0']. *)
Lemma meets_target_iff (d : Z) (h : string) :
  (0 <= d)%Z -> meets_target d h = true <-> leading_zeros (Z.to_nat d) h.
Proof.
  intros Hd. unfold meets_target, Py.slice_to, Py.str_mul.
  destruct (Z.leb_spec 0 d); [|lia].
  rewrite String.eqb_eq. apply substring_zeros_iff.
Qed.

Lemma meets_target_above_64 (d : Z) (s : string) :
  (64 < d)%Z -> meets_target d (hexdigest s) = false.
Proof.
  intros Hd. unfold meets_target. apply String.eqb_neq. intros E.
  apply (f_equal String.length) in E.
  unfold Py.str_mul, Py.slice_to in E. rewrite length_zeros in E.
  destruct (Z.leb_spec 0 d); [|lia].
  pose proof (length_substring_le (Z.to_nat d) (hexdigest s)) as L.
  rewrite length_hexdigest in L. lia.
Qed.

Lemma meets_target_zero (h : string) : meets_target 0 h = true.
Proof. unfold meets_target. destruct h; reflexivity. Qed.

(** One iteration of the loop, entered with the target of the difficulty. *)
Lemma mine_loop_step (fuel : nat) (d : Z) (b : Block A) :
  mine_loop (S fuel) d (Py.str_mul "0" d) b
  = if meets_target d (calculate_hash b)
    then Some (set_hash b (Some (calculate_hash b)))
    else mine_loop fuel d (Py.str_mul "0" d)
           (set_nonce (set_hash b (Some (calculate_hash b))) (block_nonce b + 1)).
Proof. reflexivity. Qed.

(** What an exit of the loop means: it happened at the first nonce, counted
    from the block's current one, whose hash meets the target. *)
Lemma mine_loop_exit (fuel : nat) (d : Z) (b b' : Block A) :
  mine_loop fuel d (Py.str_mul "0" d) b = Some b' ->
  exists k : nat,
    k < fuel /\
    b' = set_hash (set_nonce b (block_nonce b + Z.of_nat k))
           (Some (hash_at b (block_nonce b + Z.of_nat k))) /\
    meets_target d (hash_at b (block_nonce b + Z.of_nat k)) = true /\
    forall j : nat, j < k ->
      meets_target d (hash_at b (block_nonce b + Z.of_nat j)) = false.
Proof.
  revert b. induction fuel as [|fuel IH]; intros b; [discriminate |].
  rewrite mine_loop_step.
  destruct (meets_target d (calculate_hash b)) eqn:Hm.
  - intros [= <-]. exists 0. rewrite Z.add_0_r.
    repeat split; [lia | exact Hm | intros j Hj; lia].
  - intros Hrec. apply IH in Hrec as (k & Hk & -> & Hmeet & Hfirst).
    cbn [block_nonce set_nonce set_hash] in *.
    exists (S k).
    replace (block_nonce b + Z.of_nat (S k))%Z
      with (block_nonce b + 1 + Z.of_nat k)%Z by lia.
    repeat split; [lia | exact Hmeet |].
    intros [|j] Hj.
    + rewrite Z.add_0_r. exact Hm.
    + replace (block_nonce b + Z.of_nat (S j))%Z
        with (block_nonce b + 1 + Z.of_nat j)%Z by lia.
      apply (Hfirst j). lia.
Qed.

(** The loop does exit as soon as some later nonce meets the target. *)
Lemma mine_loop_reaches (d : Z) (k : nat) (b : Block A) :
  meets_target d (hash_at b (block_nonce b + Z.of_nat k)) = true ->
  exists b', mine_loop (S k) d (Py.str_mul "0" d) b = Some b'.
Proof.
  revert b. induction k as [|k IH]; intros b Hm.
  - rewrite Z.add_0_r in Hm. rewrite mine_loop_step.
    change (calculate_hash b) with (hash_at b (block_nonce b)).
    rewrite Hm. eauto.
  - rewrite mine_loop_step.
    destruct (meets_target d (calculate_hash b)); [eauto |].
    apply IH. cbn [block_nonce set_nonce set_hash].
    replace (block_nonce b + 1 + Z.of_nat k)%Z
      with (block_nonce b + Z.of_nat (S k))%Z by lia.
    exact Hm.
Qed.

Lemma mine_loop_fuel_mono (fuel fuel' : nat) (d : Z) (b b' : Block A) :
  mine_loop fuel d (Py.str_mul "0" d) b = Some b' -> fuel <= fuel' ->
  mine_loop fuel' d (Py.str_mul "0" d) b = Some b'.
Proof.
  revert fuel' b. induction fuel as [|fuel IH]; intros fuel' b; [discriminate |].
  intros Hm Hle. destruct fuel' as [|fuel']; [lia |].
  rewrite mine_loop_step in *.
  destruct (meets_target d (calculate_hash b)); [exact Hm |].
  apply IH; [exact Hm | lia].
Qed.

(** Above difficulty 64 the loop, once entered, never exits. *)
Lemma mine_loop_above_64 (fuel : nat) (d : Z) (b : Block A) :
  (64 < d)%Z -> mine_loop fuel d (Py.str_mul "0" d) b = None.
Proof.
  intros Hd. revert b. induction fuel as [|fuel IH]; intros b; [reflexivity |].
  rewrite mine_loop_step.
  assert (meets_target d (calculate_hash b) = false) as ->
      by (unfold calculate_hash; now apply meets_target_above_64).
  apply IH.
Qed.

(** ['0' * d]: the string of [d] zeros or one of two exceptions. *)
Lemma str_zeros_cases (d : Z) :
  str_zeros d
  = if (sys_maxsize <? d)%Z || (d <? - sys_maxsize - 1)%Z
    then Raised "OverflowError"
    else if allocates d then Returned (Py.str_mul "0" d)
         else Raised "MemoryError".
Proof. reflexivity. Qed.

Lemma str_zeros_returned (d : Z) (target : string) :
  str_zeros d = Returned target -> target = Py.str_mul "0" d.
Proof.
  rewrite str_zeros_cases.
  destruct ((sys_maxsize <? d)%Z || (d <? - sys_maxsize - 1)%Z); [discriminate |].
  destruct (allocates d); [|discriminate]. now intros [= <-].
Qed.

(** Up to the length of a digest the target is always built. *)
Lemma str_zeros_digest (d : Z) :
  (- sys_maxsize - 1 <= d <= 64)%Z -> str_zeros d = Returned (Py.str_mul "0" d).
Proof.
  intros Hd. rewrite str_zeros_cases.
  assert ((sys_maxsize <? d)%Z || (d <? - sys_maxsize - 1)%Z = false) as ->.
  { apply orb_false_iff. rewrite !Z.ltb_ge. unfold sys_maxsize in *. lia. }
  now rewrite allocates_digest by lia.
Qed.

(** [mine_block] returns exactly when the target is built and the loop
    exits. *)
Lemma mine_block_returned (fuel : nat) (d : Z) (b b' : Block A) :
  mine_block fuel d b = Returned b' <->
  str_zeros d = Returned (Py.str_mul "0" d) /\
  mine_loop fuel d (Py.str_mul "0" d) b = Some b'.
Proof.
  unfold mine_block. destruct (str_zeros d) as [target| |] eqn:Ht.
  - apply str_zeros_returned in Ht as ->.
    destruct (mine_loop fuel d (Py.str_mul "0" d) b) as [b1|].
    + split; [intros [= <-]; auto | intros [_ [= <-]]; reflexivity].
    + split; [discriminate | intros [_ [=]]].
  - split; [discriminate | intros [[=] _]].
  - split; [discriminate | intros [[=] _]].
Qed.

Lemma mine_block_exit (fuel : nat) (d : Z) (b b' : Block A) :
  mine_block fuel d b = Returned b' ->
  exists k : nat,
    k < fuel /\
    b' = set_hash (set_nonce b (block_nonce b + Z.of_nat k))
           (Some (hash_at b (block_nonce b + Z.of_nat k))) /\
    meets_target d (hash_at b (block_nonce b + Z.of_nat k)) = true /\
    forall j : nat, j < k ->
      meets_target d (hash_at b (block_nonce b + Z.of_nat j)) = false.
Proof. intros Hm. apply mine_block_returned in Hm as [_ Hm]. now apply mine_loop_exit. Qed.

(** A difficulty that some hash meets is at most 64. *)
Lemma meets_target_le_64 (d : Z) (s : string) :
  meets_target d (hexdigest s) = true -> (d <= 64)%Z.
Proof.
  intros Hm. destruct (Z.le_gt_cases d 64) as [H|H]; [exact H |].
  rewrite meets_target_above_64 in Hm by lia. discriminate.
Qed.

Lemma mine_block_reaches (d : Z) (k : nat) (b : Block A) :
  (- sys_maxsize - 1 <= d)%Z ->
  meets_target d (hash_at b (block_nonce b + Z.of_nat k)) = true ->
  exists b', mine_block (S k) d b = Returned b'.
Proof.
  intros Hd Hm. pose proof (meets_target_le_64 _ _ Hm) as H64.
  destruct (mine_loop_reaches d k b Hm) as (b' & Hl).
  exists b'. apply mine_block_returned. split; [|exact Hl].
  apply str_zeros_digest. lia.
Qed.

Lemma mine_block_fuel_mono (fuel fuel' : nat) (d : Z) (b b' : Block A) :
  mine_block fuel d b = Returned b' -> fuel <= fuel' ->
  mine_block fuel' d b = Returned b'.
Proof.
  intros Hm Hle. apply mine_block_returned in Hm as [Ht Hm].
  apply mine_block_returned. split; [exact Ht |].
  now apply (mine_loop_fuel_mono fuel).
Qed.

(** A mined block keeps everything but its nonce and hash. *)
Lemma mine_block_fields (fuel : nat) (d : Z) (b b' : Block A) :
  mine_block fuel d b = Returned b' ->
  index b' = index b /\ transactions b' = transactions b /\
  previous_hash b' = previous_hash b /\
  block_timestamp b' = block_timestamp b /\
  merkle_root b' = merkle_root b /\
  hash b' = Some (calculate_hash b') /\
  meets_target d (calculate_hash b') = true.
Proof.
  intros Hm. apply mine_block_exit in Hm as (k & _ & -> & Hmeet & _).
  repeat split. exact Hmeet.
Qed.

(** A block can only be mined at a difficulty of at most 64. *)
Lemma mine_block_difficulty_le_64 (fuel : nat) (d : Z) (b b' : Block A) :
  mine_block fuel d b = Returned b' -> (d <= 64)%Z.
Proof.
  intros Hm. apply mine_block_fields in Hm as (_ & _ & _ & _ & _ & _ & Hmeet).
  exact (meets_target_le_64 _ _ Hmeet).
Qed.

(** Above difficulty 64 [mine_block] never returns: it raises when the
    target cannot be built, and loops for ever when it can. *)
Lemma mine_block_above_64 (fuel : nat) (d : Z) (b : Block A) :
  (64 < d)%Z ->
  mine_block fuel d b
  = if (sys_maxsize <? d)%Z then Raised "OverflowError"
    else if allocates d then OutOfFuel else Raised "MemoryError".
Proof.
  intros Hd. unfold mine_block. rewrite str_zeros_cases.
  assert ((d <? - sys_maxsize - 1)%Z = false) as ->
      by (apply Z.ltb_ge; unfold sys_maxsize; lia).
  rewrite orb_false_r.
  destruct (sys_maxsize <? d)%Z; [reflexivity |].
  destruct (allocates d); [|reflexivity].
  now rewrite mine_loop_above_64.
Qed.

(** At difficulty 0 the first attempt succeeds. *)
Lemma mine_block_difficulty_0 (fuel : nat) (b : Block A) :
  mine_block (S fuel) 0 b = Returned (set_hash b (Some (calculate_hash b))).
Proof.
  apply mine_block_returned. split.
  - apply str_zeros_digest. unfold sys_maxsize. lia.
  - rewrite mine_loop_step. now rewrite meets_target_zero.
Qed.

End MiningFacts.

(** ** Chain validation ([Blockchain.is_chain_valid]) *)

Section ChainFacts.

Context `{HL : Hashlib} `{MM : Memory} {A : Type} `{NA : Number A}
  `{JC : JsonCodec A}.

(** The indices of [range(1, len(chain))] and their predecessors are in
    bounds, so the [IndexError] branch of the loop is never taken. *)
Lemma is_chain_valid_indices_in_bounds (c : list (Block A)) (i : nat) :
  List.In i (List.seq 1 (List.length c - 1)) ->
  is_Some (c !! i) /\ is_Some (c !! (i - 1)).
Proof.
  intros Hi. apply List.in_seq in Hi.
  split; apply lookup_lt_is_Some; lia.
Qed.

(** A block that passes the first check has a stored hash, so the third
    check never meets [None]. *)
Lemma hash_is_valid_stored (b : Block A) :
  hash_is_valid b = true -> hash b = Some (calculate_hash b).
Proof. unfold hash_is_valid. apply opt_str_eqb_eq. Qed.

Lemma meets_difficulty_iff (d : Z) (b : Block A) :
  meets_difficulty d b = true <->
  exists h, hash b = Some h /\ leading_zeros (Z.to_nat d) h.
Proof.
  unfold meets_difficulty. destruct (hash b) as [h|].
  - rewrite startswith_zeros_iff. split.
    + intros Hz. exists h. split; [reflexivity | exact Hz].
    + intros (h' & [= <-] & Hz). exact Hz.
  - split; [discriminate | intros (h & Hh & _); discriminate].
Qed.

Lemma is_chain_valid_loop_iff (d : Z) (c : list (Block A)) (indices : list nat) :
  is_chain_valid_loop d c indices = true <->
  forall i, List.In i indices -> block_checks d c i.
Proof.
  induction indices as [|i rest IH]; cbn [is_chain_valid_loop].
  - split; [intros _ i [] | reflexivity].
  - destruct (c !! i) as [cur|] eqn:Hcur;
      [destruct (c !! (i - 1)) as [prev|] eqn:Hprev |].
    + destruct (hash_is_valid cur) eqn:Ha; cbn [negb];
        [destruct (previous_hash_matches cur prev) eqn:Hb; cbn [negb];
         [destruct (meets_difficulty d cur) eqn:Hc; cbn [negb] | ] | ].
      * rewrite IH. split.
        -- intros Hrest j [<-|Hj]; [|now apply Hrest].
           exists cur, prev. repeat split; try assumption.
           ++ now apply opt_str_eqb_eq.
           ++ now apply opt_str_eqb_eq.
           ++ now apply meets_difficulty_iff.
        -- intros Hall j Hj. apply Hall. now right.
      * split; [discriminate |]. intros Hall.
        destruct (Hall i (or_introl eq_refl)) as (cur' & _ & Hc1 & _ & _ & _ & Hz).
        rewrite Hcur in Hc1. injection Hc1 as <-.
        apply meets_difficulty_iff in Hz. congruence.
      * split; [discriminate |]. intros Hall.
        destruct (Hall i (or_introl eq_refl)) as (cur' & prev' & Hc1 & Hp1 & _ & Hl & _).
        rewrite Hcur in Hc1. injection Hc1 as <-.
        rewrite Hprev in Hp1. injection Hp1 as <-.
        apply opt_str_eqb_eq in Hl. unfold previous_hash_matches in Hb. congruence.
      * split; [discriminate |]. intros Hall.
        destruct (Hall i (or_introl eq_refl)) as (cur' & _ & Hc1 & _ & Hh & _).
        rewrite Hcur in Hc1. injection Hc1 as <-.
        apply opt_str_eqb_eq in Hh. unfold hash_is_valid in Ha. congruence.
    + split; [discriminate |]. intros Hall.
      destruct (Hall i (or_introl eq_refl)) as (_ & prev' & _ & Hp1 & _).
      congruence.
    + split; [discriminate |]. intros Hall.
      destruct (Hall i (or_introl eq_refl)) as (cur' & _ & Hc1 & _).
      congruence.
Qed.

Lemma is_chain_valid_iff (bc : Blockchain A) :
  is_chain_valid bc = true <-> chain_checks (difficulty bc) (chain bc).
Proof.
  unfold is_chain_valid, chain_checks. rewrite is_chain_valid_loop_iff.
  split; intros Hall i Hi; apply Hall.
  - apply List.in_seq. lia.
  - apply List.in_seq in Hi. lia.
Qed.

(** Appending a block that passes the three checks against the tail. *)
Lemma chain_checks_app (d : Z) (c : list (Block A)) (latest b : Block A) :
  chain_checks d c ->
  last c = Some latest ->
  hash b = Some (calculate_hash b) ->
  previous_hash b = hash latest ->
  meets_target d (calculate_hash b) = true ->
  chain_checks d (c ++ [b]).
Proof.
  intros Hc Hlast Hh Hp Hm i Hi. rewrite List.length_app in Hi. simpl in Hi.
  destruct (Nat.eq_dec i (List.length c)) as [->|Hne].
  - exists b, latest. repeat split.
    + rewrite lookup_app_r by lia. now rewrite Nat.sub_diag.
    + rewrite lookup_app_l by lia. rewrite <- Hlast, last_lookup.
      f_equal. lia.
    + exact Hh.
    + exact Hp.
    + apply meets_difficulty_iff. unfold meets_difficulty. rewrite Hh.
      now apply meets_target_startswith.
  - destruct (Hc i ltac:(lia)) as (cur & prev & H1 & H2 & H3).
    exists cur, prev. repeat split; try apply H3.
    + rewrite lookup_app_l by lia. exact H1.
    + rewrite lookup_app_l by lia. exact H2.
Qed.

Lemma chain_checks_singleton (d : Z) (b : Block A) : chain_checks d [b].
Proof. intros i Hi. simpl in Hi. lia. Qed.


(** Replacing block [i] by one with the same stored hash, and for
    [i >= 1] the same previous-hash field and recomputed hash, changes
    no check. *)
Lemma chain_checks_replace (d : Z) (c : list (Block A)) (i : nat) (b b' : Block A) :
  c !! i = Some b ->
  hash b' = hash b ->
  (1 <= i -> previous_hash b' = previous_hash b /\
             calculate_hash b' = calculate_hash b) ->
  chain_checks d c -> chain_checks d (<[i := b']> c).
Proof.
  intros Hb Hh Hrest Hc k Hk. rewrite length_insert in Hk.
  pose proof (lookup_lt_Some _ _ _ Hb) as Hi.
  destruct (Hc k Hk) as (cur & prev & H1 & H2 & H3 & H4 & h & H5 & H6).
  destruct (Nat.eq_dec k i) as [->|Hki].
  - destruct (Hrest ltac:(lia)) as [Hp Hcalc].
    rewrite Hb in H1. injection H1 as <-.
    exists b', prev. repeat split.
    + now apply list_lookup_insert_eq.
    + rewrite list_lookup_insert_ne by lia. exact H2.
    + congruence.
    + congruence.
    + exists h. split; [congruence | exact H6].
  - destruct (Nat.eq_dec (k - 1) i) as [Hk1|Hk1].
    + rewrite Hk1, Hb in H2. injection H2 as <-.
      exists cur, b'. repeat split.
      * rewrite list_lookup_insert_ne by lia. exact H1.
      * rewrite Hk1. now apply list_lookup_insert_eq.
      * exact H3.
      * congruence.
      * exists h. split; assumption.
    + exists cur, prev. repeat split.
      * rewrite list_lookup_insert_ne by lia. exact H1.
      * rewrite list_lookup_insert_ne by lia. exact H2.
      * exact H3.
      * exact H4.
      * exists h. split; assumption.
Qed.

Lemma chain_checks_broken (d : Z) (c : list (Block A)) (i : nat) (b : Block A) :
  1 <= i -> c !! i = Some b ->
  hash b <> Some (calculate_hash b) ->
  ~ chain_checks d c.
Proof.
  intros Hi Hb Hne Hc.
  pose proof (lookup_lt_Some _ _ _ Hb) as Hlen.
  destruct (Hc i ltac:(lia)) as (cur & _ & H1 & _ & H3 & _).
  congruence.
Qed.

Lemma tamper_amount_inv (bc bc' : Blockchain A) (i j : nat) (a : A) :
  tamper_amount bc i j a = Some bc' ->
  exists b tx,
    chain bc !! i = Some b /\ transactions b !! j = Some tx /\
    bc' = set_chain bc
            (<[i := set_transactions b (<[j := set_amount tx a]> (transactions b))]>
               (chain bc)).
Proof.
  unfold tamper_amount.
  destruct (chain bc !! i) as [b|] eqn:Hb; [|discriminate].
  destruct (transactions b !! j) as [tx|] eqn:Htx; [|discriminate].
  intros [= <-]. exists b, tx. auto.
Qed.

Lemma list_lookup_map {B C : Type} (f : B -> C) (l : list B) (j : nat) :
  List.map f l !! j = f <$> l !! j.
Proof.
  revert j. induction l as [|x l IH]; intros [|j]; cbn; try reflexivity.
  apply IH.
Qed.

(** The dictionary of a block tells the amounts of its transactions. *)
Lemma block_data_tells_amounts (b : Block A) (j : nat) (tx : Transaction A) (a : A) :
  transactions b !! j = Some tx ->
  block_data (set_transactions b (<[j := set_amount tx a]> (transactions b)))
    = block_data b ->
  a = amount tx.
Proof.
  intros Htx E. unfold block_data in E.
  cbn [set_transactions index block_timestamp transactions previous_hash
       merkle_root block_nonce] in E.
  assert (List.map Transaction_to_dict (<[j := set_amount tx a]> (transactions b))
          = List.map Transaction_to_dict (transactions b)) as Hmap
      by congruence.
  apply (f_equal (fun l => l !! j)) in Hmap.
  rewrite !list_lookup_map, Htx in Hmap.
  rewrite list_lookup_insert_eq in Hmap by now apply lookup_lt_Some in Htx.
  cbn in Hmap. unfold Transaction_to_dict in Hmap.
  cbn [set_amount sender recipient amount timestamp nonce signature] in Hmap.
  congruence.
Qed.

(** Overwriting an amount with another one changes the hash of the block,
    when serialisation and digest tell the two contents apart. *)
Lemma tampered_block_hash_differs (b : Block A) (j : nat) (tx : Transaction A)
    (a : A) :
  transactions b !! j = Some tx ->
  a <> amount tx ->
  dumps_tells_apart
    (block_data (set_transactions b (<[j := set_amount tx a]> (transactions b))))
    (block_data b) ->
  digest_tells_apart
    (json_dumps
       (block_data (set_transactions b (<[j := set_amount tx a]> (transactions b)))))
    (json_dumps (block_data b)) ->
  calculate_hash (set_transactions b (<[j := set_amount tx a]> (transactions b)))
  <> calculate_hash b.
Proof.
  intros Htx Hne Hdumps Hdigest E. apply Hne.
  apply (block_data_tells_amounts b j tx a Htx).
  apply Hdumps, Hdigest. exact E.
Qed.

End ChainFacts.

(** ** The ledger operations *)

Section LedgerFacts.

Context `{HL : Hashlib} `{MM : Memory} {A : Type} `{NA : Number A}
  `{JC : JsonCodec A}.

Lemma last_nonempty (c : list (Block A)) :
  c <> [] -> exists latest, last c = Some latest.
Proof.
  intros Hc. destruct (last c) as [b|] eqn:E; [eauto |].
  apply last_None in E. contradiction.
Qed.

Lemma mine_pending_transactions_cases (fuel : nat) (bc bc' : Blockchain A)
    (miner_address now_block now_reward : string) (r : option (Block A)) :
  mine_pending_transactions fuel bc miner_address now_block now_reward
    = Returned (bc', r) ->
  (pending_transactions bc = [] /\ bc' = bc /\ r = None) \/
  (exists latest mined,
      pending_transactions bc <> [] /\
      last (chain bc) = Some latest /\
      mine_block fuel (difficulty bc) (assembled_block bc latest now_block)
        = Returned mined /\
      bc' = after_mining bc mined (reward_transaction bc miner_address now_reward) /\
      r = Some mined).
Proof.
  unfold mine_pending_transactions, get_latest_block.
  destruct (pending_transactions bc) as [|tx txs] eqn:Hp.
  - intros [= <- <-]. left. auto.
  - destruct (last (chain bc)) as [latest|] eqn:Hl; [|discriminate].
    fold (assembled_block bc latest now_block). rewrite <- Hp.
    change (Block_init (Z.of_nat (List.length (chain bc)))
              (pending_transactions bc) (hash latest) None now_block)
      with (assembled_block bc latest now_block).
    destruct (mine_block fuel (difficulty bc) (assembled_block bc latest now_block))
      as [mined| |] eqn:Hm; [|discriminate ..].
    intros [= <- <-]. right. exists latest, mined.
    repeat split; try assumption; try reflexivity. rewrite Hp. discriminate.
Qed.

Lemma add_transaction_cases (bc : Blockchain A) (sndr rcpt : string)
    (amt : A) (now : string) :
  (add_transaction bc sndr rcpt amt now = (bc, false) /\
   sndr <> "System"%string /\ num_ltb (get_balance bc sndr) amt = true) \/
  (exists tx,
      add_transaction bc sndr rcpt amt now = (after_adding bc tx, true) /\
      (sndr = "System"%string \/ num_ltb (get_balance bc sndr) amt = false) /\
      sender tx = sndr /\ recipient tx = rcpt /\ amount tx = amt).
Proof.
  unfold add_transaction.
  destruct (String.eqb_spec sndr "System") as [Hs|Hs]; cbn [negb andb].
  - right. eexists. split; [reflexivity |].
    split; [now left |]. destruct (wallets bc !! sndr); repeat split.
  - destruct (num_ltb (get_balance bc sndr) amt) eqn:Hb.
    + left. auto.
    + right. eexists. split; [reflexivity |].
      split; [now right |]. destruct (wallets bc !! sndr); repeat split.
Qed.

(** Every call only appends to the sequence of all transactions. *)
Lemma all_transactions_after_mining (bc : Blockchain A) (mined : Block A)
    (reward : Transaction A) :
  transactions mined = pending_transactions bc ->
  all_transactions (after_mining bc mined reward)
    = all_transactions bc ++ [reward].
Proof.
  intros Ht. unfold all_transactions, after_mining. cbn [chain pending_transactions].
  rewrite List.map_app, List.concat_app. cbn [List.map List.concat].
  rewrite Ht, List.app_nil_r. now rewrite <- List.app_assoc.
Qed.

Lemma all_transactions_after_adding (bc : Blockchain A) (tx : Transaction A) :
  all_transactions (after_adding bc tx) = all_transactions bc ++ [tx].
Proof.
  unfold all_transactions, after_adding. cbn [chain pending_transactions].
  now rewrite List.app_assoc.
Qed.

Lemma assembled_block_mined (fuel : nat) (bc : Blockchain A)
    (latest mined : Block A) (now_block : string) :
  mine_block fuel (difficulty bc) (assembled_block bc latest now_block)
    = Returned mined ->
  index mined = Z.of_nat (List.length (chain bc)) /\
  transactions mined = pending_transactions bc /\
  previous_hash mined = hash latest /\
  hash mined = Some (calculate_hash mined) /\
  meets_target (difficulty bc) (calculate_hash mined) = true.
Proof.
  intros Hm. apply mine_block_fields in Hm as (H1 & H2 & H3 & _ & _ & H6 & H7).
  repeat split; assumption.
Qed.

Lemma do_call_appends (fuel : nat) (bc bc' : Blockchain A) (c : call A) :
  do_call fuel bc c = Returned bc' ->
  exists extra, all_transactions bc' = all_transactions bc ++ extra.
Proof.
  destruct c as [name pub priv now | sndr rcpt amt now | miner t1 t2];
    cbn [do_call].
  - intros [= <-]. exists []. now rewrite List.app_nil_r.
  - intros [= <-].
    destruct (add_transaction_cases bc sndr rcpt amt now)
      as [(-> & _) | (tx & -> & _)]; cbn [fst].
    + exists []. now rewrite List.app_nil_r.
    + exists [tx]. apply all_transactions_after_adding.
  - destruct (mine_pending_transactions fuel bc miner t1 t2)
      as [[bc1 r]| |] eqn:Hm; try discriminate.
    intros [= <-].
    apply mine_pending_transactions_cases in Hm
      as [(_ & -> & _) | (latest & mined & _ & _ & Hmine & -> & _)].
    + exists []. now rewrite List.app_nil_r.
    + eexists. apply all_transactions_after_mining.
      now apply assembled_block_mined in Hmine.
Qed.

Lemma do_calls_appends (fuel : nat) (calls : list (call A)) (bc bc' : Blockchain A) :
  do_calls fuel bc calls = Returned bc' ->
  exists extra, all_transactions bc' = all_transactions bc ++ extra.
Proof.
  revert bc. induction calls as [|c calls IH]; intros bc; cbn [do_calls].
  - intros [= <-]. exists []. now rewrite List.app_nil_r.
  - destruct (do_call fuel bc c) as [bc1| |] eqn:Hc; try discriminate.
    intros Hrest. apply do_call_appends in Hc as (e1 & E1).
    apply IH in Hrest as (e2 & E2).
    exists (e1 ++ e2). now rewrite E2, E1, List.app_assoc.
Qed.

Lemma Blockchain_init_genesis (fuel : nat) (d : Z) (now : string) (bc : Blockchain A) :
  Blockchain_init fuel d now = Returned bc ->
  exists genesis_block,
    mine_block fuel d
      (Block_init 0
         [Transaction_init "System" "Genesis" num_zero None (Some "genesis"%string) now]
         (Some (Py.str_mul "0" 64)) (Some "2025-01-01T00:00:00"%string) now)
      = Returned genesis_block /\
    bc = {| chain := [genesis_block];
            pending_transactions := [];
            difficulty := d;
            mining_reward := num_reward;
            wallets := ∅ |}.
Proof.
  unfold Blockchain_init, _create_genesis_block. cbn [difficulty chain].
  destruct (mine_block fuel d _) as [g| |] eqn:Hm; [|discriminate ..].
  intros [= <-]. exists g. split; reflexivity.
Qed.

Lemma Blockchain_init_ok (fuel : nat) (d : Z) (now : string) (bc : Blockchain A) :
  Blockchain_init fuel d now = Returned bc -> ledger_ok bc.
Proof.
  intros Hi. apply Blockchain_init_genesis in Hi as (g & _ & ->).
  split; [discriminate | apply chain_checks_singleton].
Qed.

Lemma do_call_ok (fuel : nat) (bc bc' : Blockchain A) (c : call A) :
  ledger_ok bc -> do_call fuel bc c = Returned bc' -> ledger_ok bc'.
Proof.
  intros [Hne Hok].
  destruct c as [name pub priv now | sndr rcpt amt now | miner t1 t2];
    cbn [do_call].
  - intros [= <-]. split; assumption.
  - intros [= <-].
    destruct (add_transaction_cases bc sndr rcpt amt now)
      as [(-> & _) | (tx & -> & _)]; cbn [fst]; split; assumption.
  - destruct (mine_pending_transactions fuel bc miner t1 t2)
      as [[bc1 r]| |] eqn:Hm; try discriminate.
    intros [= <-].
    apply mine_pending_transactions_cases in Hm
      as [(_ & -> & _) | (latest & mined & _ & Hl & Hmine & -> & _)].
    + split; assumption.
    + apply assembled_block_mined in Hmine as (_ & _ & Hp & Hh & Hm).
      split; cbn [chain difficulty after_mining].
      * intros E. apply List.app_eq_nil in E as [_ E]. discriminate.
      * now apply (chain_checks_app _ _ latest).
Qed.

Lemma do_calls_ok (fuel : nat) (calls : list (call A)) (bc bc' : Blockchain A) :
  ledger_ok bc -> do_calls fuel bc calls = Returned bc' -> ledger_ok bc'.
Proof.
  revert bc. induction calls as [|c calls IH]; intros bc Hok; cbn [do_calls].
  - now intros [= <-].
  - destruct (do_call fuel bc c) as [bc1| |] eqn:Hc; try discriminate.
    apply IH. now apply (do_call_ok fuel bc _ c).
Qed.

(** At difficulty 0 the first mining attempt succeeds, so every call
    returns. *)
Lemma do_call_returns_at_difficulty_0 (fuel : nat) (bc : Blockchain A) (c : call A) :
  chain bc <> [] -> difficulty bc = 0%Z ->
  exists bc', do_call (S fuel) bc c = Returned bc' /\
              chain bc' <> [] /\ difficulty bc' = 0%Z.
Proof.
  intros Hne Hd.
  destruct c as [name pub priv now | sndr rcpt amt now | miner t1 t2];
    cbn [do_call].
  - eexists. split; [reflexivity |]. split; assumption.
  - eexists. split; [reflexivity |].
    destruct (add_transaction_cases bc sndr rcpt amt now)
      as [(-> & _) | (tx & -> & _)]; cbn [fst]; split; assumption.
  - unfold mine_pending_transactions, get_latest_block.
    destruct (pending_transactions bc) as [|tx txs].
    + eexists. split; [reflexivity |]. split; assumption.
    + destruct (last_nonempty (chain bc) Hne) as (latest & ->).
      rewrite Hd, mine_block_difficulty_0.
      eexists. split; [reflexivity |]. cbn [chain difficulty]. split; [|reflexivity].
      intros E. apply List.app_eq_nil in E as [_ E]. discriminate.
Qed.

Lemma do_calls_returns_at_difficulty_0 (fuel : nat) (calls : list (call A))
    (bc : Blockchain A) :
  chain bc <> [] -> difficulty bc = 0%Z ->
  exists bc', do_calls (S fuel) bc calls = Returned bc'.
Proof.
  revert bc. induction calls as [|c calls IH]; intros bc Hne Hd; cbn [do_calls].
  - eauto.
  - destruct (do_call_returns_at_difficulty_0 fuel bc c Hne Hd)
      as (bc1 & -> & Hne1 & Hd1).
    now apply IH.
Qed.


End LedgerFacts.

(** ** Balance replay ([Blockchain.get_balance]) *)

Section BalanceFacts.

Context `{HL : Hashlib} `{MM : Memory} {A : Type} `{NA : Number A}
  `{JC : JsonCodec A}.

Lemma fold_balance_step (address : string) (txs : list (Transaction A)) (balance : A) :
  List.fold_left (balance_step address) txs balance
    = spec_replay address txs balance.
Proof.
  revert balance. induction txs as [|tx txs IH]; intros balance; simpl.
  - reflexivity.
  - apply IH.
Qed.

Lemma spec_replay_app (address : string) (txs txs' : list (Transaction A)) (balance : A) :
  spec_replay address (txs ++ txs') balance
    = spec_replay address txs' (spec_replay address txs balance).
Proof.
  revert balance. induction txs as [|tx txs IH]; intros balance; simpl.
  - reflexivity.
  - apply IH.
Qed.

Lemma fold_blocks (address : string) (blocks : list (Block A)) (balance : A) :
  List.fold_left
    (fun balance block =>
       List.fold_left (balance_step address) (transactions block) balance)
    blocks balance
  = spec_replay address (List.concat (List.map transactions blocks)) balance.
Proof.
  revert balance. induction blocks as [|b blocks IH]; intros balance; simpl.
  - reflexivity.
  - rewrite IH, spec_replay_app, fold_balance_step. reflexivity.
Qed.

End BalanceFacts.

(** ** The Merkle root ([Block._calculate_merkle_root]) *)

Section MerkleFacts.

Context `{HL : Hashlib} `{MM : Memory} {A : Type} `{NA : Number A}
  `{JC : JsonCodec A}.

Lemma in_range_by_two (start count i : nat) :
  List.In i (range_by_two start count) ->
  exists k, k < count /\ i = start + 2 * k.
Proof.
  revert start. induction count as [|count IH]; intros start; simpl.
  - intros [].
  - intros [<-|Hi].
    + exists 0. lia.
    + apply IH in Hi as (k & Hk & ->). exists (S k). lia.
Qed.

(** Both indices read by a round are in bounds, so the default of [nth]
    is never returned. *)
Lemma merkle_round_indices_in_bounds (l : list string) (i : nat) :
  List.In i (even_indices (List.length (merkle_pad l))) ->
  i + 1 < List.length (merkle_pad l).
Proof.
  unfold even_indices. intros Hi.
  apply in_range_by_two in Hi as (k & Hk & ->).
  rewrite length_merkle_pad in *. rewrite Nat.div2_div in Hk.
  pose proof (Nat.div_mod_eq (List.length l) 2) as D.
  pose proof (Nat.mod_upper_bound (List.length l) 2 ltac:(lia)) as B.
  pose proof (Nat.div_mod_eq (S (List.length l + List.length l mod 2)) 2) as D'.
  pose proof (Nat.mod_upper_bound (S (List.length l + List.length l mod 2)) 2
                ltac:(lia)) as B'.
  lia.
Qed.

Lemma nth_last_index (l : list string) :
  List.nth (List.length l - 1) l EmptyString = List.last l EmptyString.
Proof.
  induction l as [|a [|b l] IH]; try reflexivity.
  change (List.last (a :: b :: l) EmptyString)
    with (List.last (b :: l) EmptyString).
  rewrite <- IH. cbn [List.length].
  replace (S (S (List.length l)) - 1) with (S (S (List.length l) - 1)) by lia.
  reflexivity.
Qed.

Lemma merkle_pad_spec (l : list string) : merkle_pad l = spec_duplicate_last l.
Proof.
  unfold merkle_pad, spec_duplicate_last. rewrite nth_last_index.
  pose proof (Nat.mod_upper_bound (List.length l) 2 ltac:(lia)) as B.
  pose proof (Nat.div_mod_eq (List.length l) 2) as D.
  destruct (Nat.eqb_spec (List.length l mod 2) 0) as [E|E];
    destruct (Nat.odd (List.length l)) eqn:O; try reflexivity; exfalso.
  - apply Nat.odd_spec in O as [m Hm]. lia.
  - assert (Nat.even (List.length l) = true) as Ev
        by (rewrite <- Nat.negb_odd, O; reflexivity).
    apply Nat.even_spec in Ev as [m Hm]. lia.
Qed.

Lemma length_spec_duplicate_last_even (l : list string) :
  exists n, List.length (spec_duplicate_last l) = 2 * n.
Proof.
  unfold spec_duplicate_last.
  destruct (Nat.odd (List.length l)) eqn:E.
  - apply Nat.odd_spec in E as [m Hm]. exists (S m).
    rewrite List.length_app. simpl. lia.
  - assert (Nat.even (List.length l) = true) as Ev
        by (rewrite <- Nat.negb_odd, E; reflexivity).
    apply Nat.even_spec in Ev as [m Hm]. exists m. lia.
Qed.

Lemma map_range_by_two_shift {B : Type} (g : nat -> B) (start count : nat) :
  List.map g (range_by_two (S (S start)) count)
    = List.map (fun i => g (S (S i))) (range_by_two start count).
Proof.
  revert start. induction count as [|count IH]; intros start; simpl.
  - reflexivity.
  - now rewrite IH.
Qed.

(** The index loop over an even-length list is the left-to-right pairing. *)
Lemma pairs_by_index (n : nat) (l : list string) :
  List.length l = 2 * n ->
  List.map
    (fun i => hexdigest (List.nth i l EmptyString +:+ List.nth (i + 1) l EmptyString))
    (range_by_two 0 n)
  = spec_combine_pairs l.
Proof.
  revert l. induction n as [|n IH]; intros l Hl.
  - destruct l; [reflexivity | simpl in Hl; lia].
  - destruct l as [|a [|b l]]; simpl in Hl; try lia.
    cbn [range_by_two List.map spec_combine_pairs]. f_equal.
    rewrite map_range_by_two_shift. apply IH. lia.
Qed.

Lemma div2_succ_double (n : nat) : Nat.div2 (S (2 * n)) = n.
Proof.
  rewrite Nat.div2_div. symmetry. apply (Nat.div_unique _ _ _ 1); lia.
Qed.

Lemma merkle_round_spec (l : list string) :
  merkle_round l = spec_combine_pairs (spec_duplicate_last l).
Proof.
  unfold merkle_round, even_indices. rewrite merkle_pad_spec.
  destruct (length_spec_duplicate_last_even l) as (n & Hn).
  rewrite Hn, div2_succ_double. now apply pairs_by_index.
Qed.

Lemma merkle_loop_step (l : list string) :
  merkle_loop l
    = if (1 <? List.length l)%nat then merkle_loop (merkle_round l) else l.
Proof.
  funelim (merkle_loop l);
    match goal with E : (1 <? _)%nat = _ |- _ => rewrite E end; reflexivity.
Qed.

(** The loop ends with the single hash the specification reduces to. *)
Lemma merkle_loop_reduces (n : nat) (l : list string) :
  List.length l <= n -> l <> [] ->
  exists root, merkle_loop l = [root] /\ spec_reduces l root.
Proof.
  revert l. induction n as [|n IH]; intros l Hn Hne.
  - destruct l; [contradiction | simpl in Hn; lia].
  - rewrite merkle_loop_step.
    destruct (Nat.ltb_spec 1 (List.length l)) as [Hlt|Hle].
    + destruct (IH (merkle_round l)) as (root & Hr & Hs).
      * pose proof (merkle_round_shrinks l Hlt). lia.
      * intros E. apply (f_equal (@List.length string)) in E.
        rewrite length_merkle_round in E. simpl in E.
        destruct (List.length l) as [|[|m]]; simpl in E; lia.
      * exists root. split; [exact Hr |].
        apply spec_reduces_more; [exact Hlt |].
        now rewrite <- merkle_round_spec.
    + destruct l as [|a [|b l]]; [contradiction | | simpl in Hle; lia].
      exists a. split; [reflexivity | constructor].
Qed.

Lemma spec_reduces_deterministic (l : list string) (r1 r2 : string) :
  spec_reduces l r1 -> spec_reduces l r2 -> r1 = r2.
Proof.
  intros H1. revert r2.
  induction H1 as [root | hashes root Hlen _ IH]; intros r2 H2.
  - inversion H2 as [ | ? ? Hlen2 _]; subst; [reflexivity |].
    simpl in Hlen2. lia.
  - inversion H2 as [ | ? ? _ Hrec]; subst.
    + simpl in Hlen. lia.
    + now apply IH.
Qed.

(** Three transactions: the third hash is paired with itself. *)
Lemma merkle_root_of_three (t1 t2 t3 : Transaction A) :
  _calculate_merkle_root [t1; t2; t3]
  = hexdigest (hexdigest (get_hash t1 +:+ get_hash t2)
               +:+ hexdigest (get_hash t3 +:+ get_hash t3)).
Proof.
  cbn [_calculate_merkle_root List.map].
  rewrite merkle_loop_step. cbn [List.length Nat.ltb Nat.leb].
  rewrite merkle_round_spec. cbn.
  rewrite merkle_loop_step. cbn [List.length Nat.ltb Nat.leb].
  rewrite merkle_round_spec. cbn.
  rewrite merkle_loop_step. reflexivity.
Qed.


End MerkleFacts.

(** * Part IV: the specification, claim by claim *)

Section Claims.

Context `{HL : Hashlib} `{MM : Memory} {A : Type} `{NA : Number A}
  `{JC : JsonCodec A}.

(** C1. A ledger built by [Blockchain.__init__] and then driven by any
    finite sequence of calls ([add_transaction], [mine_pending_transactions],
    and also [create_wallet]) that have all returned satisfies
    [is_chain_valid]. *)
Theorem chain_valid_after_any_calls (fuel0 : nat) (d : Z) (now : string)
    (bc0 : Blockchain A) (fuel : nat) (calls : list (call A)) (bc : Blockchain A) :
  Blockchain_init fuel0 d now = Returned bc0 ->
  do_calls fuel bc0 calls = Returned bc ->
  is_chain_valid bc = true.
Proof.
  intros Hinit Hrun. apply is_chain_valid_iff.
  apply Blockchain_init_ok in Hinit.
  now destruct (do_calls_ok fuel calls bc0 bc Hinit Hrun).
Qed.



(** C4. [get_balance] is the fold, from [0], over every transaction of
    every block of the chain followed by every pending transaction, that
    adds the amount when the address is the recipient and subtracts it when
    the address is the sender. *)
Theorem get_balance_is_replay (bc : Blockchain A) (address : string) :
  get_balance bc address = spec_getBalance bc address.
Proof.
  unfold get_balance, spec_getBalance, all_transactions.
  now rewrite fold_blocks, fold_balance_step, spec_replay_app.
Qed.

(** C5. [_calculate_merkle_root] computes the root of the specification:
    the hash of the empty byte string for no transaction, the content hash
    of the transaction for a single one, and otherwise the one hash left by
    repeatedly duplicating the last hash of an odd list and hashing the
    concatenation of each adjacent pair. The root of the specification is
    unique, so the two agree as functions. *)
Theorem merkle_root_refines_spec (txs : list (Transaction A)) :
  spec_computeRoot (List.map get_hash txs) (_calculate_merkle_root txs) /\
  (forall root, spec_computeRoot (List.map get_hash txs) root ->
                root = _calculate_merkle_root txs) /\
  _calculate_merkle_root [] = Py.hex (sha3_256 []) /\
  (forall tx, _calculate_merkle_root [tx] = get_hash tx).
Proof.
  assert (spec_computeRoot (List.map get_hash txs) (_calculate_merkle_root txs))
    as Hspec.
  { destruct txs as [|tx txs]; [reflexivity |].
    cbn [_calculate_merkle_root spec_computeRoot List.map].
    destruct (merkle_loop_reduces
                (List.length (List.map get_hash (tx :: txs)))
                (List.map get_hash (tx :: txs)) (le_n _) ltac:(discriminate))
      as (root & Hr & Hs).
    cbn [List.map] in Hr. rewrite Hr. exact Hs. }
  split; [exact Hspec |]. split; [|split].
  - intros root Hroot. destruct txs as [|tx txs].
    + exact Hroot.
    + cbn [spec_computeRoot List.map] in Hroot, Hspec.
      exact (spec_reduces_deterministic _ _ _ Hroot Hspec).
  - reflexivity.
  - intros tx. reflexivity.
Qed.

(** C6 (as amended). For a non-negative difficulty [d], [mine_block]
    returns exactly when some nonce, counted up from the block's current
    one, gives a hash whose first [d] characters are ['0']. Up to
    difficulty 64 it raises nothing. A digest has 64 characters, so above
    difficulty 64 it never returns: it raises [OverflowError] before the
    first attempt when [d] exceeds [sys.maxsize], [MemoryError] when the
    target ['0' * d] does not fit the memory, and otherwise loops for ever.
    When it returns, the stored hash is the recomputed hash, its first [d]
    characters are ['0'], and the nonce is the first one with such a hash.
    At difficulty 0 the first attempt succeeds and the nonce is left as it
    was (0 for a block that was just constructed). *)
Theorem mine_block_exits_iff_target_reachable (d : Z) (b : Block A) :
  (0 <= d)%Z ->
  ((exists fuel b', mine_block fuel d b = Returned b') <->
   (exists k : nat,
       leading_zeros (Z.to_nat d) (hash_at b (block_nonce b + Z.of_nat k)))) /\
  ((d <= 64)%Z -> forall fuel e, mine_block fuel d b <> Raised e) /\
  ((64 < d)%Z ->
   forall fuel,
     mine_block fuel d b
     = if (sys_maxsize <? d)%Z then Raised "OverflowError"
       else if allocates d then OutOfFuel else Raised "MemoryError") /\
  (forall fuel b',
      mine_block fuel d b = Returned b' ->
      hash b' = Some (calculate_hash b') /\
      leading_zeros (Z.to_nat d) (calculate_hash b') /\
      (block_nonce b <= block_nonce b')%Z /\
      forall n, (block_nonce b <= n < block_nonce b')%Z ->
                ~ leading_zeros (Z.to_nat d) (hash_at b n)) /\
  (d = 0%Z ->
   mine_block 1 d b = Returned (set_hash b (Some (calculate_hash b)))) /\
  (forall idx txs prev ts now,
      block_nonce (Block_init idx txs prev ts now) = 0%Z).
Proof.
  intros Hd. split; [|split; [|split; [|split; [|split]]]].
  - split.
    + intros (fuel & b' & Hm).
      apply mine_block_exit in Hm as (k & _ & _ & Hk & _).
      exists k. now apply meets_target_iff.
    + intros (k & Hk). exists (S k).
      apply mine_block_reaches; [unfold sys_maxsize; lia |].
      now apply meets_target_iff.
  - intros H64 fuel e. unfold mine_block.
    rewrite str_zeros_digest by (unfold sys_maxsize; lia).
    destruct (mine_loop fuel d (Py.str_mul "0" d) b); discriminate.
  - intros Hbig fuel. now apply mine_block_above_64.
  - intros fuel b' Hm.
    apply mine_block_exit in Hm as (k & _ & -> & Hk & Hfirst).
    cbn [hash block_nonce set_hash set_nonce]. repeat split.
    + now apply meets_target_iff.
    + lia.
    + intros n Hn Hz. apply meets_target_iff in Hz; [|exact Hd].
      replace n with (block_nonce b + Z.of_nat (Z.to_nat (n - block_nonce b)))%Z
        in Hz by lia.
      rewrite Hfirst in Hz by lia. discriminate.
  - intros ->. apply mine_block_difficulty_0.
  - reflexivity.
Qed.

(** C7. [add_transaction] refuses the transaction (returns [False])
    exactly when the sender is not ["System"] and the sender's balance is
    below the amount; the refusal leaves the whole ledger, chain and pool
    included, as it was. *)
Theorem add_transaction_refuses_iff_insufficient (bc : Blockchain A)
    (sndr rcpt : string) (amt : A) (now : string) :
  (snd (add_transaction bc sndr rcpt amt now) = false <->
   sndr <> "System"%string /\ num_ltb (get_balance bc sndr) amt = true) /\
  (snd (add_transaction bc sndr rcpt amt now) = false ->
   fst (add_transaction bc sndr rcpt amt now) = bc).
Proof.
  destruct (add_transaction_cases bc sndr rcpt amt now)
    as [(-> & Hs & Hb) | (tx & -> & Hok & _)]; cbn [fst snd].
  - split; [split; auto | reflexivity].
  - split; [|discriminate]. split; [discriminate |].
    intros [Hs Hb]. destruct Hok; congruence.
Qed.

(** C8 (as amended). On a valid chain, overwriting the amount of a
    transaction of block [i] with a different amount makes [is_chain_valid]
    false when [i >= 1], provided the serialisation tells the old and the
    new contents of the block apart and the digest does not collide on the
    two texts; when [i = 0] it leaves [is_chain_valid] true, whatever the
    new amount. *)
Theorem tampering_detected_from_block_1 (bc bc' : Blockchain A) (i j : nat)
    (a : A) (b : Block A) (tx : Transaction A) :
  is_chain_valid bc = true ->
  chain bc !! i = Some b ->
  transactions b !! j = Some tx ->
  tamper_amount bc i j a = Some bc' ->
  let b' := set_transactions b (<[j := set_amount tx a]> (transactions b)) in
  chain bc' = <[i := b']> (chain bc) /\
  (1 <= i ->
   a <> amount tx ->
   dumps_tells_apart (block_data b') (block_data b) ->
   digest_tells_apart (json_dumps (block_data b')) (json_dumps (block_data b)) ->
   is_chain_valid bc' = false) /\
  (i = 0 -> is_chain_valid bc' = true).
Proof.
  intros Hvalid Hb Htx Ht b'.
  apply tamper_amount_inv in Ht as (b0 & tx0 & Hb0 & Htx0 & ->).
  rewrite Hb in Hb0. injection Hb0 as <-.
  rewrite Htx in Htx0. injection Htx0 as <-.
  fold b'. pose proof (lookup_lt_Some _ _ _ Hb) as Hlen.
  apply is_chain_valid_iff in Hvalid.
  split; [reflexivity |]. split.
  - intros Hi Hne Hdumps Hdigest.
    pose proof (tampered_block_hash_differs b j tx a Htx Hne Hdumps Hdigest)
      as Hhash. fold b' in Hhash.
    apply not_true_is_false. intros Hv.
    apply is_chain_valid_iff in Hv. cbn [set_chain chain difficulty] in Hv.
    destruct (Hvalid i ltac:(lia)) as (cur & _ & Hc & _ & Hh & _).
    rewrite Hb in Hc. injection Hc as <-.
    apply (chain_checks_broken (difficulty bc) (<[i := b']> (chain bc)) i b');
      [lia | now apply list_lookup_insert_eq | | exact Hv].
    cbn [hash b' set_transactions]. rewrite Hh. congruence.
  - intros ->. apply is_chain_valid_iff. cbn [set_chain chain difficulty].
    apply (chain_checks_replace _ _ 0 b b');
      [exact Hb | reflexivity | lia | exact Hvalid].
Qed.


(** C10 (as amended). The genesis transaction carries the nonce
    ["genesis"], and the reward transaction left in the pool by a
    [mine_pending_transactions] call that mined a block carries the nonce
    ["reward"]. Hence after two calls that each mined a block, with any
    calls between and after them, two transactions at different positions
    of the ledger carry the same nonce ["reward"]. *)
Theorem reward_nonce_is_constant_and_repeats
    (fuel0 : nat) (d : Z) (now : string) (genesis : Blockchain A)
    (fuel : nat) (bc0 bc1 bc2 bc3 bc4 : Blockchain A)
    (miner1 miner2 t1 t1' t2 t2' : string) (mined1 mined2 : Block A)
    (calls calls' : list (call A)) :
  Blockchain_init fuel0 d now = Returned genesis ->
  mine_pending_transactions fuel bc0 miner1 t1 t1' = Returned (bc1, Some mined1) ->
  do_calls fuel bc1 calls = Returned bc2 ->
  mine_pending_transactions fuel bc2 miner2 t2 t2' = Returned (bc3, Some mined2) ->
  do_calls fuel bc3 calls' = Returned bc4 ->
  List.map nonce (all_transactions genesis) = ["genesis"%string] /\
  List.map nonce (pending_transactions bc1) = ["reward"%string] /\
  List.map nonce (pending_transactions bc3) = ["reward"%string] /\
  exists (i j : nat) (tx1 tx2 : Transaction A),
    i <> j /\
    all_transactions bc4 !! i = Some tx1 /\
    all_transactions bc4 !! j = Some tx2 /\
    nonce tx1 = "reward"%string /\ nonce tx2 = "reward"%string.
Proof.
  intros Hg Hm1 Hc1 Hm2 Hc2.
  apply Blockchain_init_genesis in Hg as (g & Hg & ->).
  apply mine_block_fields in Hg as (_ & Hgt & _).
  apply mine_pending_transactions_cases in Hm1
    as [(_ & _ & [=]) | (l1 & m1 & _ & _ & Hmine1 & -> & _)].
  apply mine_pending_transactions_cases in Hm2
    as [(_ & _ & [=]) | (l2 & m2 & _ & _ & Hmine2 & -> & _)].
  apply assembled_block_mined in Hmine1 as (_ & Ht1 & _).
  apply assembled_block_mined in Hmine2 as (_ & Ht2 & _).
  apply do_calls_appends in Hc1 as (e1 & E1).
  apply do_calls_appends in Hc2 as (e2 & E2).
  rewrite all_transactions_after_mining in E1, E2 by assumption.
  split; [|split; [reflexivity | split; [reflexivity |]]].
  - unfold all_transactions. cbn [chain pending_transactions List.map List.concat].
    rewrite Hgt. reflexivity.
  - exists (List.length (all_transactions bc0)),
           (List.length (all_transactions bc2)),
           (reward_transaction bc0 miner1 t1'),
           (reward_transaction bc2 miner2 t2').
    repeat split.
    + rewrite E1, !List.length_app. simpl. lia.
    + rewrite E2, E1, <- !List.app_assoc. now apply list_lookup_middle.
    + rewrite E2, <- !List.app_assoc. now apply list_lookup_middle.
Qed.

End Claims.

(** * Part V: further properties of the code *)

(** ** Bytes and hexadecimal strings *)

Lemma bytes_eqb_eq (a b : list byte) : bytes_eqb a b = true <-> a = b.
Proof.
  revert b. induction a as [|x a IH]; intros [|y b]; simpl;
    try (split; congruence).
  rewrite andb_true_iff, IH. split.
  - intros [Hxy ->]. now rewrite (Byte.byte_dec_bl _ _ Hxy).
  - intros [= -> ->]. split; [now apply Byte.byte_dec_lb | reflexivity].
Qed.

Lemma is_hex_digit_hex_digit (n : N) :
  is_hex_digit (Py.hex_digit n) = true.
Proof.
  destruct n as [|p]; [reflexivity |].
  do 4 (destruct p as [p|p|]; try reflexivity).
Qed.

Lemma hex_only_hex (bs : list byte) : hex_only (Py.hex bs) = true.
Proof.
  induction bs as [|b bs IH]; [reflexivity |].
  cbn [Py.hex hex_only]. now rewrite !is_hex_digit_hex_digit, IH.
Qed.

Lemma hex_only_substring (n : nat) (s : string) :
  hex_only s = true -> hex_only (String.substring 0 n s) = true.
Proof.
  revert s. induction n as [|n IH]; intros [|c s];
    cbn [String.substring hex_only]; try reflexivity.
  rewrite !andb_true_iff. intros [Hc Hs]. split; [exact Hc | now apply IH].
Qed.

Lemma length_substring_0 (n : nat) (s : string) :
  n <= String.length s -> String.length (String.substring 0 n s) = n.
Proof.
  revert s. induction n as [|n IH]; intros [|c s]; simpl; try lia.
  intros Hn. rewrite IH by lia. reflexivity.
Qed.

(** ** Wallets and signatures ([create_wallet], [pqc_crypto.py]) *)

Section WalletProperties.

Context `{HL : Hashlib} `{MM : Memory} {A : Type} `{NA : Number A}
  `{JC : JsonCodec A}.

(** X1. [create_wallet] returns the address derived from the public key,
    registers under it a wallet with the given name, the new key pair and
    balance 0, leaves every other wallet entry as it was, and touches
    neither the chain, the pool, the difficulty nor the reward. *)
Theorem create_wallet_registers_one_entry (bc : Blockchain A) (name : string)
    (pub priv : list byte) (now : string) :
  let keypair :=
    {| algorithm := "Dilithium2"; created_at := now; public_key := pub;
       private_key := priv; is_quantum_safe := false |} in
  let bc' := fst (create_wallet bc name pub priv now) in
  let address := snd (create_wallet bc name pub priv now) in
  address = get_address keypair /\
  wallets bc' !! address
    = Some {| wallet_name := name; wallet_keypair := keypair; wallet_balance := 0 |} /\
  (forall other, other <> address -> wallets bc' !! other = wallets bc !! other) /\
  chain bc' = chain bc /\
  pending_transactions bc' = pending_transactions bc /\
  difficulty bc' = difficulty bc /\
  mining_reward bc' = mining_reward bc.
Proof.
  cbn [create_wallet fst snd wallets chain pending_transactions difficulty
       mining_reward].
  repeat split.
  - apply lookup_insert_eq.
  - intros other Hne. now apply lookup_insert_ne.
Qed.

(** X2. Registering a second wallet with the same public key replaces the
    first one: the ledger is the one the second call alone would give, so the
    first name and private key are gone. *)
Theorem create_wallet_same_key_overwrites (bc : Blockchain A)
    (name1 name2 : string) (pub priv1 priv2 : list byte) (now1 now2 : string) :
  fst (create_wallet (fst (create_wallet bc name1 pub priv1 now1))
         name2 pub priv2 now2)
  = fst (create_wallet bc name2 pub priv2 now2).
Proof.
  cbn [create_wallet fst wallets chain pending_transactions difficulty
       mining_reward].
  f_equal. apply insert_insert_eq.
Qed.

(** X3. A wallet name can be registered twice: with two public keys that
    give different addresses, both wallets are kept under the same name. *)
Theorem create_wallet_accepts_duplicate_names (bc : Blockchain A) (name : string)
    (pub1 priv1 pub2 priv2 : list byte) (now1 now2 : string) :
  let bc1 := create_wallet bc name pub1 priv1 now1 in
  let bc2 := create_wallet (fst bc1) name pub2 priv2 now2 in
  snd bc1 <> snd bc2 ->
  (wallet_name <$> wallets (fst bc2) !! snd bc1) = Some name /\
  (wallet_name <$> wallets (fst bc2) !! snd bc2) = Some name.
Proof.
  cbn [create_wallet fst snd wallets]. intros Hne. split.
  - rewrite lookup_insert_ne by congruence. now rewrite lookup_insert_eq.
  - now rewrite lookup_insert_eq.
Qed.

(** X4. An address is 40 lower-case hexadecimal digits, a prefix of the
    digest of the public key; a generated nonce is 64 such digits. *)
Theorem addresses_and_nonces_are_hex (keypair : PQCKeyPair)
    (random_bytes : list byte) :
  String.length (get_address keypair) = 40 /\
  hex_only (get_address keypair) = true /\
  String.prefix (get_address keypair) (Py.hex (sha3_256 (public_key keypair)))
    = true /\
  String.length (generate_nonce random_bytes) = 64 /\
  hex_only (generate_nonce random_bytes) = true.
Proof.
  unfold get_address, generate_nonce, Py.slice_to.
  change (0 <=? 40)%Z with true. cbv iota.
  repeat split.
  - apply length_substring_0. rewrite length_hex, sha3_256_length.
    change (Z.to_nat 40) with 40. lia.
  - apply hex_only_substring, hex_only_hex.
  - apply prefix_substring.
  - now rewrite length_hex, sha3_256_length.
  - apply hex_only_hex.
Qed.

(** X5. [verify] accepts exactly the digest of the message followed by the
    public key, which anyone can compute; a signature made by [sign] with
    the private key is accepted under a public key exactly when the two
    digests coincide, as they do when the two keys are equal. *)
Theorem verify_checks_the_public_digest (message : string) (keypair : PQCKeyPair)
    (signature pub : list byte) :
  (PQCSignature_verify message signature pub = true <->
   signature = sha3_256 (Py.encode message ++ pub)) /\
  (PQCSignature_verify message (PQCSignature_sign message keypair) pub = true <->
   sha3_256 (Py.encode message ++ pub)
   = sha3_256 (Py.encode message ++ private_key keypair)) /\
  (public_key keypair = private_key keypair ->
   PQCSignature_verify message (PQCSignature_sign message keypair)
     (public_key keypair) = true).
Proof.
  unfold PQCSignature_verify, PQCSignature_sign.
  rewrite !bytes_eqb_eq. repeat split; congruence.
Qed.

End WalletProperties.

(** ** Transactions and balances *)

Section BalanceProperties.

Context `{HL : Hashlib} `{MM : Memory} {A : Type} `{NA : Number A}
  `{JC : JsonCodec A}.

Lemma get_balance_all_transactions (bc : Blockchain A) (address : string) :
  get_balance bc address = spec_replay address (all_transactions bc) num_zero.
Proof.
  unfold get_balance, all_transactions.
  now rewrite fold_blocks, fold_balance_step, spec_replay_app.
Qed.

Lemma get_balance_appended (bc bc' : Blockchain A) (tx : Transaction A)
    (address : string) :
  all_transactions bc' = all_transactions bc ++ [tx] ->
  get_balance bc' address = balance_step address (get_balance bc address) tx.
Proof.
  intros E. rewrite !get_balance_all_transactions, E, spec_replay_app.
  reflexivity.
Qed.

(** X6. An admitted transaction carries the clock reading as timestamp and
    a nonce derived from sender, recipient, amount and timestamp. It is
    signed exactly when the sender is a registered wallet, and the signed
    message is sender, recipient and amount only: neither the timestamp nor
    the nonce is covered by the signature. *)
Theorem add_transaction_signs_registered_senders (bc : Blockchain A)
    (sndr rcpt : string) (amt : A) (now : string) :
  sndr = "System"%string \/ num_ltb (get_balance bc sndr) amt = false ->
  exists tx : Transaction A,
    add_transaction bc sndr rcpt amt now = (after_adding bc tx, true) /\
    timestamp tx = now /\
    nonce tx = hexdigest (sndr +:+ rcpt +:+ num_str amt +:+ now) /\
    signature tx
    = ((fun wallet =>
          sha3_256 (Py.encode (sndr +:+ rcpt +:+ num_str amt)
                    ++ private_key (wallet_keypair wallet)))
       <$> wallets bc !! sndr).
Proof.
  intros Hok. unfold add_transaction.
  assert (negb (String.eqb sndr "System")
          && num_ltb (get_balance bc sndr) amt = false) as ->.
  { destruct Hok as [-> | ->]; [reflexivity | apply andb_false_r]. }
  eexists. split; [reflexivity |].
  destruct (wallets bc !! sndr); repeat split.
Qed.

(** X7. A submitted transaction counts at once: right after
    [add_transaction] accepts it, and before any mining, every balance is the
    old one with the amount added for the recipient and subtracted for the
    sender; a refused transaction changes no balance. *)
Theorem pending_transactions_count_at_once (bc : Blockchain A)
    (sndr rcpt : string) (amt : A) (now : string) (address : string) :
  get_balance (fst (add_transaction bc sndr rcpt amt now)) address
  = if snd (add_transaction bc sndr rcpt amt now)
    then
      let balance := get_balance bc address in
      let balance :=
        if String.eqb rcpt address then num_add balance amt else balance in
      if String.eqb sndr address then num_sub balance amt else balance
    else get_balance bc address.
Proof.
  destruct (add_transaction_cases bc sndr rcpt amt now)
    as [(-> & _) | (tx & -> & _ & <- & <- & <-)]; cbn [fst snd].
  - reflexivity.
  - apply get_balance_appended, all_transactions_after_adding.
Qed.

(** X8. Mining moves the pool into a block without changing what anyone
    owns; the only change of balances is the reward, credited to the miner
    (and debited from ["System"]) as soon as the call returns, while it is
    still pending. *)
Theorem mining_changes_balances_by_the_reward (fuel : nat)
    (bc bc' : Blockchain A) (miner now_block now_reward : string)
    (mined : Block A) (address : string) :
  mine_pending_transactions fuel bc miner now_block now_reward
    = Returned (bc', Some mined) ->
  get_balance bc' address
  = (let balance := get_balance bc address in
     let balance :=
       if String.eqb miner address
       then num_add balance (mining_reward bc) else balance in
     if String.eqb "System" address
     then num_sub balance (mining_reward bc) else balance) /\
  (address <> miner -> address <> "System"%string ->
   get_balance bc' address = get_balance bc address).
Proof.
  intros Hm.
  apply mine_pending_transactions_cases in Hm
    as [(_ & _ & [=]) | (latest & m & _ & _ & Hmine & -> & [= <-])].
  apply assembled_block_mined in Hmine as (_ & Ht & _).
  assert (get_balance
            (after_mining bc mined (reward_transaction bc miner now_reward)) address
          = balance_step address (get_balance bc address)
              (reward_transaction bc miner now_reward)) as E
      by (apply get_balance_appended; now apply all_transactions_after_mining).
  split; [exact E |].
  intros Hm Hs. rewrite E. unfold balance_step, reward_transaction.
  cbn [Transaction_init recipient sender amount].
  destruct (String.eqb_spec miner address); [congruence |].
  destruct (String.eqb_spec "System" address); [congruence | reflexivity].
Qed.

(** X9. An address that is neither sender nor recipient of any transaction
    of the ledger has the balance [0]. *)
Theorem unused_address_has_zero_balance (bc : Blockchain A) (address : string) :
  unused_address bc address -> get_balance bc address = num_zero.
Proof.
  unfold unused_address. rewrite get_balance_all_transactions.
  generalize (all_transactions bc) as txs, (num_zero (A := A)) as balance.
  induction txs as [|tx txs IH]; intros balance Hun; cbn [spec_replay].
  - reflexivity.
  - destruct (Hun tx (or_introl eq_refl)) as [Hs Hr].
    unfold spec_credit, spec_debit.
    destruct (String.eqb_spec (recipient tx) address); [contradiction |].
    destruct (String.eqb_spec (sender tx) address); [contradiction |].
    apply IH. intros tx' Hin. apply Hun. now right.
Qed.

(** X10. A transaction's nonce: a non-empty nonce passed to the
    constructor is kept; with no nonce, or with an empty one, the nonce is
    the digest of sender, recipient, amount and timestamp, 64 lower-case
    hexadecimal digits. *)
Theorem transaction_nonce_is_kept_or_derived (sndr rcpt : string) (amt : A)
    (sig : option (list byte)) (now : string) :
  (forall n, n <> EmptyString ->
             nonce (Transaction_init sndr rcpt amt sig (Some n) now) = n) /\
  nonce (Transaction_init sndr rcpt amt sig None now)
    = hexdigest (sndr +:+ rcpt +:+ num_str amt +:+ now) /\
  nonce (Transaction_init sndr rcpt amt sig (Some EmptyString) now)
    = nonce (Transaction_init sndr rcpt amt sig None now) /\
  String.length (nonce (Transaction_init sndr rcpt amt sig None now)) = 64 /\
  hex_only (nonce (Transaction_init sndr rcpt amt sig None now)) = true.
Proof.
  cbn [Transaction_init nonce Py.str_or]. repeat split.
  - intros n Hn. destruct (String.eqb_spec n EmptyString); [contradiction |].
    reflexivity.
  - apply length_hexdigest.
  - apply hex_only_hex.
Qed.

End BalanceProperties.

(** ** What every run of the ledger preserves *)

Section LedgerInvariants.

Context `{HL : Hashlib} `{MM : Memory} {A : Type} `{NA : Number A}
  `{JC : JsonCodec A}.

(** The two ways a call changes the ledger: it leaves the chain alone and
    at most appends a transaction to the pool or registers a wallet, or it
    mines the pool into a new block. *)
Lemma do_call_cases (fuel : nat) (bc bc' : Blockchain A) (c : call A) :
  do_call fuel bc c = Returned bc' ->
  (chain bc' = chain bc /\
   difficulty bc' = difficulty bc /\
   mining_reward bc' = mining_reward bc /\
   (exists added, pending_transactions bc' = pending_transactions bc ++ added) /\
   (forall a, is_Some (wallets bc !! a) -> is_Some (wallets bc' !! a))) \/
  (exists latest mined miner now_block now_reward,
      pending_transactions bc <> [] /\
      last (chain bc) = Some latest /\
      mine_block fuel (difficulty bc) (assembled_block bc latest now_block)
        = Returned mined /\
      bc' = after_mining bc mined (reward_transaction bc miner now_reward)).
Proof.
  destruct c as [name pub priv now | sndr rcpt amt now | miner t1 t2];
    cbn [do_call].
  - intros [= <-]. left. cbn [create_wallet fst chain difficulty mining_reward
                               pending_transactions wallets].
    repeat split.
    + exists []. now rewrite List.app_nil_r.
    + intros a Ha.
      destruct (decide (get_address
                          {| algorithm := "Dilithium2"; created_at := now;
                             public_key := pub; private_key := priv;
                             is_quantum_safe := false |} = a)) as [<-|Hne].
      * rewrite lookup_insert_eq. eauto.
      * now rewrite lookup_insert_ne.
  - intros [= <-]. left.
    destruct (add_transaction_cases bc sndr rcpt amt now)
      as [(-> & _) | (tx & -> & _)]; cbn [fst]; repeat split; try easy.
    + exists []. now rewrite List.app_nil_r.
    + now exists [tx].
  - destruct (mine_pending_transactions fuel bc miner t1 t2)
      as [[bc1 r]| |] eqn:Hm; try discriminate.
    intros [= <-].
    apply mine_pending_transactions_cases in Hm
      as [(_ & -> & _) | (latest & mined & Hp & Hl & Hmine & -> & _)].
    + left. repeat split; try easy. exists []. now rewrite List.app_nil_r.
    + right. exists latest, mined, miner, t1, t2. repeat split; assumption.
Qed.

(** An invariant of single calls is an invariant of runs. *)
Lemma do_calls_invariant (P : Blockchain A -> Prop) (fuel : nat) :
  (forall bc bc' c, P bc -> do_call fuel bc c = Returned bc' -> P bc') ->
  forall calls bc bc',
    P bc -> do_calls fuel bc calls = Returned bc' -> P bc'.
Proof.
  intros Hstep calls. induction calls as [|c calls IH]; intros bc bc' HP;
    cbn [do_calls].
  - now intros [= <-].
  - destruct (do_call fuel bc c) as [bc1| |] eqn:Hc; try discriminate.
    apply IH. now apply (Hstep bc bc1 c).
Qed.

(** X11. Calls only ever append: after any run that returns, the old chain
    is a prefix of the new one, the old sequence of all transactions is a
    prefix of the new one, difficulty and reward are unchanged, and every
    registered address is still registered. No method removes or rewrites a
    block, a transaction or a wallet entry's key. *)
Theorem calls_only_append (fuel : nat) (bc bc' : Blockchain A)
    (calls : list (call A)) :
  do_calls fuel bc calls = Returned bc' ->
  (exists blocks, chain bc' = chain bc ++ blocks) /\
  (exists txs, all_transactions bc' = all_transactions bc ++ txs) /\
  difficulty bc' = difficulty bc /\
  mining_reward bc' = mining_reward bc /\
  (forall a, is_Some (wallets bc !! a) -> is_Some (wallets bc' !! a)).
Proof.
  intros Hrun. split; [|split; [now apply (do_calls_appends fuel calls) |]].
  - revert Hrun.
    apply (do_calls_invariant
             (fun s => exists blocks, chain s = chain bc ++ blocks) fuel).
    + intros s s' c (blocks & E) Hc.
      apply do_call_cases in Hc
        as [(-> & _) | (latest & mined & miner & t1 & t2 & _ & _ & _ & ->)].
      * now exists blocks.
      * exists (blocks ++ [mined]). cbn [after_mining chain].
        now rewrite E, List.app_assoc.
    + exists []. now rewrite List.app_nil_r.
  - revert Hrun.
    apply (do_calls_invariant
             (fun s => difficulty s = difficulty bc /\
                       mining_reward s = mining_reward bc /\
                       forall a, is_Some (wallets bc !! a) ->
                                 is_Some (wallets s !! a)) fuel).
    + intros s s' c (Hd & Hr & Hw) Hc.
      apply do_call_cases in Hc
        as [(_ & -> & -> & _ & Hw') |
            (latest & mined & miner & t1 & t2 & _ & _ & _ & ->)].
      * repeat split; auto.
      * repeat split; auto.
    + repeat split; auto.
Qed.

Lemma mined_block_well_mined (fuel : nat) (d : Z) (b b' : Block A) :
  mine_block fuel d b = Returned b' ->
  merkle_root b = _calculate_merkle_root (transactions b) ->
  (0 <= block_nonce b)%Z ->
  block_well_mined d b'.
Proof.
  intros Hm Hroot Hn.
  apply mine_block_exit in Hm as (k & _ & -> & Hmeet & _).
  repeat split.
  - apply startswith_zeros_iff, meets_target_startswith. exact Hmeet.
  - exact Hroot.
  - cbn [block_nonce set_hash set_nonce]. lia.
Qed.

Lemma expected_previous_hash_app (c : list (Block A)) (b : Block A) (i : nat) :
  i <= List.length c ->
  expected_previous_hash (c ++ [b]) i = expected_previous_hash c i.
Proof.
  intros Hi. destruct i as [|j]; cbn [expected_previous_hash]; [reflexivity |].
  now rewrite lookup_app_l by lia.
Qed.

Lemma chain_well_formed_app (d : Z) (c : list (Block A)) (latest b : Block A) :
  chain_well_formed d c ->
  last c = Some latest ->
  index b = Z.of_nat (List.length c) ->
  block_well_mined d b ->
  transactions b <> [] ->
  previous_hash b = hash latest ->
  chain_well_formed d (c ++ [b]).
Proof.
  intros Hwf Hlast Hi Hw Ht Hp i b0 Hl.
  pose proof (lookup_lt_Some _ _ _ Hl) as Hlen.
  rewrite List.length_app in Hlen. cbn [List.length] in Hlen.
  destruct (decide (i < List.length c)) as [Hlt|Hge].
  - rewrite lookup_app_l in Hl by lia.
    rewrite expected_previous_hash_app by lia. now apply Hwf.
  - assert (i = List.length c) as -> by lia.
    rewrite lookup_app_r, Nat.sub_diag in Hl by lia.
    cbn in Hl. injection Hl as <-.
    repeat split; try assumption; try apply Hw.
    rewrite expected_previous_hash_app by lia.
    rewrite last_lookup in Hlast.
    pose proof (lookup_lt_Some _ _ _ Hlast) as Hpos.
    destruct (List.length c) as [|n]; [lia |].
    cbn [expected_previous_hash pred] in *. now rewrite Hlast.
Qed.

Lemma Blockchain_init_well_formed (fuel : nat) (d : Z) (now : string)
    (bc : Blockchain A) :
  Blockchain_init fuel d now = Returned bc ->
  difficulty bc = d /\ List.length (chain bc) = 1 /\
  pending_transactions bc = [] /\ chain_well_formed d (chain bc).
Proof.
  intros Hi. apply Blockchain_init_genesis in Hi as (g & Hm & ->).
  cbn [difficulty chain pending_transactions].
  do 3 (split; [reflexivity |]).
  intros i b Hl. destruct i as [|i]; [|destruct i; discriminate].
  injection Hl as <-.
  pose proof (mine_block_fields _ _ _ _ Hm) as (Hidx & Htx & Hprev & _).
  rewrite Hidx, Htx, Hprev.
  split; [reflexivity |]. split; [|split; [discriminate | reflexivity]].
  apply (mined_block_well_mined _ _ _ _ Hm); [reflexivity |].
  cbn [Block_init block_nonce]. lia.
Qed.

(** Runs keep the chain non-empty, the difficulty and the shape of every
    block. *)
Lemma do_calls_keep_well_formed (fuel : nat) (d : Z) (bc bc' : Blockchain A)
    (calls : list (call A)) :
  chain bc <> [] /\ difficulty bc = d /\ chain_well_formed d (chain bc) ->
  do_calls fuel bc calls = Returned bc' ->
  chain bc' <> [] /\ difficulty bc' = d /\ chain_well_formed d (chain bc').
Proof.
  intros Hstart.
  apply (do_calls_invariant
           (fun s => chain s <> [] /\ difficulty s = d /\
                     chain_well_formed d (chain s)) fuel); [|exact Hstart].
  intros s s' c (Hne & Hds & Hs) Hc.
  apply do_call_cases in Hc
    as [(-> & -> & _) |
        (latest & mined & miner & t1 & t2 & Hp & Hl & Hmine & ->)].
  - auto.
  - cbn [after_mining chain difficulty]. split; [|split; [exact Hds |]].
    + intros E. apply List.app_eq_nil in E as [_ E]. discriminate.
    + pose proof (assembled_block_mined _ _ _ _ _ Hmine)
        as (Hidx & Htx & Hprev & _).
      apply (chain_well_formed_app d _ latest); try assumption.
      * rewrite <- Hds.
        now apply (mined_block_well_mined _ _ _ _ Hmine).
      * now rewrite Htx.
Qed.

Lemma chain_of_length_1_nonempty (c : list (Block A)) :
  List.length c = 1 -> c <> [].
Proof. intros E ->. discriminate. Qed.

(** X12. Every block of a chain built by the methods alone, the genesis
    block included, sits at its own index, stores the hash of its contents,
    has a hash with the required leading zeros, carries the Merkle root of
    its own transactions, holds at least one transaction and a non-negative
    nonce, and names the stored hash of the block before it (64 zeros for
    the genesis block). *)
Theorem reachable_chain_is_well_formed (fuel0 fuel : nat) (d : Z) (now : string)
    (bc0 bc : Blockchain A) (calls : list (call A)) :
  Blockchain_init fuel0 d now = Returned bc0 ->
  do_calls fuel bc0 calls = Returned bc ->
  difficulty bc = d /\ chain_well_formed d (chain bc).
Proof.
  intros Hinit Hrun.
  apply Blockchain_init_well_formed in Hinit as (Hd & Hlen & _ & Hwf).
  apply chain_of_length_1_nonempty in Hlen.
  destruct (do_calls_keep_well_formed fuel d bc0 bc calls) as (_ & Hd' & Hwf');
    auto.
Qed.

(** X13. Once a block has been mined on top of the genesis block, the pool
    is never empty again: it starts with a reward transaction from
    ["System"] with the nonce ["reward"] and the ledger's reward as amount.
    So every later [mine_pending_transactions] that returns has mined a
    block, even when nobody submitted anything. *)
Theorem pool_is_never_empty_after_the_first_mining (fuel0 fuel : nat) (d : Z)
    (now : string) (bc0 bc : Blockchain A) (calls : list (call A)) :
  Blockchain_init fuel0 d now = Returned bc0 ->
  do_calls fuel bc0 calls = Returned bc ->
  1 < List.length (chain bc) ->
  reward_heads_pool bc /\
  forall fuel' miner now_block now_reward bc' r,
    mine_pending_transactions fuel' bc miner now_block now_reward
      = Returned (bc', r) ->
    exists mined, r = Some mined /\ chain bc' = chain bc ++ [mined].
Proof.
  intros Hinit Hrun Hlen.
  apply Blockchain_init_well_formed in Hinit as (_ & Hlen0 & _ & _).
  assert (Hpool : reward_heads_pool bc).
  { assert (List.length (chain bc) = 1 \/ reward_heads_pool bc) as [E|H];
      [|lia | exact H].
    revert Hrun.
    apply (do_calls_invariant
             (fun s => List.length (chain s) = 1 \/ reward_heads_pool s) fuel);
      [|now left].
    intros s s' c Hs Hc.
    apply do_call_cases in Hc
      as [(Hch & _ & Hr & (added & Hp) & _) |
          (latest & mined & miner & t1 & t2 & _ & _ & _ & ->)].
    - destruct Hs as [Hs | (reward & rest & E & H1 & H2 & H3)].
      + left. now rewrite Hch.
      + right. exists reward, (rest ++ added).
        rewrite Hp, E, Hr. repeat split; assumption.
    - right. eexists. exists []. split; [reflexivity |]. repeat split. }
  split; [exact Hpool |].
  intros fuel' miner t1 t2 bc' r Hm.
  destruct Hpool as (reward & rest & E & _).
  apply mine_pending_transactions_cases in Hm
    as [(Hp & _) | (latest & mined & _ & _ & _ & -> & ->)].
  - rewrite E in Hp. discriminate.
  - exists mined. split; reflexivity.
Qed.

Lemma fold_left_add_lengths {B : Type} (ls : list (list B)) (n : nat) :
  List.fold_left Nat.add (List.map (@List.length B) ls) n
  = n + List.length (List.concat ls).
Proof.
  revert n. induction ls as [|l ls IH]; intros n; cbn [List.map List.fold_left
                                                         List.concat].
  - cbn [List.length]. lia.
  - rewrite IH, List.length_app. lia.
Qed.

(** X14. [get_chain_info] on a ledger built by the methods alone returns:
    the block count is at least 1, the counts of mined and pending
    transactions add up to the number of all transactions, the chain is
    reported valid, and the latest hash has the leading zeros the
    difficulty asks for. On an empty chain the call raises [IndexError]. *)
Theorem get_chain_info_after_any_calls (fuel0 fuel : nat) (d : Z) (now : string)
    (bc0 bc : Blockchain A) (calls : list (call A)) :
  Blockchain_init fuel0 d now = Returned bc0 ->
  do_calls fuel bc0 calls = Returned bc ->
  (exists info h,
      get_chain_info bc = Returned info /\
      info_blocks info = List.length (chain bc) /\
      1 <= info_blocks info /\
      info_total_transactions info + info_pending_transactions info
        = List.length (all_transactions bc) /\
      info_difficulty info = d /\
      info_latest_hash info = Some h /\
      leading_zeros (Z.to_nat d) h /\
      info_is_valid info = true) /\
  (forall empty : Blockchain A,
      chain empty = [] -> get_chain_info empty = Raised "IndexError").
Proof.
  intros Hinit Hrun. split.
  - pose proof (Blockchain_init_well_formed _ _ _ _ Hinit)
      as (Hd0 & Hlen0 & _ & Hwf0).
    apply chain_of_length_1_nonempty in Hlen0.
    destruct (do_calls_keep_well_formed fuel d bc0 bc calls) as (_ & Hd & Hwf);
      auto.
    pose proof (do_calls_ok _ _ _ _ (Blockchain_init_ok _ _ _ _ Hinit) Hrun)
      as (Hne & Hok).
    destruct (last_nonempty _ Hne) as (latest & Hl).
    pose proof Hl as Hl'. rewrite last_lookup in Hl'.
    destruct (Hwf _ _ Hl') as (_ & (Hh & Hz & _) & _).
    exists {| info_blocks := List.length (chain bc);
              info_total_transactions :=
                List.fold_left Nat.add
                  (List.map (fun block => List.length (transactions block))
                     (chain bc)) 0;
              info_pending_transactions := List.length (pending_transactions bc);
              info_difficulty := difficulty bc;
              info_latest_hash := hash latest;
              info_is_valid := is_chain_valid bc |}, (calculate_hash latest).
    unfold get_chain_info, get_latest_block. rewrite Hl.
    cbn [info_blocks info_total_transactions info_pending_transactions
         info_difficulty info_latest_hash info_is_valid].
    repeat split; try assumption.
    + destruct (chain bc); [contradiction | cbn [List.length]; lia].
    + unfold all_transactions.
      rewrite List.length_app, <- (List.map_map transactions (@List.length _)).
      rewrite fold_left_add_lengths. lia.
    + now apply is_chain_valid_iff.
  - intros empty E. unfold get_chain_info, get_latest_block. now rewrite E.
Qed.

End LedgerInvariants.

(** ** What validation looks at, and what it does not *)

Section ValidationProperties.

Context `{HL : Hashlib} `{MM : Memory} {A : Type} `{NA : Number A}
  `{JC : JsonCodec A}.

(** X15. [is_chain_valid] accepts any block appended behind the back of
    the methods, as long as it names the latest stored hash and has been
    mined at the ledger's difficulty: its index, its transactions (signed or
    not, covered by balances or not) and its Merkle root are whatever the
    block was built with, and none of them is looked at. *)
Theorem validation_accepts_any_linked_mined_block (fuel : nat)
    (bc : Blockchain A) (latest b b' : Block A) :
  is_chain_valid bc = true ->
  last (chain bc) = Some latest ->
  previous_hash b = hash latest ->
  mine_block fuel (difficulty bc) b = Returned b' ->
  is_chain_valid (set_chain bc (chain bc ++ [b'])) = true /\
  index b' = index b /\
  transactions b' = transactions b /\
  merkle_root b' = merkle_root b.
Proof.
  intros Hv Hl Hp Hm.
  apply mine_block_fields in Hm as (Hi & Ht & Hp' & _ & Hr & Hh & Hz).
  repeat split; try assumption.
  apply is_chain_valid_iff. cbn [set_chain chain difficulty].
  apply (chain_checks_app _ _ latest); try assumption.
  - now apply is_chain_valid_iff.
  - congruence.
Qed.

(** X16. Overwriting the stored hash of a block of a valid chain with a
    different value is detected in every case but one: when the chain
    consists of the genesis block alone, nothing is checked at all. For
    block 0 of a longer chain it is the link of block 1 that fails. *)
Theorem stored_hash_tampering_is_detected (bc bc' : Blockchain A) (i : nat)
    (b : Block A) (h : option string) :
  is_chain_valid bc = true ->
  chain bc !! i = Some b ->
  h <> hash b ->
  tamper_hash bc i h = Some bc' ->
  is_chain_valid bc' = true <-> i = 0 /\ List.length (chain bc) = 1.
Proof.
  intros Hv Hb Hne Ht. unfold tamper_hash in Ht. rewrite Hb in Ht.
  injection Ht as <-. rewrite is_chain_valid_iff in *.
  cbn [set_chain chain difficulty].
  pose proof (lookup_lt_Some _ _ _ Hb) as Hlen.
  split.
  - intros Hc.
    destruct (decide (1 <= i)) as [Hi|Hi].
    + exfalso. apply (chain_checks_broken _ _ i (set_hash b h) Hi) in Hc;
        [exact Hc | now apply list_lookup_insert_eq |].
      cbn [hash set_hash]. intros E. apply Hne. rewrite E.
      destruct (Hv i ltac:(lia)) as (cur & _ & H1 & _ & H3 & _).
      rewrite Hb in H1. injection H1 as <-. now rewrite H3.
    + assert (i = 0) as -> by lia. split; [reflexivity |].
      destruct (decide (List.length (chain bc) = 1)) as [E|E]; [exact E |].
      exfalso.
      destruct (Hc 1 ltac:(rewrite length_insert; lia))
        as (cur & prev & H1 & H2 & _ & H4 & _).
      destruct (Hv 1 ltac:(lia)) as (cur' & prev' & H1' & H2' & _ & H4' & _).
      rewrite list_lookup_insert_ne in H1 by lia.
      cbn [Nat.sub] in H2, H2'.
      rewrite list_lookup_insert_eq in H2 by lia. injection H2 as <-.
      rewrite Hb in H2'. injection H2' as <-.
      rewrite H1' in H1. injection H1 as <-.
      apply Hne. cbn [hash set_hash] in H4. congruence.
  - intros [-> E] k Hk. rewrite length_insert in Hk. lia.
Qed.

(** X17. Dropping blocks from the end of a valid chain is never detected:
    every prefix of a valid chain is valid. *)
Theorem truncation_is_not_detected (bc : Blockchain A) (n : nat) :
  is_chain_valid bc = true ->
  is_chain_valid (truncate_chain bc n) = true.
Proof.
  rewrite !is_chain_valid_iff. unfold truncate_chain.
  cbn [set_chain chain difficulty].
  intros Hv i Hi. rewrite length_take in Hi.
  destruct (Hv i ltac:(lia)) as (cur & prev & H1 & H2 & H3).
  exists cur, prev. repeat split; try apply H3.
  - rewrite lookup_take_lt by lia. exact H1.
  - rewrite lookup_take_lt by lia. exact H2.
Qed.

End ValidationProperties.

(** ** More on mining and on the Merkle root *)

Section MiningAndMerkleProperties.

Context `{HL : Hashlib} `{MM : Memory} {A : Type} `{NA : Number A}
  `{JC : JsonCodec A}.

(** X18. Mining a mined block again, at the same or a lower non-negative
    difficulty, exits in the first iteration and changes nothing: nonce and
    hash stay as they are. *)
Theorem mining_again_changes_nothing (fuel : nat) (d d' : Z) (b b' : Block A) :
  mine_block fuel d b = Returned b' ->
  (0 <= d' <= d)%Z ->
  mine_block 1 d' b' = Returned b'.
Proof.
  intros Hm Hd. pose proof (mine_block_difficulty_le_64 _ _ _ _ Hm) as H64.
  apply mine_block_exit in Hm as (k & _ & -> & Hmeet & _).
  apply mine_block_returned.
  split; [apply str_zeros_digest; unfold sys_maxsize; lia |].
  rewrite mine_loop_step.
  set (n := (block_nonce b + Z.of_nat k)%Z) in *.
  change (calculate_hash (set_hash (set_nonce b n) (Some (hash_at b n))))
    with (hash_at b n).
  assert (meets_target d' (hash_at b n) = true) as ->; [|reflexivity].
  apply meets_target_iff; [lia |].
  apply meets_target_iff in Hmeet; [|lia].
  intros j Hj. apply Hmeet. lia.
Qed.

Lemma merkle_round_repeated_last (hashes : list string) (h : string) :
  Nat.odd (List.length (hashes ++ [h])) = true ->
  merkle_round ((hashes ++ [h]) ++ [h]) = merkle_round (hashes ++ [h]).
Proof.
  intros Hodd. rewrite !merkle_round_spec. f_equal.
  unfold spec_duplicate_last. rewrite Hodd.
  rewrite (List.length_app (hashes ++ [h])). cbn [List.length].
  rewrite Nat.add_1_r, Nat.odd_succ, <- Nat.negb_odd, Hodd. cbn [negb].
  now rewrite List.last_last.
Qed.

Lemma merkle_root_of_nonempty (txs : list (Transaction A)) :
  txs <> [] ->
  _calculate_merkle_root txs
  = List.nth 0 (merkle_loop (List.map get_hash txs)) EmptyString.
Proof. destruct txs; [contradiction | reflexivity]. Qed.

(** X19. The Merkle root does not tell a list of transactions from the
    same list with its last transaction repeated, when the list has an odd
    length above 1: the padding of the first round makes the two equal. *)
Theorem merkle_root_ignores_a_repeated_last_transaction
    (txs : list (Transaction A)) (tx : Transaction A) :
  1 < List.length (txs ++ [tx]) ->
  Nat.odd (List.length (txs ++ [tx])) = true ->
  _calculate_merkle_root ((txs ++ [tx]) ++ [tx])
  = _calculate_merkle_root (txs ++ [tx]).
Proof.
  intros Hlen Hodd.
  rewrite !merkle_root_of_nonempty
    by (intros E; apply (f_equal (@List.length _)) in E;
        rewrite ?List.length_app in E; cbn [List.length] in E; lia).
  f_equal. rewrite !List.map_app. cbn [List.map].
  rewrite (merkle_loop_step ((_ ++ _) ++ _)), (merkle_loop_step (_ ++ [_])).
  rewrite List.length_app in Hlen, Hodd. cbn [List.length] in Hlen, Hodd.
  rewrite merkle_round_repeated_last
    by (rewrite List.length_app, List.length_map; exact Hodd).
  rewrite !List.length_app, List.length_map. cbn [List.length].
  destruct (Nat.ltb_spec 1 (List.length txs + 1 + 1)); [|lia].
  destruct (Nat.ltb_spec 1 (List.length txs + 1)); [|lia].
  reflexivity.
Qed.

End MiningAndMerkleProperties.

(** ** Signatures in the ledger *)

Section SignatureProperties.

Context `{HL : Hashlib} `{MM : Memory} {A : Type} `{NA : Number A}
  `{JC : JsonCodec A}.

Lemma map_insert_same {B C : Type} (f : B -> C) (l : list B) (j : nat) (x y : B) :
  l !! j = Some x -> f y = f x ->
  List.map f (<[j := y]> l) = List.map f l.
Proof.
  revert j. induction l as [|z l IH]; intros j Hl Hf; [reflexivity |].
  destruct j as [|j]; cbn in *.
  - injection Hl as ->. now rewrite Hf.
  - f_equal. now apply IH.
Qed.

Lemma merkle_root_of_hashes (txs txs' : list (Transaction A)) :
  List.map get_hash txs' = List.map get_hash txs ->
  _calculate_merkle_root txs' = _calculate_merkle_root txs.
Proof.
  intros E. unfold _calculate_merkle_root.
  destruct txs as [|t ts], txs' as [|t' ts']; try discriminate; [reflexivity |].
  now rewrite E.
Qed.

(** X20. The hashes do not tell a missing signature from an empty one:
    giving an unsigned transaction the signature [b''] changes neither its
    dictionary nor its hash, and done to a transaction of a mined block it
    changes neither the block's hash nor its Merkle root, so the chain
    stays valid. *)
Theorem empty_signature_is_hashed_like_none (bc : Blockchain A) (i j : nat)
    (b : Block A) (tx : Transaction A) :
  signature tx = None ->
  chain bc !! i = Some b ->
  transactions b !! j = Some tx ->
  let tx' := set_signature tx (Some []) in
  let b' := set_transactions b (<[j := tx']> (transactions b)) in
  Transaction_to_dict tx' = Transaction_to_dict tx /\
  get_hash tx' = get_hash tx /\
  calculate_hash b' = calculate_hash b /\
  _calculate_merkle_root (transactions b') = _calculate_merkle_root (transactions b) /\
  (is_chain_valid bc = true ->
   is_chain_valid (set_chain bc (<[i := b']> (chain bc))) = true).
Proof.
  intros Hsig Hb Htx tx' b'.
  assert (Hdict : Transaction_to_dict tx' = Transaction_to_dict tx).
  { unfold Transaction_to_dict, tx'. cbn [set_signature sender recipient amount
                                           timestamp nonce signature].
    now rewrite Hsig. }
  assert (Hhash : get_hash tx' = get_hash tx)
    by (unfold get_hash; now rewrite Hdict).
  assert (Hblock : calculate_hash b' = calculate_hash b).
  { unfold calculate_hash, block_data, b'.
    cbn [set_transactions index block_timestamp transactions previous_hash
         merkle_root block_nonce].
    now rewrite (map_insert_same Transaction_to_dict _ j tx tx'). }
  repeat split; try assumption.
  - apply merkle_root_of_hashes. unfold b'. cbn [set_transactions transactions].
    now apply (map_insert_same get_hash _ j tx tx').
  - rewrite !is_chain_valid_iff. cbn [set_chain chain difficulty].
    apply (chain_checks_replace _ _ i b b' Hb); [reflexivity |].
    intros _. split; [reflexivity | exact Hblock].
Qed.

Lemma add_transaction_signature (bc : Blockchain A) (sndr rcpt : string)
    (amt : A) (now : string) (tx : Transaction A) :
  add_transaction bc sndr rcpt amt now = (after_adding bc tx, true) ->
  sender tx = sndr /\
  (signature tx <> None -> is_Some (wallets bc !! sndr)).
Proof.
  unfold add_transaction.
  destruct (negb (String.eqb sndr "System")
            && num_ltb (get_balance bc sndr) amt); [discriminate |].
  intros E. injection E as E.
  apply List.app_inv_head in E. injection E as <-.
  destruct (wallets bc !! sndr) as [w|]; cbn; split; eauto; congruence.
Qed.

Lemma do_call_wallets_and_signatures (fuel : nat) (bc bc' : Blockchain A)
    (c : call A) :
  wallets_and_signatures_ok bc ->
  do_call fuel bc c = Returned bc' ->
  wallets_and_signatures_ok bc'.
Proof.
  intros [Hw Hs].
  destruct c as [name pub priv now | sndr rcpt amt now | miner t1 t2];
    cbn [do_call].
  - intros [= <-]. cbn [create_wallet fst]. split.
    + cbn [wallets]. intros a w Hl.
      apply lookup_insert_Some in Hl as [[<- <-] | [_ Hl]]; [|now apply Hw].
      repeat split.
    + intros tx Hin Hsig. cbn [wallets].
      assert (is_Some (wallets bc !! sender tx)) as [w Hl] by now apply Hs.
      match goal with
      | |- is_Some (<[?k := _]> _ !! _) =>
          destruct (decide (k = sender tx)) as [<-|Hne]
      end.
      * rewrite lookup_insert_eq. eauto.
      * rewrite lookup_insert_ne by exact Hne. eauto.
  - intros [= <-].
    destruct (add_transaction_cases bc sndr rcpt amt now)
      as [(-> & _) | (tx & Hadd & _)]; rewrite ?Hadd; cbn [fst];
      [split; assumption |].
    apply add_transaction_signature in Hadd as [Hsender Hsigned].
    split; [exact Hw |].
    intros tx' Hin Hsig. change (wallets (after_adding bc tx)) with (wallets bc).
    rewrite all_transactions_after_adding in Hin.
    apply List.in_app_or in Hin as [Hin | [<- | []]]; [now apply Hs |].
    rewrite Hsender. now apply Hsigned.
  - destruct (mine_pending_transactions fuel bc miner t1 t2)
      as [[bc1 r]| |] eqn:Hm; try discriminate.
    intros [= <-].
    apply mine_pending_transactions_cases in Hm
      as [(_ & -> & _) | (latest & mined & _ & _ & Hmine & -> & _)];
      [split; assumption |].
    split; [exact Hw |].
    intros tx Hin Hsig.
    change (wallets (after_mining bc mined (reward_transaction bc miner t2)))
      with (wallets bc).
    rewrite all_transactions_after_mining in Hin
      by now apply assembled_block_mined in Hmine.
    apply List.in_app_or in Hin as [Hin | [<- | []]]; [now apply Hs |].
    now contradiction Hsig.
Qed.

Lemma Blockchain_init_wallets_and_signatures (fuel : nat) (d : Z) (now : string)
    (bc : Blockchain A) :
  Blockchain_init fuel d now = Returned bc -> wallets_and_signatures_ok bc.
Proof.
  intros Hi. apply Blockchain_init_genesis in Hi as (g & Hm & ->).
  apply mine_block_fields in Hm as (_ & Htx & _).
  split; cbn [wallets].
  - intros a w Hl. now rewrite lookup_empty in Hl.
  - unfold all_transactions. cbn [chain pending_transactions List.map List.concat].
    rewrite Htx. cbn. intros tx [<- | []] Hsig. now contradiction Hsig.
Qed.

Lemma length_get_address (keypair : PQCKeyPair) :
  String.length (get_address keypair) = 40.
Proof.
  unfold get_address, Py.slice_to. change (0 <=? 40)%Z with true. cbv iota.
  apply length_substring_0. rewrite length_hex, sha3_256_length.
  change (Z.to_nat 40) with 40. lia.
Qed.

(** X21. In a ledger built by the constructor and the three methods,
    every wallet is filed under the address of its own public key, has a
    key pair that is not quantum safe, and a stored balance of 0, whatever
    [get_balance] says about its address: the [balance] entry of a wallet is
    never updated. *)
Theorem wallet_entries_are_never_updated (fuel0 fuel : nat) (d : Z) (now : string)
    (bc0 bc : Blockchain A) (calls : list (call A)) (a : string) (w : Wallet) :
  Blockchain_init fuel0 d now = Returned bc0 ->
  do_calls fuel bc0 calls = Returned bc ->
  wallets bc !! a = Some w ->
  a = get_address (wallet_keypair w) /\
  String.length a = 40 /\
  wallet_balance w = 0%Z /\
  is_quantum_safe (wallet_keypair w) = false.
Proof.
  intros Hinit Hrun Hl.
  apply Blockchain_init_wallets_and_signatures in Hinit.
  assert (wallets_and_signatures_ok bc) as [Hw _].
  { revert Hrun. apply (do_calls_invariant wallets_and_signatures_ok fuel);
      [|exact Hinit].
    intros s s' c. apply do_call_wallets_and_signatures. }
  destruct (Hw a w Hl) as (Ha & Hb & Hq). repeat split; try assumption.
  rewrite Ha. apply length_get_address.
Qed.


End SignatureProperties.

(** ** The anomaly detector ([anomaly_detector.py]) *)

Section DetectorProperties.

Context {A : Type} `{AR : AmountRules A} `{DT : Datetime}.

(** The sums of the four weights against the threshold [0.75]. *)
Lemma suspicious_score_above_0_75 (tx : Transaction A) :
  PrimFloat.ltb 0.75 (suspicious_score tx)
  = String.eqb (sender tx) (recipient tx)
    && (amount_gt_10000 (amount tx) || amount_lt_0_01 (amount tx))
    || amount_gt_10000 (amount tx) && amount_mod_100_is_0 (amount tx)
       && amount_lt_0_01 (amount tx).
Proof.
  unfold suspicious_score.
  destruct (amount_gt_10000 (amount tx)), (amount_mod_100_is_0 (amount tx)),
    (amount_lt_0_01 (amount tx)), (String.eqb (sender tx) (recipient tx));
    vm_compute; reflexivity.
Qed.

Lemma rules_flag_only_self_transfers (self : AnomalyDetector A)
    (tx : Transaction A) :
  sensitivity self = 0.75%float ->
  (amount_gt_10000 (amount tx) = true -> amount_lt_0_01 (amount tx) = false) ->
  fst (_rule_based_detection self tx) = true ->
  sender tx = recipient tx.
Proof.
  intros Hs Hlaw. unfold _rule_based_detection. cbn [fst].
  rewrite Hs, suspicious_score_above_0_75.
  destruct (String.eqb_spec (sender tx) (recipient tx)) as [E|_]; [easy |].
  destruct (amount_gt_10000 (amount tx)); [|discriminate].
  rewrite Hlaw by reflexivity. now rewrite andb_false_r.
Qed.

(** X23. At the sensitivity [0.75] the rules flag a transaction exactly
    when it is a self-transfer whose amount is above 10000 or below 0.01,
    or when its amount passes all three amount tests at once. For amounts
    that are not both above 10000 and below 0.01, a transfer between two
    different parties is therefore never flagged, whatever the amount. The
    confidence returned is at most 1. *)
Theorem rule_based_detection_at_sensitivity_0_75 (self : AnomalyDetector A)
    (tx : Transaction A) :
  sensitivity self = 0.75%float ->
  fst (_rule_based_detection self tx)
  = String.eqb (sender tx) (recipient tx)
    && (amount_gt_10000 (amount tx) || amount_lt_0_01 (amount tx))
    || amount_gt_10000 (amount tx) && amount_mod_100_is_0 (amount tx)
       && amount_lt_0_01 (amount tx) /\
  (sender tx <> recipient tx ->
   (amount_gt_10000 (amount tx) = true -> amount_lt_0_01 (amount tx) = false) ->
   fst (_rule_based_detection self tx) = false) /\
  PrimFloat.leb (snd (_rule_based_detection self tx)) 1 = true.
Proof.
  intros Hs. split; [|split].
  - unfold _rule_based_detection. cbn [fst].
    rewrite Hs. apply suspicious_score_above_0_75.
  - intros Hne Hlaw.
    destruct (fst (_rule_based_detection self tx)) eqn:E; [|reflexivity].
    exfalso. apply Hne. now apply (rules_flag_only_self_transfers self).
  - unfold _rule_based_detection, suspicious_score. cbn [snd].
    destruct (amount_gt_10000 (amount tx)), (amount_mod_100_is_0 (amount tx)),
      (amount_lt_0_01 (amount tx)), (String.eqb (sender tx) (recipient tx));
      vm_compute; reflexivity.
Qed.

Lemma predict_untrained (self : AnomalyDetector A) (tx : Transaction A)
    (answers : ModelAnswers) (now : string) (features : Features) :
  is_trained self = false ->
  extract_features tx = Some features ->
  predict self tx answers now
  = Returned
      ({| model := model self;
          is_trained := false;
          sensitivity := sensitivity self;
          transaction_history :=
            transaction_history self
            ++ [ {| entry_transaction := tx;
                    entry_is_anomaly := fst (_rule_based_detection self tx);
                    entry_confidence := snd (_rule_based_detection self tx);
                    entry_timestamp := now |} ];
          anomaly_scores := anomaly_scores self |},
       (fst (_rule_based_detection self tx),
        snd (_rule_based_detection self tx),
        _generate_reason tx features (snd (_rule_based_detection self tx)))).
Proof.
  intros Ht Hf. unfold predict. rewrite Hf, Ht.
  destruct (_rule_based_detection self tx) as [flag confidence]. reflexivity.
Qed.

Lemma extract_features_raises (tx : Transaction A) :
  extract_features tx = None <-> amount_float (amount tx) = None.
Proof.
  unfold extract_features.
  destruct (amount_float (amount tx)) as [a|]; [|easy].
  destruct (fromisoformat (timestamp tx)) as [[hour day]|]; easy.
Qed.

(** X24. A detector that was not trained never consults the model:
    [predict] gives the verdict and the confidence of the rules whatever the
    libraries would answer, appends one entry with them to the history and
    changes nothing else. It fails only when [float(amount)] does; a
    timestamp that does not parse is no failure. *)
Theorem untrained_predict_follows_the_rules (self : AnomalyDetector A)
    (tx : Transaction A) (answers : ModelAnswers) (now : string) :
  is_trained self = false ->
  (predict self tx answers now = Raised "OverflowError"
   <-> amount_float (amount tx) = None) /\
  (forall self' outcome,
      predict self tx answers now = Returned (self', outcome) ->
      fst outcome = _rule_based_detection self tx /\
      transaction_history self'
      = transaction_history self
        ++ [ {| entry_transaction := tx;
                entry_is_anomaly := fst (_rule_based_detection self tx);
                entry_confidence := snd (_rule_based_detection self tx);
                entry_timestamp := now |} ] /\
      model self' = model self /\
      is_trained self' = false /\
      sensitivity self' = sensitivity self /\
      anomaly_scores self' = anomaly_scores self /\
      forall answers',
        predict self tx answers' now = Returned (self', outcome)).
Proof.
  intros Ht. split.
  - rewrite <- extract_features_raises.
    destruct (extract_features tx) as [features|] eqn:Hf.
    + rewrite (predict_untrained self tx answers now features Ht Hf).
      split; discriminate.
    + unfold predict. rewrite Hf. easy.
  - intros self' outcome Hp.
    destruct (extract_features tx) as [features|] eqn:Hf.
    + rewrite (predict_untrained self tx answers now features Ht Hf) in Hp.
      injection Hp as <- <-. cbn [fst snd model is_trained sensitivity
                                   transaction_history anomaly_scores].
      repeat split.
      intros answers'.
      exact (predict_untrained self tx answers' now features Ht Hf).
    + unfold predict in Hp. rewrite Hf in Hp. discriminate.
Qed.

Lemma predict_all_untrained (calls : list (Transaction A * ModelAnswers * string))
    (self self' : AnomalyDetector A) (outcomes : list (bool * float * string)) :
  is_trained self = false ->
  predict_all self calls = Returned (self', outcomes) ->
  is_trained self' = false /\
  sensitivity self' = sensitivity self /\
  anomaly_scores self' = anomaly_scores self /\
  exists entries,
    transaction_history self' = transaction_history self ++ entries /\
    List.map entry_transaction entries = List.map (fun c => fst (fst c)) calls /\
    List.map entry_is_anomaly entries = List.map (fun o => fst (fst o)) outcomes /\
    List.Forall
      (fun e => entry_is_anomaly e
                = PrimFloat.ltb (sensitivity self)
                    (suspicious_score (entry_transaction e))) entries.
Proof.
  revert self self' outcomes.
  induction calls as [|[[tx answers] now] calls IH]; intros self self' outcomes Ht;
    cbn [predict_all].
  - intros [= <- <-]. repeat split; try assumption.
    exists []. rewrite List.app_nil_r. repeat split. constructor.
  - destruct (extract_features tx) as [features|] eqn:Hf.
    + rewrite (predict_untrained self tx answers now features Ht Hf).
      match goal with
      | |- context [predict_all ?s calls] => set (next := s)
      end.
      destruct (predict_all next calls) as [[s2 os]| |] eqn:Hrest;
        try discriminate.
      intros [= <- <-].
      destruct (IH next s2 os eq_refl Hrest)
        as (H1 & H2 & H3 & entries & H4 & H5 & H6 & H7).
      repeat split; try assumption.
      eexists (_ :: entries). subst next.
      cbn [transaction_history] in H4. rewrite H4, <- List.app_assoc.
      split; [reflexivity |]. cbn [List.map fst entry_transaction entry_is_anomaly].
      rewrite H5, H6. repeat split.
      constructor; [reflexivity | exact H7].
    + unfold predict. rewrite Hf. discriminate.
Qed.

Lemma length_filter_le {B : Type} (f : B -> bool) (l : list B) :
  List.length (List.filter f l) <= List.length l.
Proof.
  induction l as [|x l IH]; cbn [List.filter List.length]; [lia |].
  destruct (f x); cbn [List.length]; lia.
Qed.

Lemma filter_map_id {B : Type} (f : B -> bool) (l : list B) :
  List.length (List.filter f l)
  = List.length (List.filter (fun b : bool => b) (List.map f l)).
Proof.
  induction l as [|x l IH]; cbn [List.filter List.map List.length]; [reflexivity |].
  destruct (f x); cbn [List.length]; now rewrite IH.
Qed.

(** X25. A detector that is only ever asked to [predict] stays untrained,
    and its statistics count what it returned: after any run of [predict]
    calls on a new detector, the history holds the analysed transactions in
    order, [total_analyzed] is the number of calls, [anomalies_detected] is
    the number of calls that returned an anomaly, [average_confidence] is
    missing exactly when there was no call, and [anomaly_scores] is still
    empty. At sensitivity [0.75] every transaction flagged in the history is
    a self-transfer, unless its amount is both above 10000 and below 0.01. *)
Theorem new_detector_statistics (contamination sens np_mean : float)
    (calls : list (Transaction A * ModelAnswers * string))
    (self : AnomalyDetector A) (outcomes : list (bool * float * string)) :
  predict_all (AnomalyDetector_init contamination sens) calls
    = Returned (self, outcomes) ->
  is_trained self = false /\
  anomaly_scores self = [] /\
  List.map entry_transaction (transaction_history self)
    = List.map (fun c => fst (fst c)) calls /\
  total_analyzed (get_statistics self np_mean) = List.length calls /\
  anomalies_detected (get_statistics self np_mean)
    = List.length (List.filter (fun o => fst (fst o)) outcomes) /\
  anomalies_detected (get_statistics self np_mean)
    <= total_analyzed (get_statistics self np_mean) /\
  (average_confidence (get_statistics self np_mean) = None <-> calls = []) /\
  (sens = 0.75%float ->
   forall e, List.In e (transaction_history self) ->
     entry_is_anomaly e = true ->
     (amount_gt_10000 (amount (entry_transaction e)) = true ->
      amount_lt_0_01 (amount (entry_transaction e)) = false) ->
     sender (entry_transaction e) = recipient (entry_transaction e)).
Proof.
  intros Hrun.
  apply predict_all_untrained in Hrun
    as (Ht & Hs & Ha & entries & Hh & Htx & Hfl & Hrule); [|reflexivity].
  cbn [AnomalyDetector_init transaction_history anomaly_scores sensitivity
       List.app] in Hh, Ha, Hs, Hrule.
  assert (Hlen : List.length (transaction_history self) = List.length calls).
  { rewrite Hh, <- (List.length_map entry_transaction), Htx.
    apply List.length_map. }
  assert (Hstats :
            total_analyzed (get_statistics self np_mean)
              = List.length (transaction_history self) /\
            anomalies_detected (get_statistics self np_mean)
              = List.length (List.filter entry_is_anomaly (transaction_history self)) /\
            (average_confidence (get_statistics self np_mean) = None
             <-> transaction_history self = [])).
  { unfold get_statistics. destruct (transaction_history self); cbn; easy. }
  destruct Hstats as (Htot & Han & Hav).
  split; [exact Ht |]. split; [exact Ha |]. split; [now rewrite Hh |].
  split; [now rewrite Htot |].
  split; [rewrite Han, Hh, filter_map_id, Hfl; now rewrite <- filter_map_id |].
  split; [rewrite Han, Htot; apply length_filter_le |].
  split.
  - rewrite Hav. split.
    + intros E. rewrite E in Hlen. destruct calls; [reflexivity | discriminate].
    + intros ->. destruct (transaction_history self); [reflexivity | discriminate].
  - intros -> e Hin Hflag Hlaw. rewrite Hh in Hin.
    rewrite List.Forall_forall in Hrule. specialize (Hrule e Hin).
    rewrite Hflag, suspicious_score_above_0_75 in Hrule.
    destruct (String.eqb_spec (sender (entry_transaction e))
                (recipient (entry_transaction e))) as [E|_]; [exact E |].
    destruct (amount_gt_10000 (amount (entry_transaction e))); [|discriminate].
    rewrite Hlaw in Hrule by reflexivity. now rewrite andb_false_r in Hrule.
Qed.

(** X26. [train] returns [False] exactly when it is given fewer than ten
    transactions, and then changes nothing; when it returns [True] the
    detector is trained on the features of the transactions. It never
    touches the history or the sensitivity, and a trained detector stays
    trained. *)
Theorem train_needs_ten_transactions (self self' : AnomalyDetector A)
    (transactions : list (Transaction A)) (fit_returns ok : bool) :
  train self transactions fit_returns = Returned (self', ok) ->
  (ok = false <-> List.length transactions < 10) /\
  (ok = false -> self' = self) /\
  (ok = true ->
   is_trained self' = true /\
   (forest_fitted_on (model self')) = extract_all transactions /\
   forest_contamination (model self') = forest_contamination (model self)) /\
  transaction_history self' = transaction_history self /\
  sensitivity self' = sensitivity self /\
  (is_trained self = true -> is_trained self' = true).
Proof.
  unfold train.
  destruct (Nat.ltb_spec (List.length transactions) 10) as [Hlt|Hge].
  - intros [= <- <-]. repeat split; auto; discriminate.
  - destruct (extract_all transactions) as [features|]; [|discriminate].
    destruct fit_returns; [|discriminate].
    intros [= <- <-]. cbn. repeat split; auto; try discriminate; try lia.
Qed.

Lemma join_cons_nonempty (sep part : string) (parts : list string) :
  part <> EmptyString -> PyStr.join sep (part :: parts) <> EmptyString.
Proof.
  intros Hne. cbn [PyStr.join]. destruct parts; [exact Hne |].
  destruct part; [contradiction | discriminate].
Qed.

(** X27. The reason given is never empty. It is the fallback text
    exactly when no check fires; it names the self-transfer exactly when
    sender and recipient are equal; an amount that is both above 10000 and
    below 0.01 is reported as high only; and a transaction whose timestamp
    does not parse is never reported for its hour. *)
Theorem reason_is_never_empty (tx : Transaction A) (features : Features)
    (confidence : float) :
  _generate_reason tx features confidence <> EmptyString /\
  (_generate_reason tx features confidence
     = "Pattern differs from normal behavior"%string
   <-> amount_gt_10000 (amount tx) = false /\
       amount_lt_0_01 (amount tx) = false /\
       (6 <= feature_hour features <= 22)%Z /\
       amount_mod_100_is_0 (amount tx) = false /\
       sender tx <> recipient tx) /\
  (List.In "Self-transfer detected"%string (reasons tx features)
   <-> sender tx = recipient tx) /\
  (amount_gt_10000 (amount tx) = true ->
   ~ List.In "Suspiciously low amount"%string (reasons tx features)) /\
  (extract_features tx = Some features ->
   fromisoformat (timestamp tx) = None ->
   ~ List.In "Transaction at unusual hour"%string (reasons tx features)).
Proof.
  assert (Hhour :
            (feature_hour features <? 6)%Z || (22 <? feature_hour features)%Z = false
            <-> (6 <= feature_hour features <= 22)%Z).
  { rewrite orb_false_iff, !Z.ltb_ge. lia. }
  split; [|split; [|split; [|split]]].
  - unfold _generate_reason.
    destruct (reasons tx features) as [|r rs] eqn:E;
      [apply join_cons_nonempty; discriminate |].
    apply join_cons_nonempty. intros ->. revert E. unfold reasons.
    destruct (amount_gt_10000 (amount tx)), (amount_lt_0_01 (amount tx)),
      ((feature_hour features <? 6)%Z || (22 <? feature_hour features)%Z),
      (amount_mod_100_is_0 (amount tx)),
      (String.eqb (sender tx) (recipient tx)); cbn; discriminate.
  - rewrite <- Hhour. unfold _generate_reason, reasons.
    destruct (String.eqb_spec (sender tx) (recipient tx)) as [E|E];
      destruct (amount_gt_10000 (amount tx)), (amount_lt_0_01 (amount tx)),
        ((feature_hour features <? 6)%Z || (22 <? feature_hour features)%Z),
        (amount_mod_100_is_0 (amount tx));
      vm_compute; split; try discriminate; try tauto; intuition discriminate.
  - unfold reasons.
    destruct (String.eqb_spec (sender tx) (recipient tx)) as [E|E];
      destruct (amount_gt_10000 (amount tx)), (amount_lt_0_01 (amount tx)),
        ((feature_hour features <? 6)%Z || (22 <? feature_hour features)%Z),
        (amount_mod_100_is_0 (amount tx));
      cbn; split; intros H; try exact E; try tauto;
      repeat (destruct H as [H|H]; try discriminate H); try contradiction.
  - intros Hgt. unfold reasons. rewrite Hgt.
    destruct (amount_lt_0_01 (amount tx)),
      ((feature_hour features <? 6)%Z || (22 <? feature_hour features)%Z),
      (amount_mod_100_is_0 (amount tx)),
      (String.eqb (sender tx) (recipient tx));
      cbn; intros H;
      repeat (destruct H as [H|H]; try discriminate H); contradiction.
  - unfold extract_features. intros Hf Hnone. rewrite Hnone in Hf.
    destruct (amount_float (amount tx)); [|discriminate].
    injection Hf as <-. unfold reasons. cbn [feature_hour].
    change ((12 <? 6)%Z || (22 <? 12)%Z) with false.
    destruct (amount_gt_10000 (amount tx)), (amount_lt_0_01 (amount tx)),
      (amount_mod_100_is_0 (amount tx)),
      (String.eqb (sender tx) (recipient tx));
      cbn; intros H;
      repeat (destruct H as [H|H]; try discriminate H); contradiction.
Qed.

End DetectorProperties.

(** * Part VI: runs of the reference instance *)

(** The digests of the empty message and of ["abc"] (FIPS 202 test
    vectors). *)
Example sha3_256_test_vectors :
  Py.hex (sha3_256 [])
    = "a7ffc6f8bf1ed76651c14756a061d662f580ff4de43b49fa82d80a4b80f8434a"%string /\
  hexdigest "abc"
    = "3a985da74fe225b2045c172d6bd390bd855f086e3e9d525b46bfe24511431532"%string.
Proof. vm_compute. split; reflexivity. Qed.

(** The genesis block at difficulty 1 is mined at nonce 12, as it is by the
    Python program on the same clock reading. *)
Example genesis_mined_at_nonce_12 :
  mine_block 12 1 Demo.genesis_candidate = OutOfFuel /\
  block_nonce Intrusion.genesis_block = 12%Z /\
  hash Intrusion.genesis_block
    = Some "074d129747b5e40a722a76895bd68b5f3dc51bac62e5daf9aecb17ab6414cf24"%string.
Proof. vm_compute. repeat split. Qed.

(** The three blocks of the scenario: nonces and hashes, as the Python
    program computes them on the same clock readings and key bytes. *)
Example final_chain :
  List.map (fun b => (block_nonce b, hash b)) (chain Demo.final)
  = [ (12%Z, Some "074d129747b5e40a722a76895bd68b5f3dc51bac62e5daf9aecb17ab6414cf24"%string);
      (1%Z, Some "0aa45adb7f5b80a355da1ffab4e4da343cec70bce4967663e0b639c8a8f9d4e3"%string);
      (9%Z, Some "07793f042ab9d8740de496b0daf69e57c59a1d8489fc149e746a8b3722ce759d"%string) ].
Proof. vm_compute. reflexivity. Qed.

(** Balances at the end: 100 + 10.0 - 30 and 30 + 10.0. *)
Example final_balances :
  get_balance Demo.final Demo.alice = PyNum.Float 80 /\
  get_balance Demo.final "bob" = PyNum.Float 40.
Proof. vm_compute. repeat split. Qed.

(** A payment above the balance is refused and changes nothing. *)
Example overdraft_is_refused :
  add_transaction Demo.final "bob" Demo.alice (PyNum.Int 41) "2025-06-01T12:00:09"
  = (Demo.final, false).
Proof. vm_compute. reflexivity. Qed.

(** Validation of the untouched and of the tampered chains. *)
Example validation_verdicts :
  is_chain_valid Demo.final = true /\
  is_chain_valid Demo.genesis_tampered = true /\
  is_chain_valid Demo.funding_tampered = false.
Proof. vm_compute. repeat split. Qed.

(** The scenario, step by step: the constructor at difficulty 1, the
    mining of its genesis block, the first mining call, the whole run, and
    the validity of the final chain. The witnesses below start from these
    runs. *)
Example scenario_genesis_mined :
  mine_block 13 1 Demo.genesis_candidate = Returned Intrusion.genesis_block.
Proof. vm_compute. reflexivity. Qed.

Example scenario_constructed :
  Blockchain_init 100 1 "2025-06-01T12:00:00.000001" = Returned Demo.genesis.
Proof. vm_compute. reflexivity. Qed.

Example scenario_first_mining :
  mine_pending_transactions 100 Demo.funded Demo.alice
    "2025-06-01T12:00:03" "2025-06-01T12:00:04"
  = Returned (Demo.mined_once, Some Demo.block_1).
Proof. vm_compute. reflexivity. Qed.

Example scenario_run :
  do_calls 100 Demo.genesis Demo.calls = Returned Demo.final.
Proof. vm_compute. reflexivity. Qed.

Example scenario_valid : is_chain_valid Demo.final = true.
Proof. vm_compute. reflexivity. Qed.

(** Witness for C1: the scenario, run from a fresh ledger at difficulty 1. *)
Lemma chain_valid_after_any_calls_witness :
  Blockchain_init 100 1 "2025-06-01T12:00:00.000001" = Returned Demo.genesis /\
  do_calls 100 Demo.genesis Demo.calls = Returned Demo.final /\
  is_chain_valid Demo.final = true.
Proof.
  pose proof scenario_constructed as Hinit.
  pose proof scenario_run as Hrun.
  split; [exact Hinit | split; [exact Hrun |]].
  exact (chain_valid_after_any_calls 100 1 _ Demo.genesis 100 Demo.calls Demo.final
           Hinit Hrun).
Defined.



(** Witness for C6: at difficulty 1 the hash of the genesis block at nonce
    12 starts with ['0'], so mining it exits. *)
Lemma mine_block_exits_iff_target_reachable_witness :
  (0 <= 1)%Z /\
  leading_zeros 1 (hash_at Demo.genesis_candidate 12) /\
  exists (fuel : nat) (b' : Block PyNum.t),
    mine_block fuel 1 Demo.genesis_candidate = Returned b'.
Proof.
  assert (0 <= 1)%Z as Hd by lia.
  assert (leading_zeros 1 (hash_at Demo.genesis_candidate 12)) as Hz
      by (intros [|k] Hk; [vm_compute; reflexivity | lia]).
  split; [exact Hd | split; [exact Hz |]].
  apply (proj1 (mine_block_exits_iff_target_reachable 1 Demo.genesis_candidate Hd)).
  exists 12. exact Hz.
Defined.

(** Counterexample for C6: the mining of the genesis block at difficulty
    65, on a machine that can build a string of 65 characters, is still
    looping after any number of attempts and never returns; and mining at
    difficulty 0 a block that was already mined at difficulty 1 exits at
    once with the nonce 12 it had. *)
Lemma mining_at_difficulty_65_never_exits :
  (forall fuel : nat, mine_block fuel 65 Demo.genesis_candidate = OutOfFuel) /\
  (~ exists (fuel : nat) (b' : Block PyNum.t),
       mine_block fuel 65 Demo.genesis_candidate = Returned b') /\
  mine_block 13 1 Demo.genesis_candidate = Returned Intrusion.genesis_block /\
  mine_block 1 0 Intrusion.genesis_block = Returned Intrusion.genesis_block /\
  block_nonce Intrusion.genesis_block = 12%Z.
Proof.
  assert (forall fuel : nat,
             mine_block fuel 65 Demo.genesis_candidate = OutOfFuel) as Hloop.
  { intros fuel. rewrite mine_block_above_64 by lia. reflexivity. }
  split; [exact Hloop |]. split; [|split; [exact scenario_genesis_mined |]].
  - intros (fuel & b' & Hm). rewrite Hloop in Hm. discriminate.
  - vm_compute. split; reflexivity.
Qed.

(** Counterexample for C8: the amount of the genesis transaction of a valid
    three-block chain is overwritten, and the chain still validates. *)
Lemma genesis_tampering_is_not_detected :
  is_chain_valid Demo.final = true /\
  (amount <$> (chain Demo.final !! 0 ≫= fun b => transactions b !! 0))
    = Some (PyNum.Int 0) /\
  tamper_amount Demo.final 0 0 (PyNum.Int 1000000) = Some Demo.genesis_tampered /\
  (amount <$> (chain Demo.genesis_tampered !! 0 ≫= fun b => transactions b !! 0))
    = Some (PyNum.Int 1000000) /\
  is_chain_valid Demo.genesis_tampered = true.
Proof. vm_compute. repeat split. Qed.

(** Witness for C8: the same overwrite in block 1, of the amount 100 of the
    funding transaction, is detected. *)
Lemma tampering_detected_from_block_1_witness :
  is_chain_valid Demo.final = true /\
  chain Demo.final !! 1 = Some Demo.block_1 /\
  transactions Demo.block_1 !! 0 = Some Intrusion.funding_transaction /\
  tamper_amount Demo.final 1 0 (PyNum.Int 1000000) = Some Demo.funding_tampered /\
  PyNum.Int 1000000 <> amount Intrusion.funding_transaction /\
  is_chain_valid Demo.funding_tampered = false.
Proof.
  pose proof scenario_valid as Hvalid.
  assert (chain Demo.final !! 1 = Some Demo.block_1) as Hb
      by (vm_compute; reflexivity).
  assert (transactions Demo.block_1 !! 0 = Some Intrusion.funding_transaction)
    as Htx by (vm_compute; reflexivity).
  assert (tamper_amount Demo.final 1 0 (PyNum.Int 1000000)
          = Some Demo.funding_tampered)
    as Htamper by (vm_compute; reflexivity).
  assert (PyNum.Int 1000000 <> amount Intrusion.funding_transaction) as Hne
      by (vm_compute; discriminate).
  split; [exact Hvalid | split; [exact Hb | split; [exact Htx |]]].
  split; [exact Htamper | split; [exact Hne |]].
  destruct (tampering_detected_from_block_1 Demo.final Demo.funding_tampered
              1 0 (PyNum.Int 1000000) Demo.block_1 Intrusion.funding_transaction
              Hvalid Hb Htx Htamper)
    as (_ & Hdetect & _).
  apply (Hdetect (le_n 1) Hne).
  - intros E. vm_compute in E. discriminate E.
  - intros E. vm_compute in E. discriminate E.
Defined.



(** Counterexample for C10: two mining calls on a fresh ledger find the
    pool empty, and the ledger still holds the genesis transaction alone. *)
Lemma two_idle_mining_calls_leave_one_transaction :
  do_calls 100 Demo.genesis
    [ MinePending "alice" "2025-06-01T12:00:03" "2025-06-01T12:00:04";
      MinePending "bob" "2025-06-01T12:00:06" "2025-06-01T12:00:07" ]
    = Returned Demo.genesis /\
  ~ exists (i j : nat) (tx1 tx2 : Transaction PyNum.t),
      i <> j /\
      all_transactions Demo.genesis !! i = Some tx1 /\
      all_transactions Demo.genesis !! j = Some tx2 /\
      nonce tx1 = nonce tx2.
Proof.
  split; [vm_compute; reflexivity |].
  intros (i & j & tx1 & tx2 & Hij & H1 & H2 & _).
  apply lookup_lt_Some in H1, H2.
  change (List.length (all_transactions Demo.genesis)) with 1 in H1, H2. lia.
Qed.

(** Witness for C10: the two mining calls of the scenario. *)
Lemma reward_nonce_is_constant_and_repeats_witness :
  Blockchain_init 100 1 "2025-06-01T12:00:00.000001" = Returned Demo.genesis /\
  mine_pending_transactions 100 Demo.funded Demo.alice
    "2025-06-01T12:00:03" "2025-06-01T12:00:04"
    = Returned (Demo.mined_once, Some Demo.block_1) /\
  do_calls 100 Demo.mined_once Demo.payment = Returned Demo.paid /\
  mine_pending_transactions 100 Demo.paid "bob"
    "2025-06-01T12:00:06" "2025-06-01T12:00:07"
    = Returned (Demo.final, Some Demo.block_2) /\
  do_calls 100 Demo.final [] = Returned Demo.final /\
  exists (i j : nat) (tx1 tx2 : Transaction PyNum.t),
    i <> j /\
    all_transactions Demo.final !! i = Some tx1 /\
    all_transactions Demo.final !! j = Some tx2 /\
    nonce tx1 = "reward"%string /\ nonce tx2 = "reward"%string.
Proof.
  pose proof scenario_constructed as Hinit.
  pose proof scenario_first_mining as Hm1.
  assert (do_calls 100 Demo.mined_once Demo.payment = Returned Demo.paid)
    as Hc1 by (vm_compute; reflexivity).
  assert (mine_pending_transactions 100 Demo.paid "bob"
            "2025-06-01T12:00:06" "2025-06-01T12:00:07"
          = Returned (Demo.final, Some Demo.block_2))
    as Hm2 by (vm_compute; reflexivity).
  assert (do_calls 100 Demo.final [] = Returned Demo.final)
    as Hc2 by reflexivity.
  repeat (split; [assumption |]).
  exact (proj2 (proj2 (proj2
           (reward_nonce_is_constant_and_repeats 100 1 _ Demo.genesis 100
              Demo.funded Demo.mined_once Demo.paid Demo.final Demo.final
              Demo.alice "bob" _ _ _ _ Demo.block_1 Demo.block_2 Demo.payment []
              Hinit Hm1 Hc1 Hm2 Hc2)))).
Defined.

(** Witness for X3: two wallets named ["Alice"] on the fresh ledger. *)
Lemma create_wallet_accepts_duplicate_names_witness :
  let bc1 :=
    create_wallet Demo.genesis "Alice" Demo.alice_public_key
      Demo.alice_private_key "2025-06-01T12:00:01" in
  let bc2 :=
    create_wallet (fst bc1) "Alice" Intrusion.mallory_public_key
      Intrusion.mallory_private_key "2025-06-01T12:00:02" in
  snd bc1 <> snd bc2 /\
  (wallet_name <$> wallets (fst bc2) !! snd bc1) = Some "Alice"%string /\
  (wallet_name <$> wallets (fst bc2) !! snd bc2) = Some "Alice"%string.
Proof.
  intros bc1 bc2.
  assert (snd bc1 <> snd bc2) as Hne by (vm_compute; discriminate).
  split; [exact Hne |].
  exact (create_wallet_accepts_duplicate_names Demo.genesis "Alice"
           Demo.alice_public_key Demo.alice_private_key
           Intrusion.mallory_public_key Intrusion.mallory_private_key
           "2025-06-01T12:00:01" "2025-06-01T12:00:02" Hne).
Defined.

(** Witness for X6: Alice's payment of the scenario. *)
Lemma add_transaction_signs_registered_senders_witness :
  (Demo.alice = "System"%string \/
   num_ltb (get_balance Demo.mined_once Demo.alice) (PyNum.Int 30) = false) /\
  exists tx : Transaction PyNum.t,
    add_transaction Demo.mined_once Demo.alice "bob" (PyNum.Int 30)
      "2025-06-01T12:00:05" = (after_adding Demo.mined_once tx, true) /\
    timestamp tx = "2025-06-01T12:00:05"%string /\
    nonce tx = hexdigest (Demo.alice +:+ "bob" +:+ num_str (PyNum.Int 30)
                          +:+ "2025-06-01T12:00:05") /\
    signature tx
    = ((fun wallet =>
          sha3_256 (Py.encode (Demo.alice +:+ "bob" +:+ num_str (PyNum.Int 30))
                    ++ private_key (wallet_keypair wallet)))
       <$> wallets Demo.mined_once !! Demo.alice).
Proof.
  assert (Demo.alice = "System"%string \/
          num_ltb (get_balance Demo.mined_once Demo.alice) (PyNum.Int 30) = false)
    as Hok by (right; vm_compute; reflexivity).
  split; [exact Hok |].
  exact (add_transaction_signs_registered_senders Demo.mined_once Demo.alice "bob"
           (PyNum.Int 30) "2025-06-01T12:00:05" Hok).
Defined.

(** Witness for X8: the first mining call of the scenario, seen from
    ["bob"], who is neither the miner nor ["System"]. *)
Lemma mining_changes_balances_by_the_reward_witness :
  mine_pending_transactions 100 Demo.funded Demo.alice
    "2025-06-01T12:00:03" "2025-06-01T12:00:04"
    = Returned (Demo.mined_once, Some Demo.block_1) /\
  get_balance Demo.mined_once "bob" = get_balance Demo.funded "bob".
Proof.
  pose proof scenario_first_mining as Hcall.
  split; [exact Hcall |].
  apply (mining_changes_balances_by_the_reward 100 Demo.funded Demo.mined_once
           Demo.alice "2025-06-01T12:00:03" "2025-06-01T12:00:04" Demo.block_1
           "bob" Hcall); vm_compute; discriminate.
Defined.

(** Witness for X9: ["carol"] takes part in no transaction of the
    scenario. *)
Lemma unused_address_has_zero_balance_witness :
  unused_address Demo.final "carol" /\
  get_balance Demo.final "carol" = PyNum.Int 0.
Proof.
  assert (unused_address Demo.final "carol") as Hun.
  { intros tx Hin.
    apply (proj1 (List.Forall_forall
                    (fun tx : Transaction PyNum.t =>
                       sender tx <> "carol"%string /\
                       recipient tx <> "carol"%string)
                    (all_transactions Demo.final))); [|exact Hin].
    vm_compute.
    repeat first [ apply List.Forall_nil
                 | apply List.Forall_cons; [split; discriminate |] ]. }
  split; [exact Hun |].
  exact (unused_address_has_zero_balance Demo.final "carol" Hun).
Defined.

(** Witness for X11: the scenario, run from the fresh ledger. *)
Lemma calls_only_append_witness :
  do_calls 100 Demo.genesis Demo.calls = Returned Demo.final /\
  (exists blocks, chain Demo.final = chain Demo.genesis ++ blocks) /\
  (exists txs,
      all_transactions Demo.final = all_transactions Demo.genesis ++ txs) /\
  difficulty Demo.final = difficulty Demo.genesis /\
  mining_reward Demo.final = mining_reward Demo.genesis /\
  (forall a, is_Some (wallets Demo.genesis !! a) ->
             is_Some (wallets Demo.final !! a)).
Proof.
  pose proof scenario_run as Hrun.
  split; [exact Hrun |].
  exact (calls_only_append 100 Demo.genesis Demo.final Demo.calls Hrun).
Defined.

(** Witness for X12: the three blocks of the scenario. *)
Lemma reachable_chain_is_well_formed_witness :
  Blockchain_init 100 1 "2025-06-01T12:00:00.000001" = Returned Demo.genesis /\
  do_calls 100 Demo.genesis Demo.calls = Returned Demo.final /\
  difficulty Demo.final = 1%Z /\
  chain_well_formed 1 (chain Demo.final).
Proof.
  pose proof scenario_constructed as Hinit.
  pose proof scenario_run as Hrun.
  split; [exact Hinit | split; [exact Hrun |]].
  exact (reachable_chain_is_well_formed 100 100 1 _ Demo.genesis Demo.final
           Demo.calls Hinit Hrun).
Defined.

(** Witness for X13: after the first mining call of the scenario the pool
    starts with Alice's reward. *)
Lemma pool_is_never_empty_after_the_first_mining_witness :
  Blockchain_init 100 1 "2025-06-01T12:00:00.000001" = Returned Demo.genesis /\
  do_calls 100 Demo.genesis
    (Demo.funding ++ [MinePending Demo.alice "2025-06-01T12:00:03"
                        "2025-06-01T12:00:04"])
    = Returned Demo.mined_once /\
  1 < List.length (chain Demo.mined_once) /\
  reward_heads_pool Demo.mined_once.
Proof.
  pose proof scenario_constructed as Hinit.
  assert (do_calls 100 Demo.genesis
            (Demo.funding ++ [MinePending Demo.alice "2025-06-01T12:00:03"
                                "2025-06-01T12:00:04"])
          = Returned Demo.mined_once)
    as Hrun by (vm_compute; reflexivity).
  assert (1 < List.length (chain Demo.mined_once)) as Hlen
      by (vm_compute; lia).
  split; [exact Hinit | split; [exact Hrun | split; [exact Hlen |]]].
  exact (proj1 (pool_is_never_empty_after_the_first_mining 100 100 1 _
                  Demo.genesis Demo.mined_once _ Hinit Hrun Hlen)).
Defined.

(** Witness for X14: the report on the final ledger of the scenario. *)
Lemma get_chain_info_after_any_calls_witness :
  Blockchain_init 100 1 "2025-06-01T12:00:00.000001" = Returned Demo.genesis /\
  do_calls 100 Demo.genesis Demo.calls = Returned Demo.final /\
  exists info h,
    get_chain_info Demo.final = Returned info /\
    info_blocks info = List.length (chain Demo.final) /\
    1 <= info_blocks info /\
    info_total_transactions info + info_pending_transactions info
      = List.length (all_transactions Demo.final) /\
    info_difficulty info = 1%Z /\
    info_latest_hash info = Some h /\
    leading_zeros (Z.to_nat 1) h /\
    info_is_valid info = true.
Proof.
  pose proof scenario_constructed as Hinit.
  pose proof scenario_run as Hrun.
  split; [exact Hinit | split; [exact Hrun |]].
  exact (proj1 (get_chain_info_after_any_calls 100 100 1 _ Demo.genesis Demo.final
                  Demo.calls Hinit Hrun)).
Defined.

(** Witness for X15: the forged block is accepted on top of the final
    ledger of the scenario. *)
Lemma validation_accepts_any_linked_mined_block_witness :
  is_chain_valid Demo.final = true /\
  last (chain Demo.final) = Some Demo.block_2 /\
  previous_hash Intrusion.forged_candidate = hash Demo.block_2 /\
  mine_block 200 (difficulty Demo.final) Intrusion.forged_candidate
    = Returned Intrusion.forged /\
  is_chain_valid (set_chain Demo.final (chain Demo.final ++ [Intrusion.forged]))
    = true /\
  index Intrusion.forged = 99%Z /\
  transactions Intrusion.forged = [Intrusion.theft] /\
  merkle_root Intrusion.forged = "bogus"%string.
Proof.
  pose proof scenario_valid as Hv.
  assert (last (chain Demo.final) = Some Demo.block_2) as Hl
      by (vm_compute; reflexivity).
  assert (previous_hash Intrusion.forged_candidate = hash Demo.block_2) as Hp
      by reflexivity.
  assert (mine_block 200 (difficulty Demo.final) Intrusion.forged_candidate
          = Returned Intrusion.forged) as Hm by (vm_compute; reflexivity).
  split; [exact Hv | split; [exact Hl | split; [exact Hp | split; [exact Hm |]]]].
  exact (validation_accepts_any_linked_mined_block 200 Demo.final Demo.block_2
           Intrusion.forged_candidate Intrusion.forged Hv Hl Hp Hm).
Defined.

(** Witness for X16: the stored hash of block 1 of the scenario,
    overwritten. *)
Lemma stored_hash_tampering_is_detected_witness :
  is_chain_valid Demo.final = true /\
  chain Demo.final !! 1 = Some Demo.block_1 /\
  Some "00"%string <> hash Demo.block_1 /\
  tamper_hash Demo.final 1 (Some "00"%string) = Some Intrusion.hash_tampered /\
  (is_chain_valid Intrusion.hash_tampered = true <->
   1 = 0 /\ List.length (chain Demo.final) = 1).
Proof.
  pose proof scenario_valid as Hv.
  assert (chain Demo.final !! 1 = Some Demo.block_1) as Hb
      by (vm_compute; reflexivity).
  assert (Some "00"%string <> hash Demo.block_1) as Hne
      by (vm_compute; discriminate).
  assert (tamper_hash Demo.final 1 (Some "00"%string)
          = Some Intrusion.hash_tampered) as Ht by (vm_compute; reflexivity).
  split; [exact Hv | split; [exact Hb | split; [exact Hne | split; [exact Ht |]]]].
  exact (stored_hash_tampering_is_detected Demo.final Intrusion.hash_tampered 1
           Demo.block_1 (Some "00"%string) Hv Hb Hne Ht).
Defined.

(** Witness for X17: the final chain of the scenario cut down to its first
    two blocks, which drops Alice's payment to ["bob"]. *)
Lemma truncation_is_not_detected_witness :
  is_chain_valid Demo.final = true /\
  is_chain_valid (truncate_chain Demo.final 2) = true.
Proof.
  pose proof scenario_valid as Hv.
  split; [exact Hv |].
  exact (truncation_is_not_detected Demo.final 2 Hv).
Defined.

(** Witness for X18: the genesis block of the scenario, mined again. *)
Lemma mining_again_changes_nothing_witness :
  mine_block 13 1 Demo.genesis_candidate = Returned Intrusion.genesis_block /\
  (0 <= 1 <= 1)%Z /\
  mine_block 1 1 Intrusion.genesis_block = Returned Intrusion.genesis_block.
Proof.
  pose proof scenario_genesis_mined as Hm.
  assert (0 <= 1 <= 1)%Z as Hd by lia.
  split; [exact Hm | split; [exact Hd |]].
  exact (mining_again_changes_nothing 13 1 1 Demo.genesis_candidate
           Intrusion.genesis_block Hm Hd).
Defined.

(** Witness for X19: the two transactions of block 2 of the scenario and a
    third one, which is then repeated. *)
Lemma merkle_root_ignores_a_repeated_last_transaction_witness :
  let txs := transactions Demo.block_2 in
  let tx := Intrusion.theft in
  1 < List.length (txs ++ [tx]) /\
  Nat.odd (List.length (txs ++ [tx])) = true /\
  _calculate_merkle_root ((txs ++ [tx]) ++ [tx])
  = _calculate_merkle_root (txs ++ [tx]).
Proof.
  intros txs tx.
  assert (1 < List.length (txs ++ [tx])) as Hlen by (vm_compute; lia).
  assert (Nat.odd (List.length (txs ++ [tx])) = true) as Hodd
      by (vm_compute; reflexivity).
  split; [exact Hlen | split; [exact Hodd |]].
  exact (merkle_root_ignores_a_repeated_last_transaction txs tx Hlen Hodd).
Defined.

(** Witness for X20: the funding transaction of block 1 of the scenario,
    given an empty signature. *)
Lemma empty_signature_is_hashed_like_none_witness :
  signature Intrusion.funding_transaction = None /\
  chain Demo.final !! 1 = Some Demo.block_1 /\
  transactions Demo.block_1 !! 0 = Some Intrusion.funding_transaction /\
  is_chain_valid Demo.final = true /\
  is_chain_valid
    (set_chain Demo.final
       (<[1 := set_transactions Demo.block_1
                 (<[0 := set_signature Intrusion.funding_transaction (Some [])]>
                    (transactions Demo.block_1))]> (chain Demo.final))) = true.
Proof.
  assert (signature Intrusion.funding_transaction = None) as Hsig by reflexivity.
  assert (chain Demo.final !! 1 = Some Demo.block_1) as Hb
      by (vm_compute; reflexivity).
  assert (transactions Demo.block_1 !! 0 = Some Intrusion.funding_transaction)
    as Htx by (vm_compute; reflexivity).
  pose proof scenario_valid as Hv.
  split; [exact Hsig | split; [exact Hb | split; [exact Htx | split; [exact Hv |]]]].
  exact (proj2 (proj2 (proj2 (proj2
           (empty_signature_is_hashed_like_none Demo.final 1 0 Demo.block_1
              Intrusion.funding_transaction Hsig Hb Htx)))) Hv).
Defined.

(** Witness for X21: Alice's wallet at the end of the scenario, when
    [get_balance] gives her 80. *)
Lemma wallet_entries_are_never_updated_witness :
  Blockchain_init 100 1 "2025-06-01T12:00:00.000001" = Returned Demo.genesis /\
  do_calls 100 Demo.genesis Demo.calls = Returned Demo.final /\
  wallets Demo.final !! Demo.alice = Some Intrusion.alice_wallet /\
  Demo.alice = get_address (wallet_keypair Intrusion.alice_wallet) /\
  String.length Demo.alice = 40 /\
  wallet_balance Intrusion.alice_wallet = 0%Z /\
  is_quantum_safe (wallet_keypair Intrusion.alice_wallet) = false.
Proof.
  pose proof scenario_constructed as Hinit.
  pose proof scenario_run as Hrun.
  assert (wallets Demo.final !! Demo.alice = Some Intrusion.alice_wallet)
    as Hw by (vm_compute; reflexivity).
  split; [exact Hinit | split; [exact Hrun | split; [exact Hw |]]].
  exact (wallet_entries_are_never_updated 100 100 1 _ Demo.genesis Demo.final
           Demo.calls Demo.alice Intrusion.alice_wallet Hinit Hrun Hw).
Defined.


(** Witness for X23: the detector of the API on a large payment between
    two parties. *)
Lemma rule_based_detection_at_sensitivity_0_75_witness :
  sensitivity Watch.detector = 0.75%float /\
  fst (_rule_based_detection Watch.detector Watch.large_payment) = false.
Proof.
  assert (sensitivity Watch.detector = 0.75%float) as Hs by reflexivity.
  split; [exact Hs |].
  apply (proj1 (proj2 (rule_based_detection_at_sensitivity_0_75 Watch.detector
                         Watch.large_payment Hs))).
  - vm_compute. discriminate.
  - intros _. vm_compute. reflexivity.
Defined.

(** Witness for X24: the same payment, analysed by the untrained detector
    of the API. *)
Lemma untrained_predict_follows_the_rules_witness :
  is_trained Watch.detector = false /\
  exists self' outcome,
    predict Watch.detector Watch.large_payment Watch.unasked
      "2025-06-03T10:00:00" = Returned (self', outcome) /\
    fst outcome = (false, 0.5%float) /\
    forall answers',
      predict Watch.detector Watch.large_payment answers'
        "2025-06-03T10:00:00" = Returned (self', outcome).
Proof.
  assert (is_trained Watch.detector = false) as Ht by reflexivity.
  split; [exact Ht |].
  destruct (predict Watch.detector Watch.large_payment Watch.unasked
              "2025-06-03T10:00:00") as [[self' outcome]| |] eqn:Hp;
    [|vm_compute in Hp; discriminate ..].
  exists self', outcome. split; [reflexivity |].
  destruct (proj2 (untrained_predict_follows_the_rules Watch.detector
                     Watch.large_payment Watch.unasked "2025-06-03T10:00:00" Ht)
              self' outcome Hp) as (Hrule & _ & _ & _ & _ & _ & Hany).
  split; [|exact Hany].
  rewrite Hrule. vm_compute. reflexivity.
Defined.

(** Witness for X25: two calls on the detector of the API. *)
Lemma new_detector_statistics_witness :
  predict_all (AnomalyDetector_init default_contamination default_sensitivity)
    Watch.calls = Returned (Watch.watched, Watch.outcomes) /\
  total_analyzed (get_statistics Watch.watched 0.75) = 2 /\
  anomalies_detected (get_statistics Watch.watched 0.75) = 1.
Proof.
  assert (predict_all
            (AnomalyDetector_init default_contamination default_sensitivity)
            Watch.calls = Returned (Watch.watched, Watch.outcomes)) as Hrun
      by (vm_compute; reflexivity).
  split; [exact Hrun |].
  destruct (new_detector_statistics default_contamination default_sensitivity
              0.75 Watch.calls Watch.watched Watch.outcomes Hrun)
    as (_ & _ & _ & Htotal & Hanomalies & _).
  split; [exact Htotal | exact Hanomalies].
Defined.

(** Witness for X26: training on a single transaction. *)
Lemma train_needs_ten_transactions_witness :
  train Watch.detector [Watch.large_payment] true
    = Returned (Watch.detector, false) /\
  (false = false <-> List.length [Watch.large_payment] < 10).
Proof.
  assert (train Watch.detector [Watch.large_payment] true
          = Returned (Watch.detector, false)) as Htrain by reflexivity.
  split; [exact Htrain |].
  exact (proj1 (train_needs_ten_transactions Watch.detector Watch.detector
                  [Watch.large_payment] true false Htrain)).
Defined.
